(** * Hydraulic rating curves: the computation core of [hydraulic/profile.py]

    A shallow embedding of the classes [WaterSection], [Calculation] and of
    the level sweep [Morfostvor.calculate], followed by the properties of the
    specification stated and settled against it.

    Numbers.  Python floats are idealised: the arithmetic of the geometry
    (sums, products, quotients, comparisons) is exact arithmetic over [Q],
    which evaluates; the square roots, powers and logarithms of numpy are the
    real functions of the Standard Library, reached through [Q2R].  A Python
    exception or [sys.exit] is an explicit [outcome]. *)

From Stdlib Require Import List ZArith QArith Qabs Qround Lia Bool String.
From Stdlib Require Import Reals Qreals Lqa Lra.
Import ListNotations.

Set Implicit Arguments.

Local Open Scope Z_scope.
Local Open Scope Q_scope.

(** ** Outcomes of a Python computation *)

Inductive exn : Set := IndexError | ValueError | TypeError | ZeroDivisionError.

(** A value, [sys.exit(code)], an exception that reaches the caller, or a
    run that has produced a number outside the real line, which the model
    does not follow further (see [np] below). *)
Inductive outcome (A : Type) : Type :=
| Ok (a : A)
| SysExit (code : Z)
| Raise (e : exn)
| NotReal.

Arguments Ok {A} a.
Arguments SysExit {A} code.
Arguments Raise {A} e.
Arguments NotReal {A}.

Definition bind {A B} (m : outcome A) (k : A -> outcome B) : outcome B :=
  match m with
  | Ok a => k a
  | SysExit c => SysExit c
  | Raise e => Raise e
  | NotReal => NotReal
  end.

Notation "x <- m ;; k" := (bind m (fun x => k))
  (at level 61, m at next level, right associativity).

(** Python's [a and b] on conditions that may raise: [b] is evaluated only
    when [a] holds. *)
Definition py_and (a b : outcome bool) : outcome bool :=
  t <- a ;; if t then b else Ok false.

(** [try: ... except IndexError: print(...); sys.exit(2)]. *)
Definition except_IndexError_exit2 {A} (m : outcome A) : outcome A :=
  match m with
  | Raise IndexError => SysExit 2
  | _ => m
  end.

(** ** Python lists *)

Module Py.

Definition len {A} (l : list A) : Z := Z.of_nat (List.length l).

(** [l[i]], a negative index counting from the end. *)
Definition get {A} (l : list A) (i : Z) : outcome A :=
  let j := (if i <? 0 then i + len l else i)%Z in
  if (j <? 0)%Z then Raise IndexError
  else match nth_error l (Z.to_nat j) with
       | Some a => Ok a
       | None => Raise IndexError
       end.

(** The bound of a slice, brought into [0 .. len l]. *)
Definition clamp {A} (l : list A) (i : Z) : nat :=
  let j := (if i <? 0 then i + len l else i)%Z in
  Z.to_nat (Z.min (Z.max 0 j) (len l)).

(** [l[a:b]]. *)
Definition slice {A} (l : list A) (a b : Z) : list A :=
  firstn (clamp l b - clamp l a) (skipn (clamp l a) l).

(** [l.insert(i, v)]. *)
Definition insert {A} (l : list A) (i : Z) (v : A) : list A :=
  firstn (clamp l i) l ++ v :: skipn (clamp l i) l.

(** [min(l)] and [max(l)]: the first extremal element; [ValueError] on [[]]. *)
Definition min (l : list Q) : outcome Q :=
  match l with
  | [] => Raise ValueError
  | a :: t => Ok (fold_left (fun m v => if Qlt_le_dec v m then v else m) t a)
  end.

Definition max (l : list Q) : outcome Q :=
  match l with
  | [] => Raise ValueError
  | a :: t => Ok (fold_left (fun m v => if Qlt_le_dec m v then v else m) t a)
  end.

(** [l.index(v)]: the first position whose element equals [v]. *)
Fixpoint index_from (l : list Q) (v : Q) (k : Z) : outcome Z :=
  match l with
  | [] => Raise ValueError
  | a :: t => if Qeq_bool a v then Ok k else index_from t v (k + 1)%Z
  end.

Definition index (l : list Q) (v : Q) : outcome Z := index_from l v 0%Z.

(** [range(start, -1, -1)] and [range(start, stop)]. *)
Definition range_down (start : Z) : list Z :=
  map (fun k => (start - Z.of_nat k)%Z) (seq 0 (Z.to_nat (start + 1))).

Definition range (start stop : Z) : list Z :=
  map (fun k => (start + Z.of_nat k)%Z) (seq 0 (Z.to_nat (stop - start))).

End Py.

(** ** The two library functions of the geometry *)

(** [scipy.interpolate.interp1d([a1, a2], [b1, b2])(v)] on two nodes, linear
    kind, default [bounds_error]: the nodes are sorted by abscissa (a stable
    sort), a query outside them raises [ValueError], and the value is
    [numpy.interp]'s: the ordinate of the last node when [v] reaches its
    abscissa, the ordinate of the first node when [v] is its abscissa, the
    point of the chord otherwise. *)
Definition interp1d (a1 a2 b1 b2 v : Q) : outcome Q :=
  let '(xa, ya, xb, yb) :=
    if Qle_bool a1 a2 then (a1, b1, a2, b2) else (a2, b2, a1, b1) in
  if Qlt_le_dec v xa then Raise ValueError
  else if Qlt_le_dec xb v then Raise ValueError
  else if Qle_bool xb v then Ok yb
  else if Qeq_bool xa v then Ok ya
  else Ok ((yb - ya) / (xb - xa) * (v - xa) + ya).

(** Modelled from the spec: [poly_area] of [hydraulic.lib], which is not among
    the sources; section 4.2 names it "the shoelace polygon-area formula over
    the closed wetted polygon": half the absolute value of the sum of the
    cross products of consecutive vertices, the last one joined to the
    first. *)
Fixpoint shoelace_sum (first : Q * Q) (p : list (Q * Q)) : Q :=
  match p with
  | [] => 0
  | (x1, y1) :: t =>
      match t with
      | [] => x1 * snd first - fst first * y1
      | (x2, y2) :: _ => (x1 * y2 - x2 * y1) + shoelace_sum first t
      end
  end.

Definition poly_area (xs ys : list Q) : Q :=
  match combine xs ys with
  | [] => 0
  | v :: t => Qabs (shoelace_sum v (v :: t)) / 2
  end.

(** ** [WaterSection] *)

(** One group of [boundary()]'s result:
    [[water_boundary_x, water_boundary_y, water_boundary_points, 0]]. *)
Record water_boundary : Type := mk_water_boundary {
  water_boundary_x : list Q;
  water_boundary_y : list Q;
  water_boundary_points : list Z;
  water_boundary_tag : Z
}.

Definition append_boundary (b : water_boundary) (bx by_ : Q) (pt : Z) : water_boundary :=
  mk_water_boundary (water_boundary_x b ++ [bx]) (water_boundary_y b ++ [by_])
                    (water_boundary_points b ++ [pt]) (water_boundary_tag b).

(** The fields a [WaterSection] carries after construction.  [wet_perimeter]
    is the declared dataclass field; [w_perimeter] is the attribute that
    [_calculate_parameters] creates. *)
Record WaterSection : Type := mk_WaterSection {
  water_section_x : list Q;
  water_section_y : list Q;
  width : Q;
  area : Q;
  average_depth : Q;
  max_depth : Q;
  wet_perimeter : Q;
  r_hydraulic : R;
  w_perimeter : R
}.

(** The dataclass defaults. *)
Definition WaterSection_defaults : WaterSection :=
  mk_WaterSection [] [] 0 0 0 0 0 0%R 0%R.

Section WaterSectionOf.

(** [config.OVERFLOW]; the module [hydraulic.config] is read, never
    written, by the computation. *)
Variable OVERFLOW : bool.

Variables (x y : list Q) (water_level : Q).

(** One step of the leftward search, at index [i]; [None] lets the loop go
    on, [Some] is the [break] with the boundary appended. *)
Definition left_step (s i : Z) : outcome (option (Q * Q * Z)) :=
  c0 <- py_and (Ok (s =? 0)%Z)
               (ys <- Py.get y s ;; Ok (Qle_bool ys water_level)) ;;
  if c0 then x0 <- Py.get x 0%Z ;; Ok (Some (x0, water_level, 0%Z))
  else
    c1 <- py_and (a <- Py.get y (i - 1)%Z ;; Ok (Qle_bool water_level a))
                 (b <- Py.get y i ;; Ok (Qle_bool b water_level)) ;;
    if c1 then
      x1 <- Py.get x (i - 1)%Z ;; x2 <- Py.get x i ;;
      y1 <- Py.get y (i - 1)%Z ;; y2 <- Py.get y i ;;
      f <- interp1d y1 y2 x1 x2 water_level ;;
      Ok (Some (f, water_level, (i - 1)%Z))
    else
      c2 <- py_and (Ok (i - 1 =? 0)%Z)
                   (a <- Py.get y (i - 1)%Z ;; Ok (Qle_bool a water_level)) ;;
      if c2 then
        xi <- Py.get x (i - 1)%Z ;; Ok (Some (xi, water_level, (i - 1)%Z))
      else Ok None.

(** One step of the rightward search. *)
Definition right_step (i : Z) : outcome (option (Q * Q * Z)) :=
  c1 <- py_and (a <- Py.get y i ;; Ok (Qle_bool a water_level))
               (b <- Py.get y (i + 1)%Z ;; Ok (Qle_bool water_level b)) ;;
  if c1 then
    x1 <- Py.get x i ;; x2 <- Py.get x (i + 1)%Z ;;
    y1 <- Py.get y i ;; y2 <- Py.get y (i + 1)%Z ;;
    f <- interp1d y1 y2 x1 x2 water_level ;;
    Ok (Some (f, water_level, i))
  else
    c2 <- py_and (Ok (i + 1 =? Py.len y - 1)%Z)
                 (a <- Py.get y (Py.len y - 1)%Z ;; Ok (Qle_bool a water_level)) ;;
    if c2 then
      xl <- Py.get x (Py.len x - 1)%Z ;; Ok (Some (xl, water_level, (i + 1)%Z))
    else Ok None.

(** A [for] loop with [break]: the first index whose step finds a boundary. *)
Fixpoint search (step : Z -> outcome (option (Q * Q * Z))) (idx : list Z)
  : outcome (option (Q * Q * Z)) :=
  match idx with
  | [] => Ok None
  | i :: rest =>
      r <- step i ;;
      match r with
      | Some b => Ok (Some b)
      | None => search step rest
      end
  end.

Definition add_found (b : water_boundary) (r : option (Q * Q * Z)) : water_boundary :=
  match r with
  | Some (bx, by_, pt) => append_boundary b bx by_ pt
  | None => b
  end.

(** [WaterSection.boundary]; [start_point] is [None] for the empty default
    list, [Some (index, elevation)] otherwise. *)
Definition boundary (start_point : option (Z * Q)) : outcome (list water_boundary) :=
  sp <- match start_point with
        | Some p => Ok p
        | None => m <- Py.min y ;; k <- Py.index y m ;; Ok (k, m)
        end ;;
  let s := fst sp in
  m <- Py.min y ;;
  if Qlt_le_dec water_level m then SysExit 1
  else
    let b0 := mk_water_boundary [] [] [] 0%Z in
    l <- search (left_step s) (Py.range_down s) ;;
    let b1 := add_found b0 l in
    r <- search right_step (Py.range s (Py.len y - 1)%Z) ;;
    let b2 := add_found b1 r in
    c <- py_and (Ok (s =? Py.len y - 1)%Z)
                (ys <- Py.get y s ;; Ok (Qle_bool ys water_level)) ;;
    b3 <- (if c then xl <- Py.get x (Py.len y - 1)%Z ;;
                      Ok (append_boundary b2 xl water_level (Py.len y - 1)%Z)
           else Ok b2) ;;
    Ok ([] ++ [b3]).

(** The sum of the squared horizontal steps of a polyline. *)
Fixpoint sum_sqr (xs : list Q) : Q :=
  match xs with
  | a :: (b :: _) as t => (b - a) ^ 2 + sum_sqr t
  | _ => 0
  end.

Definition epsilon : Q := 1 # 100000.

(** [WaterSection._calculate_parameters], on the object [self]. *)
Definition _calculate_parameters (self : WaterSection) (wb : water_boundary)
  : outcome WaterSection :=
  x1 <- Py.get (water_boundary_x wb) 0%Z ;;
  x2 <- Py.get (water_boundary_x wb) 1%Z ;;
  y1 <- Py.get (water_boundary_y wb) 0%Z ;;
  y2 <- Py.get (water_boundary_y wb) 1%Z ;;
  p0 <- Py.get (water_boundary_points wb) 0%Z ;;
  p1 <- Py.get (water_boundary_points wb) 1%Z ;;
  let wsx := Py.slice x (p0 + 1)%Z (p1 + 1)%Z in
  let wsy := Py.slice y (p0 + 1)%Z (p1 + 1)%Z in
  let wsx := Py.insert wsx 0%Z x1 in
  let wsx := Py.insert wsx (Py.len wsx) x2 in
  let wsy := Py.insert wsy 0%Z y1 in
  let wsy := Py.insert wsy (Py.len wsy) y2 in
  bank <- (if OVERFLOW then Py.get y p0 else Py.get y 0%Z) ;;
  w1 <- (if Qlt_le_dec bank water_level
         then x0 <- Py.get x 0%Z ;; y0 <- Py.get y 0%Z ;;
              Ok (Py.insert wsx 1%Z x0, Py.insert wsy 1%Z y0)
         else Ok (wsx, wsy)) ;;
  last <- py_and (Ok (1 <? water_boundary_tag wb)%Z)
                 (yl <- Py.get y (-1)%Z ;; Ok (negb (Qle_bool water_level yl))) ;;
  w2 <- (if last
         then xl <- Py.get x (-1)%Z ;; yl <- Py.get y (-1)%Z ;;
              Ok (Py.insert (fst w1) (Py.len (fst w1) - 1)%Z xl,
                  Py.insert (snd w1) (Py.len (snd w1) - 1)%Z yl)
         else Ok w1) ;;
  let '(wsx, wsy) := w2 in
  let width_ := x2 - x1 in
  let area_ := poly_area wsx wsy in
  let depth := map (fun yi => water_level - yi) wsy in
  let avg := if Qlt_le_dec 0 area_ then
               if Qlt_le_dec 0 width_ then area_ / width_ else 0
             else 0 in
  let avg := if Qeq_bool avg 0 then epsilon else avg in
  md <- Py.max depth ;;
  let wp := sqrt (Q2R (sum_sqr wsx)) in
  let rh := (if Qlt_le_dec 0 area_ then
               if Rlt_dec 0 wp then Q2R area_ / wp else 0
             else 0)%R in
  let rh := if Req_dec_T rh 0%R then Q2R epsilon else rh in
  Ok (mk_WaterSection wsx wsy width_ area_ avg md (wet_perimeter self) rh wp).

(** The loop of [__post_init__] over several boundary groups. *)
Fixpoint calculate_each (self : WaterSection) (groups : list water_boundary)
  : outcome WaterSection :=
  match groups with
  | [] => Ok self
  | wb :: rest =>
      self' <- except_IndexError_exit2 (_calculate_parameters self wb) ;;
      calculate_each self' rest
  end.

(** [WaterSection(x, y, water_level, start_point=...)]: the dataclass
    defaults, then [__post_init__].  With several groups the fields hold
    floats, not lists, and [sum(self.width)] raises [TypeError]. *)
Definition WaterSection_init (start_point : option (Z * Q)) : outcome WaterSection :=
  let self := WaterSection_defaults in
  bs <- boundary start_point ;;
  if (1 <? Py.len bs)%Z then
    _ <- calculate_each self bs ;;
    Raise TypeError
  else
    except_IndexError_exit2 (wb <- Py.get bs 0%Z ;; _calculate_parameters self wb).

End WaterSectionOf.

(** ** numpy on the real line *)

(** A numpy operation warns and yields [inf] or [nan] where Python's own
    arithmetic would raise, and Python's power of a negative float is a
    complex number; such a value is not a real number, and the model records
    it as [None]. *)
Definition np (A : Type) : Type := option A.

Definition np_sqrt (r : R) : np R :=
  if Rlt_dec r 0 then None else Some (sqrt r).

Definition np_log10 (r : R) : np R :=
  if Rlt_dec 0 r then Some (ln r / ln 10)%R else None.

(** [b ** e] with a numpy operand.  On a negative base the value is [nan]
    unless [e] is a whole number; the only exponent this program applies to a
    base that can be negative is [0.17]. *)
Definition np_pow (b e : R) : np R :=
  if Rlt_dec 0 b then Some (Rpower b e)
  else if Rlt_dec b 0 then None
  else if Rlt_dec 0 e then Some 0%R
  else if Rlt_dec e 0 then None
  else Some 1%R.

(** [a / b] on numpy values. *)
Definition np_div (a b : R) : np R :=
  if Req_dec_T b 0 then None else Some (a / b)%R.

(** ** [Calculation] *)

Inductive shezi_formula : Set := Pavlovskij | PavlovskijZheleznjakov | Undefined.

Record Calculation : Type := mk_Calculation {
  shezi : R;
  v : R;
  q : R;
  type__ : shezi_formula
}.

(** The field [_g]. *)
Definition _g : R := 9.80665%R.

Section CalculationOf.

(** [config.CALC_TYPE]. *)
Variable CALC_TYPE : Z.

Variables (n i h a : R).

Local Open Scope R_scope.

Definition __shezi_pavlovskij : np R :=
  match np_sqrt n, np_sqrt h with
  | Some sn, Some sh =>
      let y := 2.5 * sn - 0.13 - 0.75 * sh * (sn - 0.10) in
      match np_pow h y with
      | Some p => Some ((1 / n) * p)
      | None => None
      end
  | _, _ => None
  end.

Definition __shezi_pavlovskij_zheleznjakov : np R :=
  match np_log10 h, np_sqrt _g with
  | Some lg, Some sg =>
      match np_div 1 lg,
            np_sqrt (1 / 4 * (1 / n - sg / 0.13 * (1 - lg)) ^ 2
                     + sg / 0.13 * (1 / n + sg * lg)) with
      | Some inv, Some root =>
          match np_log10 ((1 / 2 - (n * sg / 0.26) * (1 - lg)) + n * root) with
          | Some l2 =>
              let y := inv * l2 in
              match np_pow h y with
              | Some p => Some ((1 / n) * p)
              | None => None
              end
          | None => None
          end
      | _, _ => None
      end
  | _, _ => None
  end.

(** The velocity of the configured flow regime; [sys.exit(1)] on any other
    value of [config.CALC_TYPE]. *)
Definition velocity (C : R) : outcome (np R) :=
  if (CALC_TYPE =? 1)%Z then
    Ok (match np_sqrt (h * (i / 1000)) with
        | Some r => Some (C * r)
        | None => None
        end)
  else if (CALC_TYPE =? 2)%Z then
    Ok (match np_pow h 0.67, np_pow (i / 1000) 0.17 with
        | Some p1, Some p2 => Some (4.5 * p1 * p2)
        | _, _ => None
        end)
  else if (CALC_TYPE =? 3)%Z then
    Ok (match np_pow h 0.50, np_pow (i / 1000) 0.17 with
        | Some p1, Some p2 => Some (3.75 * p1 * p2)
        | _, _ => None
        end)
  else SysExit 1.

(** [Calculation(n, i, h, a)]: the dataclass defaults, then
    [__post_init__].  [1 / self.n] is Python's division and raises on a zero
    roughness in either formula. *)
Definition Calculation_init : outcome (np Calculation) :=
  let pavl := if Rle_dec 0 h then if Rle_dec h 3 then true else false else false in
  if Req_dec_T n 0 then Raise ZeroDivisionError
  else
    let C := if pavl then __shezi_pavlovskij else __shezi_pavlovskij_zheleznjakov in
    let ty := if pavl then Pavlovskij else PavlovskijZheleznjakov in
    match C with
    | None =>
        (* a [nan] coefficient: the regime is still checked *)
        _ <- velocity 0 ;; Ok None
    | Some C =>
        vel <- velocity C ;;
        Ok (match vel with
            | Some v_ => Some (mk_Calculation C v_ (a * v_) ty)
            | None => None
            end)
    end.

End CalculationOf.

(** ** [Morfostvor]: the level sweep *)

Module ProfileSector.
Record t : Type := mk {
  id : Z;
  name : string;
  roughness : Q;
  slope : Q;
  coord : list Q * list Q
}.
End ProfileSector.

(** The level step as read from the sheet: text or a number. *)
Inductive dH_value : Type :=
| dH_str (s : string)
| dH_float (d : Q).

Module Morfostvor.
Record t : Type := mk {
  y : list Q;
  sectors : list ProfileSector.t;
  ele_min : Q;
  dH : dH_value;
  probability : list (string * Q)
}.
End Morfostvor.

(** A row of the frame under construction; the columns are
    [Участок, УВ, F, B, Hср, Hмакс, V, Q, Shezi]. *)
Record row : Type := mk_row {
  Uchastok : string;
  UV : Q;
  col_F : R;
  col_B : R;
  col_Hsr : R;
  col_Hmaks : R;
  col_V : R;
  col_Q : R;
  col_Shezi : R
}.

(** The name of the aggregate row. *)
Definition Summa : string := "Сумма".

Definition zero_row (level : Q) : row :=
  mk_row Summa level 0 0 0 0 0 0 0.

(** [round(v, 2)]: to the nearest hundredth, a tie to the even one. *)
Definition round2 (v : Q) : Q :=
  let s := v * 100 in
  let f := Qfloor s in
  let r := s - inject_Z f in
  let k := if Qlt_le_dec (1 # 2) r then (f + 1)%Z
           else if Qeq_bool r (1 # 2) then (if Z.even f then f else (f + 1)%Z)
           else f in
  inject_Z k / 100.

(** The first lines of [calculate]: the step in metres. *)
Definition level_step (dH : dH_value) : Q :=
  let dH_cm := match dH with
               | dH_str _ => 1
               | dH_float d => if Qeq_bool d 0 then 1 else d
               end in
  dH_cm / 100.

(** [get_min_sector]: the position and the sector of the lowest bottom point,
    the first one among equals. *)
Fixpoint get_min_sector_from (l : list ProfileSector.t) (k : Z)
         (best : Z * ProfileSector.t) : outcome (Z * ProfileSector.t) :=
  match l with
  | [] => Ok best
  | s :: rest =>
      m <- Py.min (snd (ProfileSector.coord s)) ;;
      mb <- Py.min (snd (ProfileSector.coord (snd best))) ;;
      get_min_sector_from rest (k + 1)%Z
        (if Qlt_le_dec m mb then (k, s) else best)
  end.

Definition get_min_sector (self : Morfostvor.t) : outcome (Z * ProfileSector.t) :=
  s0 <- Py.get (Morfostvor.sectors self) 0%Z ;;
  get_min_sector_from (Morfostvor.sectors self) 0%Z (0%Z, s0).

(** [get_q_max], its discharge component. *)
Definition get_q_max (self : Morfostvor.t) : outcome Q :=
  p0 <- Py.get (Morfostvor.probability self) 0%Z ;;
  Ok (fold_left (fun q_max p => if Qle_bool q_max (snd p) then snd p else q_max)
                (Morfostvor.probability self) (snd p0)).

Definition sum_R (l : list R) : R := fold_right Rplus 0%R l.

Section Calculate.

Variables (OVERFLOW : bool) (CALC_TYPE : Z).

(** [chunk_list] of [hydraulic.lib], which is not among the sources: taken
    as given. *)
Variable chunk_list : list Q -> Z -> list (list Q).

Variable self : Morfostvor.t.

(** The water section, the calculation and the frame row of one sector at
    one level; the discharge is returned beside the row for [wc_list]. *)
Definition sector_row (sector : ProfileSector.t) (water_level : Q)
           (start_point : option (Z * Q)) : outcome (row * R) :=
  let '(x, y) := ProfileSector.coord sector in
  water <- WaterSection_init OVERFLOW x y water_level start_point ;;
  c <- Calculation_init CALC_TYPE
         (Q2R (ProfileSector.roughness sector)) (Q2R (ProfileSector.slope sector))
         (Q2R (average_depth water)) (Q2R (area water)) ;;
  match c with
  | None => NotReal
  | Some calc =>
      Ok (mk_row (ProfileSector.name sector) (round2 water_level)
                 (Q2R (area water)) (Q2R (width water))
                 (Q2R (average_depth water)) (Q2R (max_depth water))
                 (v calc) (q calc) (shezi calc),
          q calc)
  end.

Definition mem (k : Z) (l : list Z) : bool := existsb (Z.eqb k) l.

(** The body of [for i in calc_sectors] in overflow mode, on the list as it
    stands when the iterator reaches [i]: the list with the neighbours
    appended, the row and the discharge. *)
Definition overflow_body (min_sector : Z * ProfileSector.t) (water_level : Q)
           (calc_sectors : list Z) (i : Z) : outcome (list Z * row * R) :=
  sector <- Py.get (Morfostvor.sectors self) i ;;
  let '(x, y) := ProfileSector.coord sector in
  left_half <- Py.get (chunk_list y 2%Z) 0%Z ;;
  previous_min_ele <- Py.max left_half ;;
  right_half <- Py.get (chunk_list y 2%Z) 1%Z ;;
  next_min_ele <- Py.max right_half ;;
  let calc_sectors :=
    if Qle_bool previous_min_ele water_level
       && negb (mem (i - 1)%Z calc_sectors) && (0 <=? i - 1)%Z
    then calc_sectors ++ [(i - 1)%Z] else calc_sectors in
  let calc_sectors :=
    if Qle_bool next_min_ele water_level
       && negb (mem (i + 1)%Z calc_sectors)
       && (i + 1 <=? Py.len (Morfostvor.sectors self) - 1)%Z
    then calc_sectors ++ [(i + 1)%Z] else calc_sectors in
  start_point <-
    (if (ProfileSector.id sector =? ProfileSector.id (snd min_sector))%Z
     then Ok None
     else if (ProfileSector.id sector <? ProfileSector.id (snd min_sector))%Z
     then yl <- Py.get y (-1)%Z ;; Ok (Some ((Py.len y - 1)%Z, yl))
     else y0 <- Py.get y 0%Z ;; Ok (Some (0%Z, y0))) ;;
  rq <- sector_row sector water_level start_point ;;
  Ok (calc_sectors, fst rq, snd rq).

(** [for i in calc_sectors] with the list growing under the iterator: the
    iterator is a position [k], and ends when [k] passes the end of the
    list of that moment.  [None] when [fuel] runs out. *)
Fixpoint overflow_for (fuel : nat) (min_sector : Z * ProfileSector.t)
         (water_level : Q) (calc_sectors : list Z) (k : nat)
         (rows : list row) (wc_list : list R)
  : option (outcome (list Z * list row * list R)) :=
  match nth_error calc_sectors k with
  | None => Some (Ok (calc_sectors, rows, wc_list))
  | Some i =>
      match fuel with
      | O => None
      | S fuel' =>
          match overflow_body min_sector water_level calc_sectors i with
          | Ok (cs, r, q_) =>
              overflow_for fuel' min_sector water_level cs (S k)
                           (rows ++ [r]) (wc_list ++ [q_])
          | SysExit c => Some (SysExit c)
          | Raise e => Some (Raise e)
          | NotReal => Some NotReal
          end
      end
  end.

(** [for sector in self.sectors] when every sector fills on its own. *)
Fixpoint per_sector_for (l : list ProfileSector.t) (water_level : Q)
         (rows : list row) (wc_list : list R) : outcome (list row * list R) :=
  match l with
  | [] => Ok (rows, wc_list)
  | sector :: rest =>
      m <- Py.min (snd (ProfileSector.coord sector)) ;;
      if Qlt_le_dec m water_level then
        rq <- sector_row sector water_level None ;;
        per_sector_for rest water_level (rows ++ [fst rq]) (wc_list ++ [snd rq])
      else per_sector_for rest water_level rows wc_list
  end.

(** One turn of the [while] loop: the rows of the level, the aggregate row
    of zeros after them, and the discharge reached. *)
Definition level_pass (min_sector : Z * ProfileSector.t) (water_level : Q)
           (calc_sectors : list Z) : option (outcome (list Z * list row * R)) :=
  let close (cs : list Z) (rows : list row) (wc_list : list R) :=
    (cs, rows ++ [zero_row (round2 water_level)], (0 + sum_R wc_list)%R) in
  if OVERFLOW then
    match overflow_for (S (List.length (Morfostvor.sectors self)))
                       min_sector water_level calc_sectors 0 [] [] with
    | None => None
    | Some (Ok (cs, rows, wc)) => Some (Ok (close cs rows wc))
    | Some (SysExit c) => Some (SysExit c)
    | Some (Raise e) => Some (Raise e)
    | Some NotReal => Some NotReal
    end
  else
    match per_sector_for (Morfostvor.sectors self) water_level [] [] with
    | Ok (rows, wc) => Some (Ok (close calc_sectors rows wc))
    | SysExit c => Some (SysExit c)
    | Raise e => Some (Raise e)
    | NotReal => Some NotReal
    end.

(** [while consumption_summ < consumption_check]; [None] when [fuel] turns
    have not brought the discharge to the ceiling.  [water_level += dH] is
    the exact sum here, as all the arithmetic of the levels is: a float
    accumulates the step with its rounding error, so the hundredth that
    [round] gives a level of the program can differ from the one of the
    exact level. *)
Fixpoint sweep (fuel : nat) (consumption_check : R) (dH : Q)
         (min_sector : Z * ProfileSector.t)
         (water_level : Q) (calc_sectors : list Z) (df : list row)
         (consumption_summ : R) : option (outcome (list row)) :=
  if Rlt_dec consumption_summ consumption_check then
    match fuel with
    | O => None
    | S fuel' =>
        match level_pass min_sector water_level calc_sectors with
        | None => None
        | Some (Ok (cs, rows, total)) =>
            sweep fuel' consumption_check dH min_sector
                  (water_level + dH) cs (df ++ rows) total
        | Some (SysExit c) => Some (SysExit c)
        | Some (Raise e) => Some (Raise e)
        | Some NotReal => Some NotReal
        end
    end
  else Some (Ok df).

(** [calculate] up to the end of the loop: the frame before the aggregate
    rows are filled. *)
Definition calculate_rows (fuel : nat) : option (outcome (list row)) :=
  match (q_max <- get_q_max self ;;
         q_max' <- get_q_max self ;;
         let consumption_check := q_max + q_max' * (20 # 100) in
         let dH := level_step (Morfostvor.dH self) in
         min_sector <- get_min_sector self ;;
         m <- Py.min (Morfostvor.y self) ;;
         Ok (consumption_check, dH, min_sector, m + dH)) with
  | Ok (consumption_check, dH, min_sector, water_level) =>
      sweep fuel (Q2R consumption_check) dH min_sector water_level
            [fst min_sector] [zero_row (Morfostvor.ele_min self)] 0%R
  | SysExit c => Some (SysExit c)
  | Raise e => Some (Raise e)
  | NotReal => Some NotReal
  end.

End Calculate.

(** ** The aggregate rows *)

(** A float of the finished frame: a real number, an infinity or [nan]. *)
Inductive cell : Type :=
| Num (r : R)
| PosInf
| NegInf
| NaN.

(** Division of two float columns in pandas: no exception on a zero
    divisor. *)
Definition pd_div (a b : R) : cell :=
  if Req_dec_T b 0 then
    (if Req_dec_T a 0 then NaN else if Rlt_dec 0 a then PosInf else NegInf)
  else Num (a / b).

(** [fillna(0)]. *)
Definition fillna0 (c : cell) : cell :=
  match c with
  | NaN => Num 0
  | _ => c
  end.

(** A row of [hydraulic_table], indexed by [(УВ, Участок)]. *)
Record hydraulic_row : Type := mk_hydraulic_row {
  h_Uchastok : string;
  h_UV : Q;
  h_F : R;
  h_B : R;
  h_Hsr : cell;
  h_Hmaks : R;
  h_V : cell;
  h_Q : R;
  h_Shezi : cell
}.

Definition is_Summa (r : row) : bool := String.eqb (Uchastok r) Summa.

(** [df.groupby(level=0)]: the rows of one level. *)
Definition group (df : list row) (level : Q) : list row :=
  filter (fun r => Qeq_bool (UV r) level) df.

(** [df.groupby(level=0)[col].transform("sum")], ["max"] and ["count"], read
    at the rows of one level. *)
Definition transform_sum (col : row -> R) (df : list row) (level : Q) : R :=
  sum_R (map col (group df level)).

Definition transform_max (col : row -> R) (df : list row) (level : Q) : R :=
  match map col (group df level) with
  | [] => 0%R
  | a :: t => fold_left Rmax t a
  end.

Definition transform_count (df : list row) (level : Q) : R :=
  INR (List.length (group df level)).

(** [df.loc[(water_levels, "Сумма"), col] = values]: the aggregate rows take
    the value of their level, the other rows stay. *)
Definition assign (set : row -> R -> row) (values : Q -> R) (df : list row) : list row :=
  map (fun r => if is_Summa r then set r (values (UV r)) else r) df.

Definition set_F (r : row) (a : R) : row :=
  mk_row (Uchastok r) (UV r) a (col_B r) (col_Hsr r) (col_Hmaks r)
         (col_V r) (col_Q r) (col_Shezi r).
Definition set_B (r : row) (a : R) : row :=
  mk_row (Uchastok r) (UV r) (col_F r) a (col_Hsr r) (col_Hmaks r)
         (col_V r) (col_Q r) (col_Shezi r).
Definition set_Hmaks (r : row) (a : R) : row :=
  mk_row (Uchastok r) (UV r) (col_F r) (col_B r) (col_Hsr r) a
         (col_V r) (col_Q r) (col_Shezi r).
Definition set_Q (r : row) (a : R) : row :=
  mk_row (Uchastok r) (UV r) (col_F r) (col_B r) (col_Hsr r) (col_Hmaks r)
         (col_V r) a (col_Shezi r).

(** The frame after each of the assignments to the columns [F], [B], [Hмакс]
    and [Q] of the aggregate rows, in the order of the source: each one reads
    the frame the earlier ones have left. *)
Definition frame_F (df : list row) : list row :=
  assign set_F (transform_sum col_F df) df.
Definition frame_B (df : list row) : list row :=
  assign set_B (transform_sum col_B (frame_F df)) (frame_F df).
Definition frame_Hmaks (df : list row) : list row :=
  assign set_Hmaks (transform_max col_Hmaks (frame_B df)) (frame_B df).
Definition frame_Q (df : list row) : list row :=
  assign set_Q (transform_sum col_Q (frame_Hmaks df)) (frame_Hmaks df).

(** The values assigned to the three quotient columns, before [fillna(0)]:
    [Hср] is computed after [F] and [B] are assigned, [V] and [Shezi] after
    [Q] is. *)
Definition value_Hsr (df : list row) (level : Q) : cell :=
  pd_div (transform_sum col_F (frame_B df) level)
         (transform_sum col_B (frame_B df) level).
Definition value_V (df : list row) (level : Q) : cell :=
  pd_div (transform_sum col_Q (frame_Q df) level)
         (transform_sum col_F (frame_Q df) level).
Definition value_Shezi (df : list row) (level : Q) : cell :=
  pd_div (transform_sum col_Shezi (frame_Q df) level)
         (transform_count (frame_Q df) level - 1).

(** The seven assignments that fill the aggregate rows, and [fillna(0)].  The
    three quotient columns are written but not read again, so they are set
    at the end.  The model is of frames whose index labels [(УВ, Участок)] do
    not repeat: on a repeated label the assignment through [df.loc] raises
    in pandas, where this function still returns a table. *)
Definition fill_Summa (df : list row) : list hydraulic_row :=
  map (fun r =>
         if is_Summa r then
           mk_hydraulic_row (Uchastok r) (UV r) (col_F r) (col_B r)
                            (fillna0 (value_Hsr df (UV r))) (col_Hmaks r)
                            (fillna0 (value_V df (UV r))) (col_Q r)
                            (fillna0 (value_Shezi df (UV r)))
         else
           mk_hydraulic_row (Uchastok r) (UV r) (col_F r) (col_B r)
                            (Num (col_Hsr r)) (col_Hmaks r)
                            (Num (col_V r)) (col_Q r) (Num (col_Shezi r)))
      (frame_Q df).

(** [self.hydraulic_table] as [calculate] leaves it. *)
Definition hydraulic_table (OVERFLOW : bool) (CALC_TYPE : Z)
           (chunk_list : list Q -> Z -> list (list Q)) (self : Morfostvor.t)
           (fuel : nat) : option (outcome (list hydraulic_row)) :=
  match calculate_rows OVERFLOW CALC_TYPE chunk_list self fuel with
  | None => None
  | Some (Ok df) => Some (Ok (fill_Summa df))
  | Some (SysExit c) => Some (SysExit c)
  | Some (Raise e) => Some (Raise e)
  | Some NotReal => Some NotReal
  end.

(** Modelled from the spec: [chunk_list] of [hydraulic.lib], which is not
    among the sources; section 4.4 reads its two chunks as "either half of the
    sector's own profile": the first [len // 2] elements and the rest. *)
Definition chunk_halves (l : list Q) (num : Z) : list (list Q) :=
  let k := Nat.div (List.length l) 2 in
  [firstn k l; skipn k l].

(** ** The readings of the specification that the properties compare with *)

(** "The sum of the successive horizontal differences Δx over the wetted
    sub-polyline". *)
Fixpoint sum_dx (xs : list Q) : Q :=
  match xs with
  | a :: (b :: _) as t => (b - a) + sum_dx t
  | _ => 0
  end.

(** The trapezoidal channel of section 8. *)
Definition trapezoid_x : list Q := [0; 5; 10; 15].
Definition trapezoid_y : list Q := [10; 8; 8; 10].

(** A channel with an island: two pools under the level 9. *)
Definition island_x : list Q := [0; 1; 2; 3; 4].
Definition island_y : list Q := [10; 8; 19 # 2; 41 # 5; 10].

(** A profile of two sectors that share the vertex (10, 9): a channel with
    upright banks and the lowest bottom, and a floodplain to its right; the
    ridge between them is the channel's right bank at 9. *)
Definition ruslo : ProfileSector.t :=
  ProfileSector.mk 1 "ruslo" (5 # 100) 250 ([0; 0; 10; 10], [10; 8; 8; 9]).
Definition pojma : ProfileSector.t :=
  ProfileSector.mk 2 "pojma" (8 # 100) 250 ([10; 15; 20; 25], [9; 17 # 2; 17 # 2; 11]).
Definition two_sectors : Morfostvor.t :=
  Morfostvor.mk [10; 8; 8; 9; 17 # 2; 17 # 2; 11] [ruslo; pojma] 8
                (dH_float 100) [("1"%string, 50)].

(** The right boundary found at the level [m] of the lowest vertex, of
    position [s] and abscissa [xs]: the vertex itself, or the next vertex
    when that one lies at the same elevation. *)
Definition right_end (x y : list Q) (m : Q) (s : nat) (xs : Q) : Q :=
  match nth_error y (S s), nth_error x (S s) with
  | Some y1, Some x1 => if Qle_bool y1 m then x1 else xs
  | _, _ => xs
  end.

(** One turn of the loop in overflow mode.  [row_of self level i r]: the row
    [r] is the row of the sector of position [i] at the level of the turn. *)
Definition row_of (self : Morfostvor.t) (water_level : Q) (i : Z) (r : row) : Prop :=
  exists sector,
    Py.get (Morfostvor.sectors self) i = Ok sector
    /\ Uchastok r = ProfileSector.name sector
    /\ UV r = round2 water_level.

(** [spilled chunk_list self level cs i]: in the list [cs] the sector of
    position [i] has its neighbours within bounds wherever the level has
    reached the ridge towards them, the highest point of the half of the
    sector's profile on that side. *)
Definition spilled (chunk_list : list Q -> Z -> list (list Q)) (self : Morfostvor.t)
           (water_level : Q) (cs : list Z) (i : Z) : Prop :=
  forall sector, Py.get (Morfostvor.sectors self) i = Ok sector ->
    (forall half ridge,
        Py.get (chunk_list (snd (ProfileSector.coord sector)) 2%Z) 0%Z = Ok half ->
        Py.max half = Ok ridge -> ridge <= water_level ->
        (0 <= i - 1)%Z -> In (i - 1)%Z cs)
    /\ (forall half ridge,
        Py.get (chunk_list (snd (ProfileSector.coord sector)) 2%Z) 1%Z = Ok half ->
        Py.max half = Ok ridge -> ridge <= water_level ->
        (i + 1 <= Py.len (Morfostvor.sectors self) - 1)%Z -> In (i + 1)%Z cs).

(** A row of the frame before the aggregate rows are filled: the row of a
    sector of the profile, or an aggregate row of zeros. *)
Definition built_row (self : Morfostvor.t) (r : row) : Prop :=
  (exists sector, In sector (Morfostvor.sectors self)
                  /\ Uchastok r = ProfileSector.name sector)
  \/ (exists level, r = zero_row level).

(** The sector rows of a level, and the number of its aggregate rows. *)
Definition sector_rows (df : list row) (level : Q) : list row :=
  filter (fun r => negb (is_Summa r)) (group df level).

Definition Summa_count (df : list row) (level : Q) : nat :=
  List.length (filter is_Summa (group df level)).

(** At a level, every aggregate row of the frame [D] holds [f], [b] and [q_]
    in the columns [F], [B] and [Q], and 0 in [Shezi]. *)
Definition Summa_cols (D : list row) (level : Q) (f b q_ : R) : Prop :=
  forall r, In r (group D level) -> is_Summa r = true ->
    col_F r = f /\ col_B r = b /\ col_Q r = q_ /\ col_Shezi r = 0%R.

(** ** Predicates and inputs of the further properties *)

(** What the leftward search of [boundary] records at the bottom vertex [p]:
    the first vertex of the polyline, or the point where the segment from
    [p] to [p + 1] comes down to the level. *)
Definition left_found (x y : list Q) (water_level : Q) (p : nat) (bx : Q) : Prop :=
  (p = 0%nat /\ nth_error x 0 = Some bx)
  \/ exists y1 y2 x1 x2,
       nth_error y p = Some y1 /\ nth_error y (S p) = Some y2
       /\ nth_error x p = Some x1 /\ nth_error x (S p) = Some x2
       /\ water_level <= y1 /\ y2 <= water_level
       /\ interp1d y1 y2 x1 x2 water_level = Ok bx.

(** What the rightward search and the test that follows it record: the last
    vertex of the polyline, or the point where the segment from [p] to
    [p + 1] climbs to the level. *)
Definition right_found (x y : list Q) (water_level : Q) (p : nat) (bx : Q) : Prop :=
  (S p = List.length y /\ nth_error x p = Some bx)
  \/ exists y1 y2 x1 x2,
       nth_error y p = Some y1 /\ nth_error y (S p) = Some y2
       /\ nth_error x p = Some x1 /\ nth_error x (S p) = Some x2
       /\ y1 <= water_level /\ water_level <= y2
       /\ interp1d y1 y2 x1 x2 water_level = Ok bx.

(** A list of three probabilities, the largest discharge in the middle. *)
Definition three_probabilities : Morfostvor.t :=
  Morfostvor.mk [] [] 0 (dH_float 1)
                [("10"%string, 30); ("1"%string, 50); ("5"%string, 40)].

(** [min(y) < water_level]: the sectors that a level has reached when every
    sector fills on its own. *)
Definition reached (water_level : Q) (sector : ProfileSector.t) : bool :=
  match Py.min (snd (ProfileSector.coord sector)) with
  | Ok m => if Qlt_le_dec m water_level then true else false
  | _ => false
  end.

(** A channel of one sector that has no slope. *)
Definition level_channel : Morfostvor.t :=
  Morfostvor.mk [10; 8; 8; 9]
                [ProfileSector.mk 1 "ruslo" (5 # 100) 0 ([0; 0; 10; 10], [10; 8; 8; 9])]
                8 (dH_float 100) [("1"%string, 50)].

(** A sector whose first vertex lies low behind a ridge, left of the
    channel. *)
Definition ridge_x : list Q := [0; 1; 2; 3; 4].
Definition ridge_y : list Q := [17 # 2; 10; 8; 8; 10].

(** * Properties *)

(** ** Outcomes and Python lists *)

Lemma bind_Ok {A B} (m : outcome A) (k : A -> outcome B) (b : B) :
  bind m k = Ok b -> exists a, m = Ok a /\ k a = Ok b.
Proof.
  destruct m as [a | c | e |]; cbn; intros H; try discriminate.
  exists a; split; [reflexivity | exact H].
Qed.

Lemma except_IndexError_Ok {A} (m : outcome A) (a : A) :
  except_IndexError_exit2 m = Ok a -> m = Ok a.
Proof.
  destruct m as [a' | c | e |]; cbn; intros H; try discriminate; try exact H.
  destruct e; discriminate.
Qed.

(** Peels the binds, conditionals and matches of a hypothesis [... = Ok _]. *)
Ltac peel H :=
  repeat match type of H with
    | bind ?m _ = Ok _ =>
        let a := fresh "a" in
        let E := fresh "E" in
        destruct m as [a | | |] eqn:E; cbn [bind] in H; [ | discriminate H ..]
    | (if ?c then _ else _) = Ok _ => destruct c eqn:?
    | (let '(_, _) := ?p in _) = Ok _ => destruct p eqn:?
    | Ok _ = Ok _ => injection H as H
    | SysExit _ = Ok _ => discriminate H
    | Raise _ = Ok _ => discriminate H
    | NotReal = Ok _ => discriminate H
    end.

Lemma min_In (l : list Q) (m : Q) : Py.min l = Ok m -> In m l.
Proof.
  destruct l as [| a t]; cbn; intros H; [discriminate |].
  injection H as <-. revert a.
  induction t as [| b t IH]; intros a; cbn; [now left |].
  destruct (Qlt_le_dec b a);
    [ destruct (IH b) as [<- | Hin] | destruct (IH a) as [<- | Hin] ]; auto.
Qed.

Lemma min_le (l : list Q) (m : Q) : Py.min l = Ok m -> forall v, In v l -> m <= v.
Proof.
  destruct l as [| a t]; cbn; intros H; [discriminate |].
  injection H as <-.
  assert (G : forall t a, fold_left (fun m v => if Qlt_le_dec v m then v else m) t a <= a
                          /\ forall v, In v t ->
                               fold_left (fun m v => if Qlt_le_dec v m then v else m) t a <= v).
  { clear. induction t as [| b t IH]; intros a; cbn.
    - split; [Lqa.lra | tauto].
    - destruct (Qlt_le_dec b a) as [Hlt | Hle].
      + destruct (IH b) as [H1 H2]. split; [Lqa.lra |].
        intros v [<- | Hv]; [exact H1 | auto].
      + destruct (IH a) as [H1 H2]. split; [exact H1 |].
        intros v [<- | Hv]; [Lqa.lra | auto]. }
  intros v [<- | Hv]; [apply (proj1 (G t a)) | apply (proj2 (G t a)); assumption].
Qed.

Lemma index_from_In (l : list Q) (v : Q) (k : Z) :
  In v l -> exists j, Py.index_from l v k = Ok j.
Proof.
  revert k. induction l as [| a t IH]; intros k Hin; [destruct Hin |].
  cbn. destruct (Qeq_bool a v) eqn:E; [eauto |].
  destruct Hin as [-> | Hin]; [| auto].
  rewrite (proj2 (Qeq_bool_iff v v)) in E by reflexivity. discriminate.
Qed.

(** ** [WaterSection]: what a construction leaves behind *)

Section WaterSectionFacts.

Variables (OVERFLOW : bool) (x y : list Q) (water_level : Q).

(** [boundary] returns exactly one group whenever it returns. *)
Lemma boundary_single start_point bs :
  boundary x y water_level start_point = Ok bs -> exists b, bs = [b].
Proof.
  unfold boundary. intros H. peel H. subst bs. cbn. eauto.
Qed.

Lemma WaterSection_init_inv start_point w :
  WaterSection_init OVERFLOW x y water_level start_point = Ok w ->
  exists b, boundary x y water_level start_point = Ok [b]
            /\ _calculate_parameters OVERFLOW x y water_level
                 WaterSection_defaults b = Ok w.
Proof.
  unfold WaterSection_init. intros H.
  destruct (boundary x y water_level start_point) as [bs | | |] eqn:E;
    cbn [bind] in H; try discriminate.
  destruct (boundary_single _ E) as [b ->].
  exists b. split; [reflexivity |].
  cbn in H. apply except_IndexError_Ok in H. exact H.
Qed.

(** The fields that [_calculate_parameters] derives from the wetted
    polyline it stores. *)
Lemma _calculate_parameters_fields self b w :
  _calculate_parameters OVERFLOW x y water_level self b = Ok w ->
  wet_perimeter w = wet_perimeter self
  /\ w_perimeter w = sqrt (Q2R (sum_sqr (water_section_x w)))
  /\ area w = poly_area (water_section_x w) (water_section_y w)
  /\ r_hydraulic w =
       (let rh := if Qlt_le_dec 0 (area w) then
                    if Rlt_dec 0 (w_perimeter w)
                    then Q2R (area w) / w_perimeter w else 0
                  else 0 in
        if Req_dec_T rh 0 then Q2R epsilon else rh)%R.
Proof.
  unfold _calculate_parameters. intros H. peel H; subst w; cbn; auto.
Qed.

End WaterSectionFacts.

(** Evaluates a water section of rational data, leaving the operations on
    reals folded. *)
Ltac eval_section := lazy -[sqrt Q2R Rdiv Rlt_dec Req_dec_T]; reflexivity.

(** C10.  For every successfully constructed [WaterSection], the boundary
    search has returned exactly one boundary group, the declared field
    [wet_perimeter] still holds its default 0, and the perimeter computed is
    kept in the separate attribute [w_perimeter], from which [r_hydraulic] is
    derived. *)
Theorem one_group_and_wet_perimeter_untouched
        (OVERFLOW : bool) (x y : list Q) (water_level : Q)
        (start_point : option (Z * Q)) (w : WaterSection) :
  WaterSection_init OVERFLOW x y water_level start_point = Ok w ->
  (exists b, boundary x y water_level start_point = Ok [b])
  /\ wet_perimeter w = 0
  /\ w_perimeter w = sqrt (Q2R (sum_sqr (water_section_x w)))
  /\ r_hydraulic w =
       (let rh := if Qlt_le_dec 0 (area w) then
                    if Rlt_dec 0 (w_perimeter w)
                    then Q2R (area w) / w_perimeter w else 0
                  else 0 in
        if Req_dec_T rh 0 then Q2R epsilon else rh)%R.
Proof.
  intros H. destruct (WaterSection_init_inv _ _ _ _ _ H) as [b [Hb Hc]].
  destruct (_calculate_parameters_fields _ _ _ _ _ _ Hc) as [Hw [Hp [_ Hr]]].
  split; [eauto |]. split; [exact Hw |]. split; assumption.
Qed.

Lemma one_group_and_wet_perimeter_untouched_witness :
  exists w, WaterSection_init false trapezoid_x trapezoid_y 9 None = Ok w
            /\ wet_perimeter w = 0.
Proof.
  eexists. split; [eval_section |].
  eapply (one_group_and_wet_perimeter_untouched false trapezoid_x trapezoid_y 9 None).
  eval_section.
Defined.

(** C2, at the trapezoid.  At level 9 the wetted polyline has the abscissas
    2.5, 5, 10, 12.5: its horizontal differences sum to 10, the width of the
    water surface.  The perimeter that the code computes is the root of the
    sum of their squares, the root of 37.5: it is not the sum of the
    differences, it is shorter than the water surface is wide, and the
    hydraulic radius, the area 7.5 divided by it, exceeds the greatest depth
    1, whichever way [config.OVERFLOW] is set. *)
Theorem trapezoid_perimeter_shorter_than_width (OVERFLOW : bool) :
  exists w, WaterSection_init OVERFLOW trapezoid_x trapezoid_y 9 None = Ok w
            /\ water_section_x w = [5 # 2; 5; 10; 25 # 2]
            /\ sum_dx (water_section_x w) == 10
            /\ width w == 10
            /\ max_depth w == 1
            /\ area w == 15 # 2
            /\ w_perimeter w = sqrt (Q2R (sum_sqr (water_section_x w)))
            /\ w_perimeter w = sqrt (Q2R (75 # 2))
            /\ w_perimeter w <> Q2R (sum_dx (water_section_x w))
            /\ (w_perimeter w < Q2R (width w))%R
            /\ r_hydraulic w = (Q2R (area w) / w_perimeter w)%R
            /\ (Q2R (max_depth w) < r_hydraulic w)%R.
Proof.
  assert (Hroot : (6 < sqrt (Q2R (75 # 2)) < 7)%R).
  { assert (E : Q2R (75 # 2) = 37.5%R) by (unfold Q2R; cbn; lra).
    rewrite E. split.
    - replace 6%R with (sqrt (6 * 6)) by (apply sqrt_square; lra).
      apply sqrt_lt_1_alt. lra.
    - replace 7%R with (sqrt (7 * 7)) by (apply sqrt_square; lra).
      apply sqrt_lt_1_alt. lra. }
  assert (H : exists w,
             WaterSection_init OVERFLOW trapezoid_x trapezoid_y 9 None = Ok w
             /\ water_section_x w = [5 # 2; 5; 10; 25 # 2]
             /\ width w == 10 /\ max_depth w == 1 /\ area w == 15 # 2).
  { destruct OVERFLOW;
      (eexists; split; [eval_section |]; repeat split; vm_compute; reflexivity). }
  destruct H as [w [Hw [Hx [Hwd [Hmd Ha]]]]]. exists w.
  destruct (WaterSection_init_inv _ _ _ _ _ Hw) as [b [_ Hc]].
  destruct (_calculate_parameters_fields _ _ _ _ _ _ Hc) as [_ [Hp [_ Hr]]].
  assert (Hs : sum_dx (water_section_x w) == 10) by (rewrite Hx; reflexivity).
  assert (Hp' : w_perimeter w = sqrt (Q2R (75 # 2))).
  { rewrite Hp, Hx. f_equal. apply Qeq_eqR. reflexivity. }
  assert (Hr' : r_hydraulic w = (Q2R (area w) / w_perimeter w)%R).
  { rewrite Hr. cbv zeta.
    assert (Hpos : (0 < Q2R (area w))%R).
    { rewrite (Qeq_eqR _ _ Ha). unfold Q2R. cbn. lra. }
    destruct (Qlt_le_dec 0 (area w)) as [_ | Hle]; [| rewrite Ha in Hle; Lqa.lra].
    destruct (Rlt_dec 0 (w_perimeter w)) as [Hwp | Hn]; [| rewrite Hp' in Hn; lra].
    pose proof (Rdiv_lt_0_compat _ _ Hpos Hwp).
    destruct (Req_dec_T (Q2R (area w) / w_perimeter w) 0); [lra | reflexivity]. }
  assert (E10 : Q2R 10 = 10%R) by (unfold Q2R; cbn; lra).
  repeat (split; [assumption |]).
  split; [rewrite (Qeq_eqR _ _ Hs), Hp', E10; lra |].
  split; [rewrite (Qeq_eqR _ _ Hwd), Hp', E10; lra |].
  split; [exact Hr' |].
  rewrite Hr', (Qeq_eqR _ _ Hmd), (Qeq_eqR _ _ Ha), Hp'.
  replace (Q2R 1) with 1%R by (unfold Q2R; cbn; lra).
  replace (Q2R (15 # 2)) with 7.5%R by (unfold Q2R; cbn; lra).
  apply Rmult_lt_reg_r with (r := sqrt (Q2R (75 # 2))); [lra |].
  unfold Rdiv. rewrite Rmult_assoc, Rinv_l by lra. lra.
Qed.

(** C4, as the code has it.  On the trapezoid (0,10), (5,8), (10,8), (15,10)
    at level 9 the boundary search returns the abscissas 2.5 and 12.5 (inner
    vertices 0 and 2); the water section has the wetted polyline
    (2.5,9), (5,8), (10,8), (12.5,9), width 10, area 7.5 and average depth
    0.75, whichever way [config.OVERFLOW] is set. *)
Theorem trapezoid_section_at_9 (OVERFLOW : bool) :
  boundary trapezoid_x trapezoid_y 9 None
    = Ok [mk_water_boundary [5 # 2; 25 # 2] [9; 9] [0%Z; 2%Z] 0%Z]
  /\ exists w, WaterSection_init OVERFLOW trapezoid_x trapezoid_y 9 None = Ok w
               /\ water_section_x w = [5 # 2; 5; 10; 25 # 2]
               /\ water_section_y w = [9; 8; 8; 9]
               /\ width w == 10
               /\ area w == 15 # 2
               /\ average_depth w == 3 # 4.
Proof.
  split; [reflexivity |].
  destruct OVERFLOW;
    (eexists; split; [eval_section |];
     repeat split; vm_compute; reflexivity).
Qed.

(** C4 as stated fails in its last two figures: the shoelace area of
    (2.5,9), (5,8), (10,8), (12.5,9) is not 17.5 and the average depth is not
    1.75. *)
Lemma trapezoid_area_is_not_17_5 :
  exists w, WaterSection_init false trapezoid_x trapezoid_y 9 None = Ok w
            /\ area w == poly_area [5 # 2; 5; 10; 25 # 2] [9; 8; 8; 9]
            /\ ~ area w == 35 # 2
            /\ ~ average_depth w == 7 # 4.
Proof.
  eexists. split; [eval_section |].
  repeat split; vm_compute; congruence.
Qed.

(** C9, at a channel with an island.  At level 9 the profile
    (0,10), (1,8), (2,9.5), (3,8.2), (4,10) holds two pools; the boundary
    search returns the one group of the pool around the lowest vertex, and
    the water section is that pool alone: its polyline ends at 5/3, left of
    the island's crest at 2, and its width is 7/6. *)
Theorem island_second_pool_left_out :
  boundary island_x island_y 9 None
    = Ok [mk_water_boundary [1 # 2; 5 # 3] [9; 9] [0%Z; 1%Z] 0%Z]
  /\ exists w, WaterSection_init false island_x island_y 9 None = Ok w
               /\ map Qred (water_section_x w) = [1 # 2; 1; 5 # 3]
               /\ width w == 7 # 6
               /\ area w == 7 # 12.
Proof.
  split; [vm_compute; reflexivity |].
  eexists; split; [eval_section |].
  repeat split; vm_compute; reflexivity.
Qed.

(** C5.  For every polyline and every level strictly below the lowest bottom
    elevation, the construction of the water section ends in [sys.exit(1)],
    the invalid-level error, and returns no water section. *)
Theorem level_below_bottom_exits
        (OVERFLOW : bool) (x y : list Q) (water_level : Q)
        (start_point : option (Z * Q)) (m : Q) :
  Py.min y = Ok m ->
  water_level < m ->
  WaterSection_init OVERFLOW x y water_level start_point = SysExit 1
  /\ forall w, WaterSection_init OVERFLOW x y water_level start_point <> Ok w.
Proof.
  intros Hm Hlt.
  assert (E : WaterSection_init OVERFLOW x y water_level start_point = SysExit 1).
  { unfold WaterSection_init, boundary.
    assert (Hsp : exists p,
               match start_point with
               | Some p => Ok p
               | None => m0 <- Py.min y ;; k <- Py.index y m0 ;; Ok (k, m0)
               end = Ok p).
    { destruct start_point as [p |]; [eauto |].
      rewrite Hm. cbn [bind].
      destruct (index_from_In y m 0%Z (min_In _ Hm)) as [j Hj].
      unfold Py.index. rewrite Hj. cbn. eauto. }
    destruct Hsp as [p ->]. cbn [bind]. rewrite Hm. cbn [bind].
    destruct (Qlt_le_dec water_level m) as [_ | Hle]; [reflexivity | Lqa.lra]. }
  split; [exact E |]. intros w. rewrite E. discriminate.
Qed.

Lemma level_below_bottom_exits_witness :
  WaterSection_init false trapezoid_x trapezoid_y 7 None = SysExit 1.
Proof.
  apply (@level_below_bottom_exits false trapezoid_x trapezoid_y 7 None 8);
    reflexivity.
Defined.

(** C7, as the code has it.  A level step given as text or equal to zero is
    replaced by 1 cm, that is 0.01 m; every other number, a negative one
    included, is used as it is, divided by 100. *)
Theorem level_step_cases :
  (forall s, level_step (dH_str s) == 1 # 100)
  /\ (forall d, d == 0 -> level_step (dH_float d) == 1 # 100)
  /\ (forall d, ~ d == 0 -> level_step (dH_float d) == d / 100).
Proof.
  unfold level_step. repeat split.
  - intros d Hd. rewrite (proj2 (Qeq_bool_iff d 0) Hd). reflexivity.
  - intros d Hd. destruct (Qeq_bool d 0) eqn:E; [| reflexivity].
    apply Qeq_bool_iff in E. contradiction.
Qed.

(** C7 as stated fails on a negative step: -5 cm is not replaced by the
    default, the step is -0.05 m. *)
Lemma negative_step_is_kept :
  level_step (dH_float (-5)) == - (5 # 100) /\ ~ level_step (dH_float (-5)) == 1 # 100.
Proof.
  split; vm_compute; congruence.
Qed.

(** ** [Calculation] *)

(** In every flow regime a calculation that returns has [q = a * v]. *)
Lemma Calculation_q (CALC_TYPE : Z) (n i h a : R) (c : Calculation) :
  Calculation_init CALC_TYPE n i h a = Ok (Some c) -> q c = (a * v c)%R.
Proof.
  unfold Calculation_init. intros H.
  destruct (Req_dec_T n 0); [discriminate |].
  destruct (if if Rle_dec 0 h then if Rle_dec h 3 then true else false else false
            then __shezi_pavlovskij n h else __shezi_pavlovskij_zheleznjakov n h)
    as [C |].
  - peel H. destruct a0 as [v_ |]; [| discriminate]. injection H as <-. reflexivity.
  - peel H. discriminate.
Qed.

(** The regime "water" on a depth of the Pavlovskij band, where the power
    and the root are real. *)
Lemma Calculation_water (n i h a : R) :
  (0 < n)%R -> (0 <= h <= 3)%R -> (0 <= h * i)%R ->
  let y := (2.5 * sqrt n - 0.13 - 0.75 * sqrt h * (sqrt n - 0.10))%R in
  (0 < h \/ 0 <= y)%R ->
  exists c p,
    Calculation_init 1 n i h a = Ok (Some c)
    /\ np_pow h y = Some p
    /\ ((0 < h)%R -> p = Rpower h y)
    /\ shezi c = (1 / n * p)%R
    /\ v c = (shezi c * sqrt (h * (i / 1000)))%R
    /\ q c = (a * v c)%R
    /\ type__ c = Pavlovskij.
Proof.
  intros Hn [Hh0 Hh3] Hi y Hy.
  assert (Hp : exists p, np_pow h y = Some p /\ ((0 < h)%R -> p = Rpower h y)).
  { unfold np_pow. destruct (Rlt_dec 0 h) as [Hpos | Hnpos].
    - eexists; split; [reflexivity | reflexivity].
    - destruct (Rlt_dec h 0); [lra |].
      destruct (Rlt_dec 0 y); [eexists; split; [reflexivity | intros; lra] |].
      destruct (Rlt_dec y 0); [lra |].
      eexists; split; [reflexivity | intros; lra]. }
  destruct Hp as [p [Hp Hpow]].
  exists (mk_Calculation (1 / n * p) (1 / n * p * sqrt (h * (i / 1000)))
                         (a * (1 / n * p * sqrt (h * (i / 1000)))) Pavlovskij), p.
  split; [| repeat split; auto].
  unfold Calculation_init.
  destruct (Req_dec_T n 0); [lra |].
  destruct (Rle_dec 0 h); [| lra]. destruct (Rle_dec h 3); [| lra].
  unfold __shezi_pavlovskij, np_sqrt.
  destruct (Rlt_dec n 0); [lra |]. destruct (Rlt_dec h 0); [lra |].
  fold y. rewrite Hp. unfold velocity. cbn [Z.eqb Pos.eqb bind].
  unfold np_sqrt. destruct (Rlt_dec (h * (i / 1000)) 0); [lra | reflexivity].
Qed.




(** ** The level of the lowest vertex *)

Lemma get_nat {A} (l : list A) (n : nat) (a : A) :
  nth_error l n = Some a -> Py.get l (Z.of_nat n) = Ok a.
Proof.
  intros H. unfold Py.get.
  destruct (Z.of_nat n <? 0)%Z eqn:E; [apply Z.ltb_lt in E; lia |].
  rewrite E, Nat2Z.id, H. reflexivity.
Qed.

Lemma get_In {A} (l : list A) (i : Z) (a : A) : Py.get l i = Ok a -> In a l.
Proof.
  unfold Py.get. intros H.
  destruct ((if (i <? 0)%Z then (i + Py.len l)%Z else i) <? 0)%Z; [discriminate |].
  destruct (nth_error l _) as [a' |] eqn:E; [| discriminate].
  injection H as <-. eapply nth_error_In; eassumption.
Qed.

Lemma clamp_nat {A} (l : list A) (n : nat) :
  (n <= List.length l)%nat -> Py.clamp l (Z.of_nat n) = n.
Proof.
  intros H. unfold Py.clamp, Py.len.
  destruct (Z.of_nat n <? 0)%Z eqn:E; [apply Z.ltb_lt in E; lia | lia].
Qed.

Lemma slice_empty {A} (l : list A) (a : Z) : Py.slice l a a = [].
Proof. unfold Py.slice. rewrite Nat.sub_diag. reflexivity. Qed.

Lemma slice_one {A} (l : list A) (n : nat) (a : A) :
  nth_error l n = Some a -> Py.slice l (Z.of_nat n) (Z.of_nat (S n)) = [a].
Proof.
  intros H. unfold Py.slice.
  assert (Hlt : (n < List.length l)%nat) by (apply nth_error_Some; congruence).
  rewrite !clamp_nat by lia.
  replace (S n - n)%nat with 1%nat by lia.
  destruct (nth_error_split l n H) as [l1 [l2 [-> Hl]]].
  rewrite <- Hl, skipn_app, skipn_all, Nat.sub_diag. reflexivity.
Qed.

Lemma insert_0 {A} (l : list A) (a : A) : Py.insert l 0%Z a = a :: l.
Proof.
  unfold Py.insert. change 0%Z with (Z.of_nat 0).
  rewrite (@clamp_nat _ l 0%nat) by lia. reflexivity.
Qed.

Lemma insert_len {A} (l : list A) (a : A) : Py.insert l (Py.len l) a = l ++ [a].
Proof.
  unfold Py.insert, Py.len. rewrite clamp_nat by lia.
  rewrite firstn_all, skipn_all. reflexivity.
Qed.

Lemma range_down_head (s : Z) :
  (0 <= s)%Z -> exists rest, Py.range_down s = s :: rest.
Proof.
  intros H. unfold Py.range_down.
  replace (Z.to_nat (s + 1)) with (S (Z.to_nat s)) by lia.
  cbn [seq map]. rewrite Z.sub_0_r. eauto.
Qed.

Lemma range_head (s e : Z) :
  (s < e)%Z -> exists rest, Py.range s e = s :: rest.
Proof.
  intros H. unfold Py.range.
  replace (Z.to_nat (e - s)) with (S (Z.to_nat (e - s - 1))) by lia.
  cbn [seq map]. rewrite Z.add_0_r. eauto.
Qed.

Lemma range_nil (s : Z) : Py.range s s = [].
Proof. unfold Py.range. rewrite Z.sub_diag. reflexivity. Qed.

(** Where [y.index(min(y))] points: the first vertex at the lowest
    elevation. *)
Lemma index_min (y : list Q) (m : Q) :
  Py.min y = Ok m ->
  exists s ys,
    Py.index y m = Ok (Z.of_nat s)
    /\ nth_error y s = Some ys /\ ys == m
    /\ forall j v, (j < s)%nat -> nth_error y j = Some v -> m < v.
Proof.
  intros Hm. pose proof (min_le _ Hm) as Hle. pose proof (min_In _ Hm) as Hin.
  unfold Py.index.
  assert (G : forall l k,
             (forall v, In v l -> m <= v) -> In m l ->
             exists s ys,
               Py.index_from l m k = Ok (k + Z.of_nat s)%Z
               /\ nth_error l s = Some ys /\ ys == m
               /\ forall j v, (j < s)%nat -> nth_error l j = Some v -> m < v).
  { clear. induction l as [| a t IH]; intros k Hle Hin; [destruct Hin |].
    cbn [Py.index_from]. destruct (Qeq_bool a m) eqn:E.
    - exists 0%nat, a. rewrite Z.add_0_r. apply Qeq_bool_iff in E.
      repeat split; auto. intros j v Hj. lia.
    - assert (Ha : m < a).
      { apply Qeq_bool_neq in E. specialize (Hle a (or_introl eq_refl)).
        apply Qle_lteq in Hle. destruct Hle as [Hlt | Heq]; [exact Hlt |].
        exfalso; apply E; symmetry; exact Heq. }
      destruct Hin as [-> | Hin];
        [rewrite (proj2 (Qeq_bool_iff m m)) in E by reflexivity; discriminate |].
      destruct (IH (k + 1)%Z (fun v Hv => Hle v (or_intror Hv)) Hin)
        as [s [ys [H1 [H2 [H3 H4]]]]].
      exists (S s), ys. repeat split; auto.
      + rewrite H1. f_equal. lia.
      + intros [| j] v Hj Hv; cbn in Hv.
        * injection Hv as <-. exact Ha.
        * apply (H4 j v); [lia | exact Hv]. }
  destruct (G y 0%Z Hle Hin) as [s [ys [H1 H]]].
  exists s, ys. rewrite H1. cbn. auto.
Qed.

(** The area of a polygon whose vertices all lie at one elevation. *)
Lemma shoelace_sum_level (c : Q) (first : Q * Q) (p : list (Q * Q)) (a : Q * Q) :
  snd first == c -> Forall (fun v => snd v == c) (a :: p) ->
  shoelace_sum first (a :: p) == c * (fst a - fst first).
Proof.
  intros Hf. revert a. induction p as [| b t IH]; intros [x1 y1] Hall.
  - cbn. inversion Hall as [| ? ? H1 _]; subst. cbn in H1. rewrite Hf, H1. ring.
  - cbn [shoelace_sum]. destruct b as [x2 y2].
    inversion Hall as [| ? ? H1 Ht]; subst.
    rewrite (IH (x2, y2) Ht).
    inversion Ht as [| ? ? H2 _]; subst. cbn in H1, H2 |- *. rewrite H1, H2. ring.
Qed.

Lemma poly_area_level (c : Q) (xs ys : list Q) :
  Forall (fun v => v == c) ys -> poly_area xs ys == 0.
Proof.
  intros H. unfold poly_area.
  assert (Hc : Forall (fun v => snd v == c) (combine xs ys)).
  { revert xs. induction H as [| b t Hb Ht IH]; intros [| a xs]; cbn; constructor; auto. }
  destruct (combine xs ys) as [| v t]; [reflexivity |].
  rewrite (@shoelace_sum_level c v t v) by (inversion Hc; assumption).
  setoid_replace (c * (fst v - fst v)) with 0 by ring. reflexivity.
Qed.

Lemma max_In (l : list Q) (m : Q) : Py.max l = Ok m -> In m l.
Proof.
  destruct l as [| a t]; cbn; intros H; [discriminate |].
  injection H as <-. revert a.
  induction t as [| b t IH]; intros a; cbn; [now left |].
  destruct (Qlt_le_dec a b);
    [ destruct (IH b) as [<- | Hin] | destruct (IH a) as [<- | Hin] ]; auto.
Qed.

Lemma interp1d_falling (yp ys xp xs m : Q) :
  ys == m -> m < yp -> interp1d yp ys xp xs m = Ok xs.
Proof.
  intros Hys Hyp. unfold interp1d.
  destruct (Qle_bool yp ys) eqn:E; [apply Qle_bool_iff in E; Lqa.lra |].
  destruct (Qlt_le_dec m ys); [Lqa.lra |].
  destruct (Qlt_le_dec yp m); [Lqa.lra |].
  destruct (Qle_bool yp m) eqn:E1; [apply Qle_bool_iff in E1; Lqa.lra |].
  rewrite (proj2 (Qeq_bool_iff ys m) Hys). reflexivity.
Qed.

Lemma interp1d_rising (ys y1 xs x1 m : Q) :
  ys == m -> m <= y1 ->
  interp1d ys y1 xs x1 m = Ok (if Qle_bool y1 m then x1 else xs).
Proof.
  intros Hys Hy1. unfold interp1d.
  rewrite (proj2 (Qle_bool_iff ys y1)) by Lqa.lra.
  destruct (Qlt_le_dec m ys); [Lqa.lra |].
  destruct (Qlt_le_dec y1 m); [Lqa.lra |].
  destruct (Qle_bool y1 m); [reflexivity |].
  rewrite (proj2 (Qeq_bool_iff ys m) Hys). reflexivity.
Qed.

Lemma Qle_bool_true (a b : Q) : a <= b -> Qle_bool a b = true.
Proof. intros H. apply Qle_bool_iff. exact H. Qed.

Section LowestLevel.

Variables (OVERFLOW : bool) (x y : list Q) (m : Q).

Lemma left_step_at_min_0 (ys xs : Q) :
  nth_error y 0 = Some ys -> ys == m -> nth_error x 0 = Some xs ->
  left_step x y m 0%Z 0%Z = Ok (Some (xs, m, 0%Z)).
Proof.
  intros Hy Hys Hx. unfold left_step, py_and.
  apply get_nat in Hy, Hx. cbn [Z.of_nat] in Hy, Hx.
  cbn [Z.eqb bind]. rewrite Hy. cbn [bind].
  rewrite Qle_bool_true by Lqa.lra. rewrite Hx. reflexivity.
Qed.

Lemma left_step_at_min_S (k : nat) (yp ys xp xs : Q) :
  nth_error y k = Some yp -> m < yp ->
  nth_error y (S k) = Some ys -> ys == m ->
  nth_error x k = Some xp -> nth_error x (S k) = Some xs ->
  left_step x y m (Z.of_nat (S k)) (Z.of_nat (S k))
    = Ok (Some (xs, m, Z.of_nat k)).
Proof.
  intros Hyp Hlt Hy Hys Hxp Hx. unfold left_step, py_and.
  apply get_nat in Hyp, Hy, Hxp, Hx.
  replace (Z.of_nat (S k) - 1)%Z with (Z.of_nat k) by lia.
  destruct (Z.of_nat (S k) =? 0)%Z eqn:E; [apply Z.eqb_eq in E; lia |].
  cbn [bind]. rewrite Hyp. cbn [bind].
  rewrite Qle_bool_true by Lqa.lra. rewrite Hy. cbn [bind].
  rewrite Qle_bool_true by Lqa.lra. rewrite Hxp, Hx. cbn [bind].
  rewrite (@interp1d_falling yp ys xp xs m Hys Hlt). reflexivity.
Qed.

Lemma right_step_at_min (s : nat) (ys y1 xs x1 : Q) :
  nth_error y s = Some ys -> ys == m ->
  nth_error y (S s) = Some y1 -> m <= y1 ->
  nth_error x s = Some xs -> nth_error x (S s) = Some x1 ->
  right_step x y m (Z.of_nat s)
    = Ok (Some (if Qle_bool y1 m then x1 else xs, m, Z.of_nat s)).
Proof.
  intros Hy Hys Hy1 Hle Hx Hx1. unfold right_step, py_and.
  apply get_nat in Hy, Hy1, Hx, Hx1.
  replace (Z.of_nat s + 1)%Z with (Z.of_nat (S s)) by lia.
  rewrite Hy. cbn [bind]. rewrite Qle_bool_true by Lqa.lra.
  rewrite Hy1. cbn [bind]. rewrite Qle_bool_true by Lqa.lra.
  rewrite Hx, Hx1. cbn [bind].
  rewrite (@interp1d_rising ys y1 xs x1 m Hys Hle). reflexivity.
Qed.

Hypothesis Hlen : List.length x = List.length y.
Hypothesis Hm : Py.min y = Ok m.

Lemma boundary_at_min (s : nat) (ys xs : Q) :
  Py.index y m = Ok (Z.of_nat s) ->
  nth_error y s = Some ys -> ys == m ->
  (forall j v, (j < s)%nat -> nth_error y j = Some v -> m < v) ->
  nth_error x s = Some xs ->
  boundary x y m None
    = Ok [mk_water_boundary [xs; right_end x y m s xs] [m; m]
                            [Z.of_nat (Nat.pred s); Z.of_nat s] 0%Z].
Proof.
  intros Hidx Hy Hys Hbefore Hx.
  assert (Hs : (s < List.length y)%nat) by (apply nth_error_Some; congruence).
  unfold boundary. rewrite Hm. cbn [bind]. rewrite Hidx. cbn [bind fst].
  destruct (Qlt_le_dec m m) as [Habs | _]; [Lqa.lra |].
  (* the search to the left *)
  destruct (@range_down_head (Z.of_nat s) ltac:(lia)) as [rest ->].
  cbn [search].
  assert (Hleft : left_step x y m (Z.of_nat s) (Z.of_nat s)
                  = Ok (Some (xs, m, Z.of_nat (Nat.pred s)))).
  { destruct s as [| k]; [apply (@left_step_at_min_0 ys xs Hy Hys Hx) |].
    destruct (nth_error y k) as [yp |] eqn:Eyp;
      [| apply nth_error_None in Eyp; lia].
    destruct (nth_error x k) as [xp |] eqn:Exp;
      [| apply nth_error_None in Exp; lia].
    apply (@left_step_at_min_S k yp ys xp xs Eyp (Hbefore k yp ltac:(lia) Eyp)
             Hy Hys Exp Hx). }
  rewrite Hleft. cbn [bind add_found append_boundary water_boundary_x
                      water_boundary_y water_boundary_points water_boundary_tag app].
  (* the search to the right and the last test *)
  unfold right_end.
  destruct (nth_error y (S s)) as [y1 |] eqn:Ey1.
  - assert (Hs1 : (S s < List.length y)%nat) by (apply nth_error_Some; congruence).
    destruct (nth_error x (S s)) as [x1 |] eqn:Ex1;
      [| apply nth_error_None in Ex1; lia].
    destruct (@range_head (Z.of_nat s) (Py.len y - 1)%Z) as [rest' ->];
      [unfold Py.len; lia |].
    cbn [search].
    rewrite (@right_step_at_min s ys y1 xs x1 Hy Hys Ey1
               (@min_le y m Hm y1 (nth_error_In _ _ Ey1)) Hx Ex1).
    cbn [bind add_found append_boundary water_boundary_x
         water_boundary_y water_boundary_points water_boundary_tag app].
    unfold py_and.
    destruct (Z.of_nat s =? Py.len y - 1)%Z eqn:E;
      [apply Z.eqb_eq in E; unfold Py.len in E; lia |].
    reflexivity.
  - apply nth_error_None in Ey1.
    assert (Hl : (Py.len y - 1)%Z = Z.of_nat s) by (unfold Py.len; lia).
    rewrite Hl, range_nil. cbn [search bind add_found].
    unfold py_and. rewrite Z.eqb_refl. cbn [bind].
    rewrite (@get_nat _ y s ys Hy). cbn [bind]. rewrite Qle_bool_true by Lqa.lra.
    rewrite (@get_nat _ x s xs Hx). reflexivity.
Qed.

End LowestLevel.

Section LowestLevelSection.

Variables (OVERFLOW : bool) (x y : list Q) (m : Q).
Hypothesis Hm : Py.min y = Ok m.

Lemma depths_zero (l : list Q) (d : Q) :
  Forall (fun v => v == m) l ->
  Py.max (map (fun yi => m - yi) l) = Ok d -> d == 0.
Proof.
  intros Hall Hd. apply max_In in Hd. apply in_map_iff in Hd.
  destruct Hd as [v [<- Hv]].
  rewrite Forall_forall in Hall. rewrite (Hall v Hv). ring.
Qed.

(** [_calculate_parameters] on a boundary group whose inner vertices all
    lie at the level. *)
Lemma calculate_parameters_at_min (x1 x2 : Q) (pl s : nat) :
  (pl < List.length y)%nat ->
  Forall (fun v => v == m)
         (Py.slice y (Z.of_nat pl + 1)%Z (Z.of_nat s + 1)%Z) ->
  exists w,
    _calculate_parameters OVERFLOW x y m WaterSection_defaults
      (mk_water_boundary [x1; x2] [m; m] [Z.of_nat pl; Z.of_nat s] 0%Z) = Ok w
    /\ width w = x2 - x1
    /\ area w == 0
    /\ average_depth w = epsilon
    /\ max_depth w == 0
    /\ r_hydraulic w = Q2R epsilon.
Proof.
  intros Hpl Hmid.
  unfold _calculate_parameters.
  cbn [water_boundary_x water_boundary_y water_boundary_points water_boundary_tag].
  change (Py.get [x1; x2] 0%Z) with (Ok x1).
  change (Py.get [x1; x2] 1%Z) with (Ok x2).
  change (Py.get [m; m] 0%Z) with (Ok m).
  change (Py.get [m; m] 1%Z) with (Ok m).
  cbn [bind].
  change (Py.get [Z.of_nat pl; Z.of_nat s] 0%Z) with (Ok (Z.of_nat pl)).
  change (Py.get [Z.of_nat pl; Z.of_nat s] 1%Z) with (Ok (Z.of_nat s)).
  cbn [bind].
  set (mid_x := Py.slice x (Z.of_nat pl + 1)%Z (Z.of_nat s + 1)%Z).
  set (mid_y := Py.slice y (Z.of_nat pl + 1)%Z (Z.of_nat s + 1)%Z) in *.
  rewrite !insert_0, !insert_len.
  (* the bank test reads a bottom vertex, none of which lies below [m] *)
  assert (Hbank : exists b,
             (if OVERFLOW then Py.get y (Z.of_nat pl) else Py.get y 0%Z) = Ok b
             /\ m <= b).
  { destruct OVERFLOW.
    - destruct (nth_error y pl) as [b |] eqn:E;
        [| apply nth_error_None in E; lia].
      exists b. split; [apply get_nat; exact E |].
      apply (@min_le y m Hm b (nth_error_In _ _ E)).
    - destruct (nth_error y 0) as [b |] eqn:E;
        [| apply nth_error_None in E; lia].
      exists b. split; [apply (@get_nat _ y 0%nat b E) |].
      apply (@min_le y m Hm b (nth_error_In _ _ E)). }
  destruct Hbank as [b [-> Hb]]. cbn [bind].
  destruct (Qlt_le_dec b m) as [Habs | _]; [Lqa.lra |].
  cbn [bind]. unfold py_and. cbn [Z.ltb Z.compare bind fst snd].
  assert (Hall : Forall (fun v => v == m) ((m :: mid_y) ++ [m])).
  { apply Forall_app. split; [constructor; [reflexivity | exact Hmid] |].
    constructor; [reflexivity | constructor]. }
  set (wsx := (x1 :: mid_x) ++ [x2]) in *.
  set (wsy := (m :: mid_y) ++ [m]) in *.
  pose proof (@poly_area_level m wsx wsy Hall) as Harea.
  destruct (Py.max (map (fun yi => m - yi) wsy)) as [d | | |] eqn:Ed;
    try (subst wsy; cbn in Ed; discriminate).
  pose proof (@depths_zero wsy d Hall Ed) as Hd.
  cbn [bind].
  destruct (Qlt_le_dec 0 (poly_area wsx wsy)) as [Habs | _]; [Lqa.lra |].
  eexists. split; [reflexivity |].
  cbn [width area average_depth max_depth r_hydraulic].
  repeat split; auto.
  destruct (Req_dec_T 0 0) as [_ | Hn]; [reflexivity | contradiction].
Qed.

End LowestLevelSection.

(** C6, as the code has it.  For every polyline (as many abscissas as
    elevations) and the level of its lowest vertex, with the default start
    point, the construction does not fail: the area is 0, the maximal depth
    is 0, [average_depth] and [r_hydraulic] are the floor 0.00001, and the
    width is the distance from the first lowest vertex to the right boundary
    found, which is that vertex itself, so that the width is 0, unless the
    next vertex lies at the same elevation, in which case it is that next
    vertex. *)
Theorem lowest_level_section (OVERFLOW : bool) (x y : list Q) (m : Q) :
  List.length x = List.length y ->
  Py.min y = Ok m ->
  exists (s : nat) (xs : Q) (w : WaterSection),
    Py.index y m = Ok (Z.of_nat s)
    /\ nth_error x s = Some xs
    /\ WaterSection_init OVERFLOW x y m None = Ok w
    /\ area w == 0
    /\ max_depth w == 0
    /\ average_depth w = epsilon
    /\ r_hydraulic w = Q2R epsilon
    /\ width w = right_end x y m s xs - xs
    /\ ((forall y1, nth_error y (S s) = Some y1 -> ~ y1 == m) -> width w == 0).
Proof.
  intros Hlen Hm.
  destruct (@index_min y m Hm) as [s [ys [Hidx [Hy [Hys Hbefore]]]]].
  assert (Hs : (s < List.length y)%nat) by (apply nth_error_Some; congruence).
  destruct (nth_error x s) as [xs |] eqn:Hx; [| apply nth_error_None in Hx; lia].
  pose proof (@boundary_at_min x y m Hlen Hm s ys xs Hidx Hy Hys Hbefore Hx) as Hb.
  assert (Hmid : Forall (fun v => v == m)
                        (Py.slice y (Z.of_nat (Nat.pred s) + 1)%Z (Z.of_nat s + 1)%Z)).
  { destruct s as [| k]; cbn [Nat.pred].
    - cbn [Z.of_nat Z.add Pos.add]. rewrite slice_empty. constructor.
    - replace (Z.of_nat k + 1)%Z with (Z.of_nat (S k)) by lia.
      replace (Z.of_nat (S k) + 1)%Z with (Z.of_nat (S (S k))) by lia.
      rewrite (@slice_one _ y (S k) ys Hy). constructor; [exact Hys | constructor]. }
  destruct (@calculate_parameters_at_min OVERFLOW x y m Hm xs (right_end x y m s xs)
              (Nat.pred s) s ltac:(lia) Hmid)
    as [w [Hw [Hwidth [Harea [Havg [Hmax Hrh]]]]]].
  exists s, xs, w.
  split; [exact Hidx |]. split; [exact Hx |].
  split.
  { unfold WaterSection_init. rewrite Hb. cbn [bind Py.len List.length Z.of_nat Z.ltb].
    cbn. cbn in Hw. rewrite Hw. reflexivity. }
  repeat split; auto.
  intros Hnext. rewrite Hwidth. unfold right_end.
  destruct (nth_error y (S s)) as [y1 |] eqn:Ey1; [| ring].
  destruct (nth_error x (S s)) as [x1 |]; [| ring].
  destruct (Qle_bool y1 m) eqn:E; [| ring].
  apply Qle_bool_iff in E. exfalso. apply (Hnext y1 eq_refl).
  pose proof (@min_le y m Hm y1 (nth_error_In _ _ Ey1)). Lqa.lra.
Qed.

Lemma lowest_level_section_witness :
  exists w, WaterSection_init false [0; 5; 10] [10; 8; 10] 8 None = Ok w
            /\ area w == 0 /\ width w == 0.
Proof.
  destruct (@lowest_level_section false [0; 5; 10] [10; 8; 10] 8 eq_refl eq_refl)
    as [s [xs [w [Hidx [_ [Hw [Ha [_ [_ [_ [_ Hflat]]]]]]]]]]].
  exists w. split; [exact Hw |]. split; [exact Ha |].
  apply Hflat. intros y1 Hy1.
  assert (Hs : s = 1%nat).
  { change (Py.index [10; 8; 10] 8) with (@Ok Z 1%Z) in Hidx.
    injection Hidx as Hidx. lia. }
  subst s. cbn in Hy1. injection Hy1 as <-. intros H. discriminate H.
Defined.

(** C6 as stated fails on a flat bottom: the trapezoid at level 8, the
    elevation of its two lowest vertices, has area 0 but width 5. *)
Lemma flat_bottom_width_is_not_zero :
  exists w, WaterSection_init false trapezoid_x trapezoid_y 8 None = Ok w
            /\ area w == 0
            /\ width w == 5
            /\ ~ width w == 0.
Proof.
  eexists. split; [eval_section |].
  repeat split; vm_compute; congruence.
Qed.

(** ** The turn of the loop in overflow mode *)

Lemma skipn_nth_cons {A} (l : list A) (k : nat) (a : A) :
  nth_error l k = Some a -> skipn k l = a :: skipn (S k) l.
Proof.
  revert l. induction k as [| k IH]; intros [| b t] H; try discriminate.
  - injection H as ->. reflexivity.
  - cbn in H. rewrite (skipn_cons k b t). apply IH. exact H.
Qed.

Lemma mem_In (k : Z) (l : list Z) : mem k l = true <-> In k l.
Proof.
  unfold mem. rewrite existsb_exists. split.
  - intros [j [Hj E]]. apply Z.eqb_eq in E. subst. exact Hj.
  - intros H. exists k. split; [exact H | apply Z.eqb_refl].
Qed.

Section OverflowTurn.

Variables (OVERFLOW : bool) (CALC_TYPE : Z).
Variable chunk_list : list Q -> Z -> list (list Q).
Variable self : Morfostvor.t.
Variables (min_sector : Z * ProfileSector.t) (water_level : Q).

Local Abbreviation row_of := (row_of self water_level).
Local Abbreviation spilled := (spilled chunk_list self water_level).

Lemma spilled_mono (cs added : list Z) (i : Z) :
  spilled cs i -> spilled (cs ++ added) i.
Proof.
  intros H sector Hs. destruct (H sector Hs) as [Hl Hr].
  split; intros half ridge H1 H2 H3 H4; apply in_or_app; left; eauto.
Qed.

Lemma sector_row_name sector start_point r q_ :
  sector_row OVERFLOW CALC_TYPE sector water_level start_point = Ok (r, q_) ->
  Uchastok r = ProfileSector.name sector /\ UV r = round2 water_level.
Proof.
  unfold sector_row. destruct (ProfileSector.coord sector) as [x y].
  intros H. peel H. destruct a0 as [calc |]; [| discriminate].
  injection H as <- _. split; reflexivity.
Qed.

Lemma overflow_body_spec (cs : list Z) (i : Z) cs1 r q_ :
  overflow_body OVERFLOW CALC_TYPE chunk_list self min_sector water_level cs i
    = Ok (cs1, r, q_) ->
  (exists added, cs1 = cs ++ added) /\ row_of i r /\ spilled cs1 i.
Proof.
  unfold overflow_body. intros H.
  destruct (Py.get (Morfostvor.sectors self) i) as [sector | | |] eqn:Es;
    cbn [bind] in H; try discriminate.
  destruct (ProfileSector.coord sector) as [x y] eqn:Ec.
  destruct (Py.get (chunk_list y 2%Z) 0%Z) as [lh | | |] eqn:E0;
    cbn [bind] in H; try discriminate.
  destruct (Py.max lh) as [pe | | |] eqn:E1; cbn [bind] in H; try discriminate.
  destruct (Py.get (chunk_list y 2%Z) 1%Z) as [rh | | |] eqn:E2;
    cbn [bind] in H; try discriminate.
  destruct (Py.max rh) as [ne | | |] eqn:E3; cbn [bind] in H; try discriminate.
  match type of H with
  | bind ?sp _ = _ => destruct sp as [sp_ | | |]; cbn [bind] in H; try discriminate
  end.
  match type of H with
  | bind ?sr _ = _ => destruct sr as [[r' q'] | | |] eqn:Er;
                      cbn [bind fst snd] in H; try discriminate
  end.
  injection H as <- <- <-.
  apply sector_row_name in Er.
  destruct (Qle_bool pe water_level && negb (mem (i - 1)%Z cs) && (0 <=? i - 1)%Z)
    eqn:C1;
    match goal with
    | |- context [mem (i + 1)%Z ?l] =>
        destruct (Qle_bool ne water_level && negb (mem (i + 1)%Z l)
                  && (i + 1 <=? Py.len (Morfostvor.sectors self) - 1)%Z) eqn:C2
    end;
    (split; [| split];
     [ rewrite <- ?app_assoc; eauto; exists []; rewrite app_nil_r; reflexivity
     | exists sector; tauto
     | intros sector' Hs'; rewrite Es in Hs'; injection Hs' as <-;
       rewrite Ec; cbn [snd];
       split; intros half ridge H1 H2 H3 H4;
       [ rewrite E0 in H1; injection H1 as <-; rewrite E1 in H2; injection H2 as <-;
         rewrite (Qle_bool_true H3), (proj2 (Z.leb_le _ _) H4), andb_true_r in C1;
         cbn [andb] in C1;
         try (apply negb_false_iff in C1; apply mem_In in C1);
         rewrite ?in_app_iff; cbn [In]; tauto
       | rewrite E2 in H1; injection H1 as <-; rewrite E3 in H2; injection H2 as <-;
         rewrite (Qle_bool_true H3), (proj2 (Z.leb_le _ _) H4), andb_true_r in C2;
         cbn [andb] in C2;
         try (apply negb_false_iff in C2; apply mem_In in C2;
              rewrite ?in_app_iff in C2; cbn [In] in C2);
         rewrite ?in_app_iff; cbn [In]; tauto ] ]).
Qed.

Lemma overflow_for_spec (fuel : nat) :
  forall (cs : list Z) (k : nat) (rows : list row) (wc : list R) cs' rows' wc',
    overflow_for OVERFLOW CALC_TYPE chunk_list self fuel min_sector water_level
                 cs k rows wc = Some (Ok (cs', rows', wc')) ->
    exists added rs,
      cs' = cs ++ added /\ rows' = rows ++ rs
      /\ Forall2 row_of (skipn k cs') rs
      /\ forall i, In i (skipn k cs') -> spilled cs' i.
Proof.
  induction fuel as [| fuel IH]; intros cs k rows wc cs' rows' wc' H; cbn in H.
  - destruct (nth_error cs k) as [i |] eqn:E; [discriminate |].
    injection H as <- <- <-. exists [], [].
    rewrite !app_nil_r. apply nth_error_None in E.
    rewrite skipn_all2 by exact E. split; [reflexivity |]. split; [reflexivity |].
    split; [constructor | intros j []].
  - destruct (nth_error cs k) as [i |] eqn:E.
    + destruct (overflow_body _ _ _ _ _ _ _ _) as [[[cs1 r] q_] | | |] eqn:Eb;
        try discriminate.
      apply overflow_body_spec in Eb. destruct Eb as [[added1 ->] [Hrow Hsp]].
      destruct (IH _ _ _ _ _ _ _ H) as [added [rs [-> [-> [Hall Hcl]]]]].
      exists (added1 ++ added), (r :: rs).
      assert (Hk : nth_error ((cs ++ added1) ++ added) k = Some i).
      { rewrite <- app_assoc. rewrite nth_error_app1; [exact E |].
        apply nth_error_Some. congruence. }
      rewrite (skipn_nth_cons _ _ Hk).
      split; [rewrite app_assoc; reflexivity |].
      split; [rewrite <- app_assoc; reflexivity |].
      split; [constructor; assumption |].
      intros j [<- | Hj]; [apply spilled_mono; exact Hsp | apply Hcl; exact Hj].
    + injection H as <- <- <-. exists [], [].
      rewrite !app_nil_r. apply nth_error_None in E.
      rewrite skipn_all2 by exact E. split; [reflexivity |]. split; [reflexivity |].
    split; [constructor | intros j []].
Qed.

End OverflowTurn.

(** C1, as the code has it.  In overflow mode a turn of the loop that
    completes leaves one row, at the level of the turn, for every sector of
    the active list as the turn leaves it, in the order of the list and
    before the aggregate row; the list is the one the turn started from with
    the sectors added during the turn after it; and it holds, for each of its
    sectors, the neighbours within bounds towards which the level has
    reached the ridge.  A neighbour activated in a turn therefore has its
    first row at the level of that same turn. *)
Theorem overflow_neighbour_row_in_same_turn
        (CALC_TYPE : Z) (chunk_list : list Q -> Z -> list (list Q))
        (self : Morfostvor.t) (min_sector : Z * ProfileSector.t)
        (water_level : Q) (calc_sectors cs' : list Z) (rows : list row) (total : R) :
  level_pass true CALC_TYPE chunk_list self min_sector water_level calc_sectors
    = Some (Ok (cs', rows, total)) ->
  exists added sector_rows,
    cs' = calc_sectors ++ added
    /\ rows = sector_rows ++ [zero_row (round2 water_level)]
    /\ Forall2 (row_of self water_level) cs' sector_rows
    /\ forall i, In i cs' -> spilled chunk_list self water_level cs' i.
Proof.
  unfold level_pass. intros H.
  destruct (overflow_for _ _ _ _ _ _ _ _ _ _ _) as [[[[cs1 rows1] wc1] | | |] |] eqn:E;
    try discriminate.
  injection H as <- <- <-.
  apply overflow_for_spec in E.
  destruct E as [added [rs [-> [Hrows [Hall Hcl]]]]].
  cbn [app] in Hrows. subst rows1. cbn [skipn] in Hall, Hcl.
  exists added, rs. auto.
Qed.

(** ** A run on two sectors *)

Lemma sector_row_Ok (OVERFLOW : bool) (CALC_TYPE : Z) (sector : ProfileSector.t)
      (water_level : Q) (start_point : option (Z * Q))
      (water : WaterSection) (calc : Calculation) :
  WaterSection_init OVERFLOW (fst (ProfileSector.coord sector))
                    (snd (ProfileSector.coord sector)) water_level start_point
    = Ok water ->
  Calculation_init CALC_TYPE (Q2R (ProfileSector.roughness sector))
                   (Q2R (ProfileSector.slope sector))
                   (Q2R (average_depth water)) (Q2R (area water)) = Ok (Some calc) ->
  sector_row OVERFLOW CALC_TYPE sector water_level start_point
    = Ok (mk_row (ProfileSector.name sector) (round2 water_level)
                 (Q2R (area water)) (Q2R (width water))
                 (Q2R (average_depth water)) (Q2R (max_depth water))
                 (v calc) (q calc) (shezi calc),
          q calc).
Proof.
  unfold sector_row. destruct (ProfileSector.coord sector) as [x y]. cbn [fst snd].
  intros Hw Hc. rewrite Hw. cbn [bind]. rewrite Hc. reflexivity.
Qed.

(** In the regime "water" a positive depth of the Pavlovskij band, a positive
    roughness and a slope and an area that are not negative give a discharge
    that is not negative. *)
Lemma Calculation_water_q_nonneg (n i h a : R) :
  (0 < n)%R -> (0 < h <= 3)%R -> (0 <= i)%R -> (0 <= a)%R ->
  exists c, Calculation_init 1 n i h a = Ok (Some c) /\ (0 <= q c)%R.
Proof.
  intros Hn [Hh0 Hh3] Hi Ha.
  destruct (@Calculation_water n i h a Hn) as [c [p [Hc [_ [Hp [Hs [Hv [Hq _]]]]]]]];
    [lra | apply Rmult_le_pos; lra | left; exact Hh0 |].
  exists c. split; [exact Hc |].
  rewrite Hq, Hv, Hs, (Hp Hh0).
  apply Rmult_le_pos; [exact Ha |].
  apply Rmult_le_pos; [| apply sqrt_pos].
  apply Rmult_le_pos; [apply Rlt_le, Rdiv_lt_0_compat; lra |].
  unfold Rpower. apply Rlt_le, exp_pos.
Qed.

(** At a depth of exactly 1 the coefficient is [1 / n]. *)
Lemma Calculation_water_unit_depth (n i a : R) :
  (0 < n)%R -> (0 <= i)%R ->
  exists c, Calculation_init 1 n i 1 a = Ok (Some c)
            /\ q c = (a * (1 / n * sqrt (i / 1000)))%R.
Proof.
  intros Hn Hi.
  destruct (@Calculation_water n i 1 a Hn) as [c [p [Hc [_ [Hp [Hs [Hv [Hq _]]]]]]]];
    [lra | lra | left; lra |].
  exists c. split; [exact Hc |].
  rewrite Hq, Hv, Hs, (Hp ltac:(lra)).
  unfold Rpower. rewrite ln_1, Rmult_0_r, exp_0.
  replace (1 * (i / 1000))%R with (i / 1000)%R by lra. lra.
Qed.

Section Unrolling.

Variables (OVERFLOW : bool) (CALC_TYPE : Z).
Variable chunk_list : list Q -> Z -> list (list Q).
Variable self : Morfostvor.t.
Variable min_sector : Z * ProfileSector.t.

Lemma overflow_for_step fuel water_level cs k rows wc i cs1 r q_ :
  nth_error cs k = Some i ->
  overflow_body OVERFLOW CALC_TYPE chunk_list self min_sector water_level cs i
    = Ok (cs1, r, q_) ->
  overflow_for OVERFLOW CALC_TYPE chunk_list self (S fuel) min_sector water_level
               cs k rows wc
  = overflow_for OVERFLOW CALC_TYPE chunk_list self fuel min_sector water_level
                 cs1 (S k) (rows ++ [r]) (wc ++ [q_]).
Proof. intros Hk Hb. cbn [overflow_for]. rewrite Hk, Hb. reflexivity. Qed.

Lemma overflow_for_done fuel water_level cs k rows wc :
  nth_error cs k = None ->
  overflow_for OVERFLOW CALC_TYPE chunk_list self fuel min_sector water_level
               cs k rows wc = Some (Ok (cs, rows, wc)).
Proof. intros Hk. destruct fuel; cbn [overflow_for]; rewrite Hk; reflexivity. Qed.

Lemma sweep_turn fuel check dH water_level cs df summ cs1 rows total :
  (summ < check)%R ->
  level_pass OVERFLOW CALC_TYPE chunk_list self min_sector water_level cs
    = Some (Ok (cs1, rows, total)) ->
  sweep OVERFLOW CALC_TYPE chunk_list self (S fuel) check dH min_sector
        water_level cs df summ
  = sweep OVERFLOW CALC_TYPE chunk_list self fuel check dH min_sector
          (water_level + dH) cs1 (df ++ rows) total.
Proof.
  intros Hlt Hp. cbn [sweep].
  destruct (Rlt_dec summ check); [| contradiction]. rewrite Hp. reflexivity.
Qed.

Lemma sweep_stop fuel check dH water_level cs df summ :
  ~ (summ < check)%R ->
  sweep OVERFLOW CALC_TYPE chunk_list self fuel check dH min_sector
        water_level cs df summ = Some (Ok df).
Proof.
  intros Hge. destruct fuel; cbn [sweep];
    (destruct (Rlt_dec summ check); [contradiction | reflexivity]).
Qed.

End Unrolling.

Lemma ruslo_section :
  exists w, WaterSection_init true [0; 0; 10; 10] [10; 8; 8; 9] (900 # 100) None = Ok w
            /\ average_depth w == 1 /\ area w == 10.
Proof.
  eexists. split; [eval_section |]. split; vm_compute; reflexivity.
Qed.

Lemma pojma_section :
  exists w, WaterSection_init true [10; 15; 20; 25] [9; 17 # 2; 17 # 2; 11] (900 # 100)
                              (Some (0%Z, 9)) = Ok w
            /\ average_depth w == 4 # 11 /\ area w == 4.
Proof.
  eexists. split; [eval_section |]. split; vm_compute; reflexivity.
Qed.

(** The first turn on the two sectors, at level 9: the channel is the only
    active sector when the turn starts, the level reaches its right bank,
    and the turn leaves the rows of both sectors. *)
Lemma two_sectors_turn :
  exists r0 r1 total,
    level_pass true 1 chunk_halves two_sectors (0%Z, ruslo) (900 # 100) [0%Z]
      = Some (Ok ([0%Z; 1%Z], [r0; r1; zero_row (round2 (900 # 100))], total))
    /\ Uchastok r0 = "ruslo"%string /\ Uchastok r1 = "pojma"%string
    /\ UV r0 = round2 (900 # 100) /\ UV r1 = round2 (900 # 100)
    /\ (60 <= total)%R.
Proof.
  destruct ruslo_section as [w0 [Hw0 [Havg0 Harea0]]].
  destruct pojma_section as [w1 [Hw1 [Havg1 Harea1]]].
  apply Qeq_eqR in Havg0, Harea0, Havg1, Harea1.
  (* the two calculations *)
  destruct (@Calculation_water_unit_depth (Q2R (5 # 100)) (Q2R 250) (Q2R (area w0)))
    as [c0 [Hc0 Hq0]]; [lra | lra |].
  replace 1%R with (Q2R (average_depth w0)) in Hc0 by (rewrite Havg0; lra).
  destruct (@Calculation_water_q_nonneg (Q2R (8 # 100)) (Q2R 250)
              (Q2R (average_depth w1)) (Q2R (area w1)))
    as [c1 [Hc1 Hq1]]; [lra | rewrite Havg1; lra | lra | rewrite Harea1; lra |].
  pose proof (@sector_row_Ok true 1 ruslo (900 # 100) None w0 c0 Hw0 Hc0) as Hr0.
  pose proof (@sector_row_Ok true 1 pojma (900 # 100) (Some (0%Z, 9)) w1 c1 Hw1 Hc1)
    as Hr1.
  remember (mk_row (ProfileSector.name ruslo) (round2 (900 # 100)) (Q2R (area w0))
                   (Q2R (width w0)) (Q2R (average_depth w0)) (Q2R (max_depth w0))
                   (v c0) (q c0) (shezi c0)) as r0 eqn:Er0.
  remember (mk_row (ProfileSector.name pojma) (round2 (900 # 100)) (Q2R (area w1))
                   (Q2R (width w1)) (Q2R (average_depth w1)) (Q2R (max_depth w1))
                   (v c1) (q c1) (shezi c1)) as r1 eqn:Er1.
  (* the two bodies *)
  assert (Hb0 : overflow_body true 1 chunk_halves two_sectors (0%Z, ruslo) (900 # 100)
                              [0%Z] 0%Z = Ok ([0%Z; 1%Z], r0, q c0)).
  { unfold overflow_body.
    change (Py.get (Morfostvor.sectors two_sectors) 0%Z) with (Ok ruslo).
    cbn [bind]. change (ProfileSector.coord ruslo) with ([0; 0; 10; 10], [10; 8; 8; 9]).
    cbv iota beta.
    change (Py.get (chunk_halves [10; 8; 8; 9] 2%Z) 0%Z) with (Ok [10; 8]).
    change (Py.get (chunk_halves [10; 8; 8; 9] 2%Z) 1%Z) with (Ok [8; 9]).
    cbn [bind]. change (Py.max [10; 8]) with (Ok 10). change (Py.max [8; 9]) with (Ok 9).
    cbn [bind].
    change (ProfileSector.id ruslo =? ProfileSector.id (snd (0%Z, ruslo)))%Z with true.
    cbn [bind]. rewrite Hr0. reflexivity. }
  assert (Hb1 : overflow_body true 1 chunk_halves two_sectors (0%Z, ruslo) (900 # 100)
                              [0%Z; 1%Z] 1%Z = Ok ([0%Z; 1%Z], r1, q c1)).
  { unfold overflow_body.
    change (Py.get (Morfostvor.sectors two_sectors) 1%Z) with (Ok pojma).
    cbn [bind].
    change (ProfileSector.coord pojma) with ([10; 15; 20; 25], [9; 17 # 2; 17 # 2; 11]).
    cbv iota beta.
    change (Py.get (chunk_halves [9; 17 # 2; 17 # 2; 11] 2%Z) 0%Z) with (Ok [9; 17 # 2]).
    change (Py.get (chunk_halves [9; 17 # 2; 17 # 2; 11] 2%Z) 1%Z) with (Ok [17 # 2; 11]).
    cbn [bind]. change (Py.max [9; 17 # 2]) with (Ok 9).
    change (Py.max [17 # 2; 11]) with (Ok 11).
    cbn [bind].
    change (ProfileSector.id pojma =? ProfileSector.id (snd (0%Z, ruslo)))%Z with false.
    change (ProfileSector.id pojma <? ProfileSector.id (snd (0%Z, ruslo)))%Z with false.
    change (Py.get [9; 17 # 2; 17 # 2; 11] 0%Z) with (Ok 9).
    cbn [bind]. rewrite Hr1. reflexivity. }
  exists r0, r1, (0 + sum_R [q c0; q c1])%R.
  split.
  { unfold level_pass.
    change (S (List.length (Morfostvor.sectors two_sectors))) with 3%nat.
    rewrite (@overflow_for_step true 1 chunk_halves two_sectors (0%Z, ruslo) 2
               (900 # 100) [0%Z] 0 [] [] 0%Z _ _ _ eq_refl Hb0).
    rewrite (@overflow_for_step true 1 chunk_halves two_sectors (0%Z, ruslo) 1
               (900 # 100) [0%Z; 1%Z] 1 _ _ 1%Z _ _ _ eq_refl Hb1).
    rewrite overflow_for_done by reflexivity. reflexivity. }
  subst r0 r1. cbn [Uchastok UV ProfileSector.name ruslo pojma].
  repeat split.
  cbn [sum_R fold_right]. rewrite Hq0, Harea0.
  assert (Hroot : sqrt (Q2R 250 / 1000) = (1 / 2)%R).
  { apply sqrt_lem_1; lra. }
  rewrite Hroot. lra.
Qed.

(** The whole sweep on the two sectors: one turn, at level 9, brings the
    discharge over the ceiling of 60. *)
Lemma two_sectors_rows :
  exists r0 r1,
    calculate_rows true 1 chunk_halves two_sectors 1
      = Some (Ok [zero_row 8; r0; r1; zero_row (round2 (900 # 100))])
    /\ Uchastok r0 = "ruslo"%string /\ Uchastok r1 = "pojma"%string
    /\ UV r0 = round2 (900 # 100) /\ UV r1 = round2 (900 # 100).
Proof.
  destruct two_sectors_turn as [r0 [r1 [total [Hp [H0 [H1 [H2 [H3 Htotal]]]]]]]].
  exists r0, r1. split; [| auto].
  unfold calculate_rows.
  change (get_q_max two_sectors) with (@Ok Q 50).
  change (get_min_sector two_sectors) with (Ok (0%Z, ruslo)).
  change (Py.min (Morfostvor.y two_sectors)) with (Ok 8).
  cbn [bind fst Morfostvor.dH Morfostvor.ele_min two_sectors].
  change (8 + level_step (dH_float 100)) with (900 # 100).
  change (50 + 50 * (20 # 100)) with (6000 # 100).
  erewrite sweep_turn; [| lra | exact Hp].
  rewrite sweep_stop by lra. reflexivity.
Qed.

(** ** The rows of a built frame *)

Section BuiltFrame.

Variable CALC_TYPE : Z.
Variable chunk_list : list Q -> Z -> list (list Q).
Variable self : Morfostvor.t.

Local Abbreviation built_row := (built_row self).

Lemma per_sector_for_rows (OVERFLOW : bool) (l : list ProfileSector.t)
      (water_level : Q) :
  (forall s, In s l -> In s (Morfostvor.sectors self)) ->
  forall rows wc rows' wc',
    per_sector_for OVERFLOW CALC_TYPE l water_level rows wc = Ok (rows', wc') ->
    exists rs, rows' = rows ++ rs /\ Forall built_row rs.
Proof.
  induction l as [| s l IH]; intros Hsub rows wc rows' wc' H; cbn in H.
  - injection H as <- <-. exists []. rewrite app_nil_r. auto.
  - destruct (Py.min (snd (ProfileSector.coord s))) as [m | | |];
      cbn [bind] in H; try discriminate.
    destruct (Qlt_le_dec m water_level).
    + destruct (sector_row OVERFLOW CALC_TYPE s water_level None)
        as [[r q_] | | |] eqn:Er; cbn [bind fst snd] in H; try discriminate.
      apply sector_row_name in Er.
      destruct (IH (fun s' Hs' => Hsub s' (or_intror Hs')) _ _ _ _ H)
        as [rs [-> Hrs]].
      exists (r :: rs). rewrite <- app_assoc. split; [reflexivity |].
      constructor; [| exact Hrs].
      left. exists s. split; [apply Hsub; now left | apply Er].
    + apply (IH (fun s' Hs' => Hsub s' (or_intror Hs')) _ _ _ _ H).
Qed.

Lemma level_pass_rows (OVERFLOW : bool) min_sector water_level cs cs' rows total :
  level_pass OVERFLOW CALC_TYPE chunk_list self min_sector water_level cs
    = Some (Ok (cs', rows, total)) ->
  Forall built_row rows.
Proof.
  unfold level_pass. intros H. destruct OVERFLOW.
  - destruct (overflow_for _ _ _ _ _ _ _ _ _ _ _)
      as [[[[cs1 rows1] wc1] | | |] |] eqn:E; try discriminate.
    injection H as <- <- <-.
    apply overflow_for_spec in E.
    destruct E as [added [rs [_ [Hrows [Hall _]]]]]. cbn in Hrows. subst rows1.
    apply Forall_app. split; [| constructor; [right; eauto | constructor]].
    clear - Hall.
    induction Hall as [| i r l l' [s [Hs [Hn _]]] _ IH]; constructor; auto.
    left. exists s. split; [eapply get_In; eassumption | exact Hn].
  - destruct (per_sector_for _ _ _ _ _ _) as [[rows1 wc1] | | |] eqn:E;
      try discriminate.
    injection H as <- <- <-.
    apply per_sector_for_rows in E; [| auto].
    destruct E as [rs [Hrows Hrs]]. cbn in Hrows. subst rows1.
    apply Forall_app. split; [exact Hrs | constructor; [right; eauto | constructor]].
Qed.

Lemma sweep_rows (OVERFLOW : bool) (fuel : nat) :
  forall check dH min_sector water_level cs df summ df',
    sweep OVERFLOW CALC_TYPE chunk_list self fuel check dH min_sector
          water_level cs df summ = Some (Ok df') ->
    Forall built_row df -> Forall built_row df'.
Proof.
  induction fuel as [| fuel IH]; intros check dH ms wl cs df summ df' H Hdf;
    cbn [sweep] in H; destruct (Rlt_dec summ check); try discriminate;
    try (injection H as <-; exact Hdf).
  destruct (level_pass _ _ _ _ _ _ _) as [[[[cs1 rows] total] | | |] |] eqn:E;
    try discriminate.
  apply level_pass_rows in E.
  apply (IH _ _ _ _ _ _ _ _ H). apply Forall_app. split; assumption.
Qed.

Lemma calculate_rows_built (OVERFLOW : bool) (fuel : nat) (df : list row) :
  calculate_rows OVERFLOW CALC_TYPE chunk_list self fuel = Some (Ok df) ->
  Forall built_row df.
Proof.
  unfold calculate_rows. intros H.
  destruct (bind (get_q_max self) _) as [[[[check dH] ms] wl] | | |];
    try discriminate.
  apply sweep_rows in H; [exact H |].
  constructor; [right; eauto | constructor].
Qed.

(** With no sector of the name of the aggregate row, the aggregate rows of
    the frame are rows of zeros. *)
Lemma built_row_Summa (r : row) :
  (forall s, In s (Morfostvor.sectors self) -> ProfileSector.name s <> Summa) ->
  built_row r -> is_Summa r = true -> r = zero_row (UV r).
Proof.
  intros Hnames [[s [Hs Hn]] | [level ->]] Hr; [| reflexivity].
  unfold is_Summa in Hr. apply String.eqb_eq in Hr.
  exfalso. apply (Hnames s Hs). congruence.
Qed.

End BuiltFrame.

Lemma overflow_neighbour_row_in_same_turn_witness :
  exists cs' rows total,
    level_pass true 1 chunk_halves two_sectors (0%Z, ruslo) (900 # 100) [0%Z]
      = Some (Ok (cs', rows, total))
    /\ exists added sector_rows,
         cs' = [0%Z] ++ added
         /\ rows = sector_rows ++ [zero_row (round2 (900 # 100))]
         /\ Forall2 (row_of two_sectors (900 # 100)) cs' sector_rows
         /\ forall i, In i cs' -> spilled chunk_halves two_sectors (900 # 100) cs' i.
Proof.
  destruct two_sectors_turn as [r0 [r1 [total [Hp _]]]].
  eexists _, _, _. split; [exact Hp |].
  exact (@overflow_neighbour_row_in_same_turn 1 chunk_halves two_sectors (0%Z, ruslo)
           (900 # 100) [0%Z] _ _ _ Hp).
Defined.

(** C1 as stated fails.  On the two sectors, with a step of 100 cm, the sweep
    starts from the channel alone, at level 9; the ridge towards the
    floodplain, the highest point of the right half of the channel, is 9; the
    level reaches it in this first turn, and the frame holds the row of the
    floodplain at level 9 already, after the row of the channel. *)
Lemma neighbour_row_at_the_ridge_level :
  exists r0 r1,
    get_min_sector two_sectors = Ok (0%Z, ruslo)
    /\ (half <- Py.get (chunk_halves (snd (ProfileSector.coord ruslo)) 2%Z) 1%Z ;;
        Py.max half) = Ok 9
    /\ 8 + level_step (dH_float 100) == 9
    /\ calculate_rows true 1 chunk_halves two_sectors 1
       = Some (Ok [zero_row 8; r0; r1; zero_row (round2 (900 # 100))])
    /\ Uchastok r0 = ProfileSector.name ruslo /\ UV r0 == 9
    /\ Uchastok r1 = ProfileSector.name pojma /\ UV r1 == 9.
Proof.
  destruct two_sectors_rows as [r0 [r1 [Hrows [H0 [H1 [H2 H3]]]]]].
  exists r0, r1.
  split; [reflexivity |]. split; [reflexivity |]. split; [reflexivity |].
  split; [exact Hrows |].
  rewrite H0, H1, H2, H3. repeat split; reflexivity.
Qed.

(** ** Filling the aggregate rows *)

Lemma Qeq_bool_right (a b c : Q) : b == c -> Qeq_bool a b = Qeq_bool a c.
Proof.
  intros H. destruct (Qeq_bool a b) eqn:E1, (Qeq_bool a c) eqn:E2; auto.
  - apply Qeq_bool_iff in E1. apply Qeq_bool_neq in E2.
    exfalso. apply E2. rewrite <- H. exact E1.
  - apply Qeq_bool_iff in E2. apply Qeq_bool_neq in E1.
    exfalso. apply E1. rewrite H. exact E2.
Qed.

Lemma group_Qeq (df : list row) (l l' : Q) : l == l' -> group df l = group df l'.
Proof.
  intros H. unfold group. apply filter_ext. intros r. apply Qeq_bool_right. exact H.
Qed.

Lemma group_In (df : list row) (l : Q) (r : row) :
  In r (group df l) -> In r df /\ UV r == l.
Proof.
  unfold group. rewrite filter_In. intros [H1 H2]. split; [exact H1 |].
  apply Qeq_bool_iff. exact H2.
Qed.

Lemma group_map (h : row -> row) (df : list row) (l : Q) :
  (forall r, UV (h r) = UV r) -> group (map h df) l = map h (group df l).
Proof.
  intros Hh. unfold group. induction df as [| r df IH]; [reflexivity |].
  cbn [map filter]. rewrite Hh, IH. destruct (Qeq_bool (UV r) l); reflexivity.
Qed.

(** A sum over the rows of a level, split into the sector rows and the
    aggregate rows, when the latter all hold the same value. *)
Lemma sum_cases (col : row -> R) (c : R) (g : list row) :
  (forall r, In r g -> is_Summa r = true -> col r = c) ->
  sum_R (map col g)
  = (sum_R (map col (filter (fun r => negb (is_Summa r)) g))
     + INR (List.length (filter is_Summa g)) * c)%R.
Proof.
  induction g as [| r g IH]; intros Hc.
  - cbn. lra.
  - cbn [map filter sum_R fold_right].
    fold (sum_R (map col g)). rewrite IH by (intros r' Hr'; apply Hc; now right).
    destruct (is_Summa r) eqn:E; cbn [negb map sum_R fold_right List.length].
    + rewrite (Hc r (or_introl eq_refl) E), S_INR.
      fold (sum_R (map col (filter (fun r0 => negb (is_Summa r0)) g))). lra.
    + fold (sum_R (map col (filter (fun r0 => negb (is_Summa r0)) g))). lra.
Qed.

Lemma transform_sum_cases (col : row -> R) (c : R) (D : list row) (l : Q) :
  (forall r, In r (group D l) -> is_Summa r = true -> col r = c) ->
  transform_sum col D l
  = (sum_R (map col (sector_rows D l)) + INR (Summa_count D l) * c)%R.
Proof. intros H. unfold transform_sum, sector_rows, Summa_count. apply sum_cases. exact H. Qed.

Lemma group_length (D : list row) (l : Q) :
  List.length (group D l) = (List.length (sector_rows D l) + Summa_count D l)%nat.
Proof.
  unfold sector_rows, Summa_count. induction (group D l) as [| r g IH]; [reflexivity |].
  cbn [filter List.length]. destruct (is_Summa r); cbn [negb List.length]; lia.
Qed.

(** An assignment to one column of the aggregate rows. *)
Section Assign.

Variable set : row -> R -> row.
Hypothesis set_UV : forall r a, UV (set r a) = UV r.
Hypothesis set_Uchastok : forall r a, Uchastok (set r a) = Uchastok r.
Variables (vals : Q -> R) (D : list row) (l : Q).

Lemma assign_group (r' : row) :
  In r' (group (assign set vals D) l) ->
  exists r, In r (group D l)
            /\ r' = (if is_Summa r then set r (vals (UV r)) else r)
            /\ is_Summa r' = is_Summa r.
Proof.
  unfold assign. rewrite group_map.
  - rewrite in_map_iff. intros [r [<- Hr]]. exists r. split; [exact Hr |].
    split; [reflexivity |].
    destruct (is_Summa r) eqn:E; [| exact E].
    unfold is_Summa in *. rewrite set_Uchastok. exact E.
  - intros r. destruct (is_Summa r); [apply set_UV | reflexivity].
Qed.

Lemma sector_rows_assign : sector_rows (assign set vals D) l = sector_rows D l.
Proof.
  unfold sector_rows, assign. rewrite group_map
    by (intros r; destruct (is_Summa r); [apply set_UV | reflexivity]).
  induction (group D l) as [| r g IH]; [reflexivity |].
  cbn [map filter]. destruct (is_Summa r) eqn:E.
  - unfold is_Summa at 1. rewrite set_Uchastok. fold (is_Summa r). rewrite E.
    cbn [negb]. exact IH.
  - rewrite E. cbn [negb]. rewrite IH. reflexivity.
Qed.

Lemma Summa_count_assign : Summa_count (assign set vals D) l = Summa_count D l.
Proof.
  unfold Summa_count, assign. rewrite group_map
    by (intros r; destruct (is_Summa r); [apply set_UV | reflexivity]).
  induction (group D l) as [| r g IH]; [reflexivity |].
  cbn [map filter]. destruct (is_Summa r) eqn:E.
  - unfold is_Summa at 1. rewrite set_Uchastok. fold (is_Summa r). rewrite E.
    cbn [List.length]. rewrite IH. reflexivity.
  - rewrite E. exact IH.
Qed.

End Assign.

Lemma pd_div_scale (c a b : R) :
  (0 < c)%R -> pd_div (c * a) (c * b) = pd_div a b.
Proof.
  intros Hc. unfold pd_div.
  destruct (Req_dec_T (c * b) 0) as [E | E], (Req_dec_T b 0) as [E' | E'];
    try (exfalso; nra).
  - destruct (Req_dec_T (c * a) 0) as [Ea | Ea], (Req_dec_T a 0) as [Ea' | Ea'];
      try (exfalso; nra); [reflexivity |].
    destruct (Rlt_dec 0 (c * a)), (Rlt_dec 0 a); try reflexivity; exfalso; nra.
  - f_equal. field. split; lra.
Qed.

(** The frames of the fill, on a frame whose aggregate rows are rows of
    zeros. *)
Section Frames.

Variable df : list row.
Hypothesis Hz : forall r, In r df -> is_Summa r = true -> r = zero_row (UV r).
Variable l : Q.

Let S := sector_rows df l.
Let k := INR (Summa_count df l).

Lemma cols_raw (l' : Q) : Summa_cols df l' 0 0 0.
Proof.
  intros r Hr Hs. apply group_In in Hr. destruct Hr as [Hr _].
  rewrite (Hz r Hr Hs). cbn. auto.
Qed.

Lemma sum_raw (col : row -> R) (l' : Q) :
  (forall r, In r (group df l') -> is_Summa r = true -> col r = 0%R) ->
  transform_sum col df l' = sum_R (map col (sector_rows df l')).
Proof. intros H. rewrite (@transform_sum_cases col 0 df l' H). lra. Qed.

Lemma sum_F_raw (l' : Q) :
  transform_sum col_F df l' = sum_R (map col_F (sector_rows df l')).
Proof. apply sum_raw. intros r Hr Hs. apply (@cols_raw l' r Hr Hs). Qed.

Lemma rows_F : sector_rows (frame_F df) l = S /\ INR (Summa_count (frame_F df) l) = k.
Proof.
  unfold frame_F. rewrite sector_rows_assign, Summa_count_assign; auto.
Qed.

Lemma cols_F : Summa_cols (frame_F df) l (sum_R (map col_F S)) 0 0.
Proof.
  intros r' Hr' Hs'. unfold frame_F in Hr'.
  apply assign_group in Hr'; [| reflexivity | reflexivity].
  destruct Hr' as [r [Hr [-> E]]]. rewrite Hs' in E. rewrite <- E.
  destruct (@cols_raw l r Hr (eq_sym E)) as [_ [Hb [Hq Hsh]]].
  apply group_In in Hr. destruct Hr as [_ Hl].
  cbn. rewrite sum_F_raw. unfold S, sector_rows. rewrite (@group_Qeq df _ _ Hl). auto.
Qed.

Lemma rows_B : sector_rows (frame_B df) l = S /\ INR (Summa_count (frame_B df) l) = k.
Proof.
  unfold frame_B. rewrite sector_rows_assign, Summa_count_assign; auto.
  apply rows_F.
Qed.

Lemma sum_B_F (l' : Q) :
  l' == l -> transform_sum col_B (frame_F df) l' = sum_R (map col_B S).
Proof.
  intros Hl. unfold transform_sum. rewrite (@group_Qeq (frame_F df) _ _ Hl).
  fold (transform_sum col_B (frame_F df) l).
  rewrite (@transform_sum_cases col_B 0 (frame_F df) l)
    by (intros r Hr Hs; apply (cols_F r Hr Hs)).
  rewrite (proj1 rows_F). lra.
Qed.

Lemma cols_B : Summa_cols (frame_B df) l (sum_R (map col_F S)) (sum_R (map col_B S)) 0.
Proof.
  intros r' Hr' Hs'. unfold frame_B in Hr'.
  apply assign_group in Hr'; [| reflexivity | reflexivity].
  destruct Hr' as [r [Hr [-> E]]]. rewrite Hs' in E. rewrite <- E.
  destruct (cols_F r Hr (eq_sym E)) as [Hf [_ [Hq Hsh]]].
  apply group_In in Hr. destruct Hr as [_ Hl].
  cbn. rewrite (@sum_B_F _ Hl). auto.
Qed.

Lemma rows_Hmaks :
  sector_rows (frame_Hmaks df) l = S /\ INR (Summa_count (frame_Hmaks df) l) = k.
Proof.
  unfold frame_Hmaks. rewrite sector_rows_assign, Summa_count_assign; auto.
  apply rows_B.
Qed.

Lemma cols_Hmaks :
  Summa_cols (frame_Hmaks df) l (sum_R (map col_F S)) (sum_R (map col_B S)) 0.
Proof.
  intros r' Hr' Hs'. unfold frame_Hmaks in Hr'.
  apply assign_group in Hr'; [| reflexivity | reflexivity].
  destruct Hr' as [r [Hr [-> E]]]. rewrite Hs' in E. rewrite <- E.
  destruct (cols_B r Hr (eq_sym E)) as [Hf [Hb [Hq Hsh]]]. cbn. auto.
Qed.

Lemma sum_Q_Hmaks (l' : Q) :
  l' == l -> transform_sum col_Q (frame_Hmaks df) l' = sum_R (map col_Q S).
Proof.
  intros Hl. unfold transform_sum. rewrite (@group_Qeq (frame_Hmaks df) _ _ Hl).
  fold (transform_sum col_Q (frame_Hmaks df) l).
  rewrite (@transform_sum_cases col_Q 0 (frame_Hmaks df) l)
    by (intros r Hr Hs; apply (cols_Hmaks r Hr Hs)).
  rewrite (proj1 rows_Hmaks). lra.
Qed.

Lemma rows_Q : sector_rows (frame_Q df) l = S /\ INR (Summa_count (frame_Q df) l) = k.
Proof.
  unfold frame_Q. rewrite sector_rows_assign, Summa_count_assign; auto.
  apply rows_Hmaks.
Qed.

Lemma cols_Q :
  Summa_cols (frame_Q df) l (sum_R (map col_F S)) (sum_R (map col_B S))
             (sum_R (map col_Q S)).
Proof.
  intros r' Hr' Hs'. unfold frame_Q in Hr'.
  apply assign_group in Hr'; [| reflexivity | reflexivity].
  destruct Hr' as [r [Hr [-> E]]]. rewrite Hs' in E. rewrite <- E.
  destruct (cols_Hmaks r Hr (eq_sym E)) as [Hf [Hb [_ Hsh]]].
  apply group_In in Hr. destruct Hr as [_ Hl].
  cbn. rewrite (@sum_Q_Hmaks _ Hl). auto.
Qed.

Lemma k_nonneg : (0 <= k)%R.
Proof. apply pos_INR. Qed.

(** The three quotients: the doubling of the sums by the aggregate rows
    already assigned cancels. *)
Lemma value_Hsr_eq :
  value_Hsr df l = pd_div (sum_R (map col_F S)) (sum_R (map col_B S)).
Proof.
  unfold value_Hsr.
  rewrite (@transform_sum_cases col_F (sum_R (map col_F S)) (frame_B df) l)
    by (intros r Hr Hs; apply (cols_B r Hr Hs)).
  rewrite (@transform_sum_cases col_B (sum_R (map col_B S)) (frame_B df) l)
    by (intros r Hr Hs; apply (cols_B r Hr Hs)).
  destruct rows_B as [-> ->].
  rewrite <- (@pd_div_scale (1 + k) (sum_R (map col_F S)) (sum_R (map col_B S)))
    by (pose proof k_nonneg; lra).
  f_equal; lra.
Qed.

Lemma value_V_eq :
  value_V df l = pd_div (sum_R (map col_Q S)) (sum_R (map col_F S)).
Proof.
  unfold value_V.
  rewrite (@transform_sum_cases col_Q (sum_R (map col_Q S)) (frame_Q df) l)
    by (intros r Hr Hs; apply (cols_Q r Hr Hs)).
  rewrite (@transform_sum_cases col_F (sum_R (map col_F S)) (frame_Q df) l)
    by (intros r Hr Hs; apply (cols_Q r Hr Hs)).
  destruct rows_Q as [-> ->].
  rewrite <- (@pd_div_scale (1 + k) (sum_R (map col_Q S)) (sum_R (map col_F S)))
    by (pose proof k_nonneg; lra).
  f_equal; lra.
Qed.

Lemma value_Shezi_eq :
  value_Shezi df l
  = pd_div (sum_R (map col_Shezi S)) (INR (List.length S) + k - 1).
Proof.
  unfold value_Shezi.
  rewrite (@transform_sum_cases col_Shezi 0 (frame_Q df) l)
    by (intros r Hr Hs; apply (cols_Q r Hr Hs)).
  unfold transform_count. rewrite group_length, plus_INR.
  destruct rows_Q as [-> ->]. f_equal; lra.
Qed.

End Frames.

Lemma assign_has (set : row -> R -> row) (vals : Q -> R) (D : list row) (r : row) :
  (forall r a, UV (set r a) = UV r) ->
  (forall r a, Uchastok (set r a) = Uchastok r) ->
  In r D -> is_Summa r = true ->
  exists r', In r' (assign set vals D) /\ is_Summa r' = true /\ UV r' = UV r.
Proof.
  intros HUV HU Hr Hs. exists (set r (vals (UV r))). split; [| split].
  - unfold assign. apply in_map_iff. exists r. rewrite Hs. auto.
  - unfold is_Summa in *. rewrite HU. exact Hs.
  - apply HUV.
Qed.

(** Every aggregate row of the frame has its row in the filled table. *)
Lemma fill_Summa_has (df : list row) (r : row) :
  In r df -> is_Summa r = true ->
  exists a, In a (fill_Summa df) /\ h_Uchastok a = Summa /\ h_UV a = UV r.
Proof.
  intros Hr Hs.
  destruct (@assign_has set_F (transform_sum col_F df) df r
              ltac:(reflexivity) ltac:(reflexivity) Hr Hs) as [r1 [H1 [Hs1 E1]]].
  destruct (@assign_has set_B (transform_sum col_B (frame_F df)) (frame_F df) r1
              ltac:(reflexivity) ltac:(reflexivity) H1 Hs1) as [r2 [H2 [Hs2 E2]]].
  destruct (@assign_has set_Hmaks (transform_max col_Hmaks (frame_B df)) (frame_B df) r2
              ltac:(reflexivity) ltac:(reflexivity) H2 Hs2) as [r3 [H3 [Hs3 E3]]].
  destruct (@assign_has set_Q (transform_sum col_Q (frame_Hmaks df)) (frame_Hmaks df) r3
              ltac:(reflexivity) ltac:(reflexivity) H3 Hs3) as [r4 [H4 [Hs4 E4]]].
  eexists. split; [unfold fill_Summa; apply in_map_iff; exists r4; split;
                   [reflexivity | exact H4] |].
  rewrite Hs4. cbn [h_Uchastok h_UV]. split; [| congruence].
  unfold is_Summa in Hs4. apply String.eqb_eq in Hs4. exact Hs4.
Qed.

(** The aggregate rows of a filled table, on a frame whose aggregate rows
    were rows of zeros. *)
Lemma fill_Summa_row (df : list row) (a : hydraulic_row) :
  (forall r, In r df -> is_Summa r = true -> r = zero_row (UV r)) ->
  In a (fill_Summa df) -> h_Uchastok a = Summa ->
  let S := sector_rows df (h_UV a) in
  h_F a = sum_R (map col_F S)
  /\ h_B a = sum_R (map col_B S)
  /\ h_Q a = sum_R (map col_Q S)
  /\ h_Hsr a = fillna0 (pd_div (sum_R (map col_F S)) (sum_R (map col_B S)))
  /\ h_V a = fillna0 (pd_div (sum_R (map col_Q S)) (sum_R (map col_F S)))
  /\ h_Shezi a = fillna0 (pd_div (sum_R (map col_Shezi S))
                                 (INR (List.length S)
                                  + INR (Summa_count df (h_UV a)) - 1)).
Proof.
  intros Hz Ha Hn. unfold fill_Summa in Ha. apply in_map_iff in Ha.
  destruct Ha as [r [Ea Hr]].
  assert (Hs : is_Summa r = true).
  { unfold is_Summa. apply String.eqb_eq. rewrite <- Hn, <- Ea.
    destruct (is_Summa r); reflexivity. }
  rewrite Hs in Ea. subst a. cbn [h_F h_B h_Q h_Hsr h_V h_Shezi h_UV].
  assert (Hg : In r (group (frame_Q df) (UV r))).
  { unfold group. apply filter_In. split; [exact Hr |].
    apply Qeq_bool_iff. reflexivity. }
  destruct (@cols_Q df Hz (UV r) r Hg Hs) as [Hf [Hb [Hq _]]].
  rewrite (@value_Hsr_eq df Hz (UV r)), (@value_V_eq df Hz (UV r)),
    (@value_Shezi_eq df Hz (UV r)).
  auto 7.
Qed.

Lemma pd_div_0_0 : pd_div 0 0 = NaN.
Proof.
  unfold pd_div. destruct (Req_dec_T 0 0) as [_ | H]; [| contradiction]. reflexivity.
Qed.

Lemma pd_div_defined (a b : R) : b <> 0%R -> pd_div a b = Num (a / b).
Proof.
  intros H. unfold pd_div. destruct (Req_dec_T b 0); [contradiction | reflexivity].
Qed.

(** C3, as the code has it.  In a built rating table whose sectors do not
    bear the name of the aggregate row, the aggregate row of every level has
    F, B and Q equal to the sums over the sector rows of the level;
    Hср = ΣF/ΣB where ΣB is not zero and V = ΣQ/ΣF where ΣF is not zero;
    Shezi is the mean of the Shezi of the sector rows where the level has one
    aggregate row and at least one sector row; and on a level with no sector
    row, as the initial one, the three quotients are 0/0, which [fillna(0)]
    turns into 0. *)
Theorem aggregate_rows_of_built_table
        (OVERFLOW : bool) (CALC_TYPE : Z) (chunk_list : list Q -> Z -> list (list Q))
        (self : Morfostvor.t) (fuel : nat) (table : list hydraulic_row) :
  hydraulic_table OVERFLOW CALC_TYPE chunk_list self fuel = Some (Ok table) ->
  (forall s, In s (Morfostvor.sectors self) -> ProfileSector.name s <> Summa) ->
  exists df,
    calculate_rows OVERFLOW CALC_TYPE chunk_list self fuel = Some (Ok df)
    /\ table = fill_Summa df
    /\ forall a, In a table -> h_Uchastok a = Summa ->
         let S := sector_rows df (h_UV a) in
         let SF := sum_R (map col_F S) in
         let SB := sum_R (map col_B S) in
         let SQ := sum_R (map col_Q S) in
         let SShezi := sum_R (map col_Shezi S) in
         h_F a = SF /\ h_B a = SB /\ h_Q a = SQ
         /\ h_Hsr a = fillna0 (pd_div SF SB)
         /\ h_V a = fillna0 (pd_div SQ SF)
         /\ (SB <> 0%R -> h_Hsr a = Num (SF / SB))
         /\ (SF <> 0%R -> h_V a = Num (SQ / SF))
         /\ (Summa_count df (h_UV a) = 1%nat -> S <> [] ->
             h_Shezi a = Num (SShezi / INR (List.length S)))
         /\ (S = [] ->
             h_Hsr a = Num 0 /\ h_V a = Num 0
             /\ (Summa_count df (h_UV a) = 1%nat -> h_Shezi a = Num 0)).
Proof.
  unfold hydraulic_table. intros Ht Hnames.
  destruct (calculate_rows OVERFLOW CALC_TYPE chunk_list self fuel)
    as [[df | | |] |] eqn:E; try discriminate.
  injection Ht as <-. exists df. split; [reflexivity |]. split; [reflexivity |].
  intros a Ha Hn.
  assert (Hz : forall r, In r df -> is_Summa r = true -> r = zero_row (UV r)).
  { intros r Hr Hs. apply (@built_row_Summa self r Hnames); [| exact Hs].
    pose proof (calculate_rows_built _ _ _ _ _ E) as Hall.
    rewrite Forall_forall in Hall. apply Hall. exact Hr. }
  destruct (@fill_Summa_row df a Hz Ha Hn) as [HF [HB [HQ [HH [HV HS]]]]].
  cbv zeta. split; [exact HF |]. split; [exact HB |]. split; [exact HQ |].
  split; [exact HH |]. split; [exact HV |].
  split; [intros Hnz; rewrite HH, pd_div_defined by exact Hnz; reflexivity |].
  split; [intros Hnz; rewrite HV, pd_div_defined by exact Hnz; reflexivity |].
  split.
  - intros Hk Hne. rewrite HS, Hk.
    replace (INR (List.length (sector_rows df (h_UV a))) + INR 1 - 1)%R
      with (INR (List.length (sector_rows df (h_UV a)))) by (cbn; lra).
    rewrite pd_div_defined; [reflexivity |].
    apply not_0_INR. destruct (sector_rows df (h_UV a)); [contradiction | discriminate].
  - intros Hnil. rewrite HH, HV, HS, Hnil. cbn [map sum_R fold_right List.length INR].
    rewrite pd_div_0_0. split; [reflexivity |]. split; [reflexivity |].
    intros ->. replace (0 + INR 1 - 1)%R with 0%R by (cbn; lra).
    rewrite pd_div_0_0. reflexivity.
Qed.

Lemma two_sectors_names :
  forall s, In s (Morfostvor.sectors two_sectors) -> ProfileSector.name s <> Summa.
Proof. intros s [<- | [<- | []]]; discriminate. Qed.

Lemma aggregate_rows_of_built_table_witness :
  exists table df,
    hydraulic_table true 1 chunk_halves two_sectors 1 = Some (Ok table)
    /\ table = fill_Summa df
    /\ forall a, In a table -> h_Uchastok a = Summa ->
         h_F a = sum_R (map col_F (sector_rows df (h_UV a)))
         /\ h_Q a = sum_R (map col_Q (sector_rows df (h_UV a))).
Proof.
  destruct two_sectors_rows as [r0 [r1 [Hrows _]]].
  assert (Ht : hydraulic_table true 1 chunk_halves two_sectors 1
               = Some (Ok (fill_Summa [zero_row 8; r0; r1;
                                       zero_row (round2 (900 # 100))]))).
  { unfold hydraulic_table. rewrite Hrows. reflexivity. }
  destruct (@aggregate_rows_of_built_table true 1 chunk_halves two_sectors 1 _
              Ht two_sectors_names) as [df [_ [Et H]]].
  eexists _, df. split; [exact Ht |]. split; [exact Et |].
  intros a Ha Hn. destruct (H a Ha Hn) as [HF [_ [HQ _]]]. split; assumption.
Defined.

(** C3 as stated fails at the initial level.  In the table built on the two
    sectors the level 8 has the synthetic aggregate row only: the quotient
    ΣF/ΣB and the mean of the sector rows' Shezi are 0/0, not numbers, while
    the row holds 0 in Hср and in Shezi. *)
Lemma initial_level_quotients_are_filled :
  exists df a,
    calculate_rows true 1 chunk_halves two_sectors 1 = Some (Ok df)
    /\ In a (fill_Summa df) /\ h_Uchastok a = Summa /\ h_UV a = 8
    /\ sector_rows df 8 = []
    /\ h_Hsr a = Num 0
    /\ pd_div (sum_R (map col_F (sector_rows df 8)))
              (sum_R (map col_B (sector_rows df 8))) = NaN
    /\ h_Shezi a = Num 0
    /\ pd_div (sum_R (map col_Shezi (sector_rows df 8)))
              (INR (List.length (sector_rows df 8))) = NaN.
Proof.
  destruct two_sectors_rows as [r0 [r1 [Hrows [H0 [H1 [H2 H3]]]]]].
  set (df := [zero_row 8; r0; r1; zero_row (round2 (900 # 100))]) in *.
  assert (Hz : forall r, In r df -> is_Summa r = true -> r = zero_row (UV r)).
  { intros r Hr Hs. apply (@built_row_Summa two_sectors r two_sectors_names); [| exact Hs].
    pose proof (calculate_rows_built _ _ _ _ _ Hrows) as Hall.
    rewrite Forall_forall in Hall. apply Hall. exact Hr. }
  assert (Hg : group df 8 = [zero_row 8]).
  { unfold group, df. cbn [filter]. rewrite H2, H3. reflexivity. }
  assert (HS : sector_rows df 8 = []).
  { unfold sector_rows. rewrite Hg. reflexivity. }
  assert (Hk : Summa_count df 8 = 1%nat).
  { unfold Summa_count. rewrite Hg. reflexivity. }
  destruct (@fill_Summa_has df (zero_row 8) (or_introl eq_refl) eq_refl)
    as [a [Ha [Hn Hl]]].
  cbn [UV zero_row] in Hl.
  destruct (@fill_Summa_row df a Hz Ha Hn) as [_ [_ [_ [HH [_ HSh]]]]].
  rewrite Hl, HS in HH. rewrite Hl, HS, Hk in HSh.
  cbn [map sum_R fold_right List.length INR] in HH, HSh.
  replace (0 + 1 - 1)%R with 0%R in HSh by lra.
  rewrite pd_div_0_0 in HH, HSh.
  exists df, a. rewrite HS. cbn [map sum_R fold_right List.length INR].
  rewrite pd_div_0_0. auto 10.
Qed.

(** * Further properties of the code *)

(** ** [Calculation]: regimes and depth bands *)

(** A value of [config.CALC_TYPE] other than 1, 2 and 3 ends the calculation
    with [sys.exit(1)], whatever the depth, the slope and the area, once the
    coefficient has been computed (a roughness that is not zero). *)
Theorem unknown_regime_exits (CALC_TYPE : Z) (n i h a : R) :
  CALC_TYPE <> 1%Z -> CALC_TYPE <> 2%Z -> CALC_TYPE <> 3%Z -> n <> 0%R ->
  Calculation_init CALC_TYPE n i h a = SysExit 1.
Proof.
  intros H1 H2 H3 Hn. unfold Calculation_init.
  destruct (Req_dec_T n 0); [contradiction |].
  assert (Hv : forall C, velocity CALC_TYPE i h C = SysExit 1).
  { intros C. unfold velocity.
    destruct (CALC_TYPE =? 1)%Z eqn:E1; [apply Z.eqb_eq in E1; contradiction |].
    destruct (CALC_TYPE =? 2)%Z eqn:E2; [apply Z.eqb_eq in E2; contradiction |].
    destruct (CALC_TYPE =? 3)%Z eqn:E3; [apply Z.eqb_eq in E3; contradiction |].
    reflexivity. }
  destruct (if if Rle_dec 0 h then if Rle_dec h 3 then true else false else false
            then __shezi_pavlovskij n h else __shezi_pavlovskij_zheleznjakov n h);
    rewrite Hv; reflexivity.
Qed.

Lemma unknown_regime_exits_witness :
  Calculation_init 4 0.03 2 1.75 17.5 = SysExit 1.
Proof.
  apply unknown_regime_exits; [lia | lia | lia | lra].
Defined.

(** The depth decides the formula of the coefficient: a calculation that
    returns used Pavlovskij's formula on a depth between 0 and 3 and the
    Pavlovskij-Zheleznjakov formula on a depth above 3; on a negative depth,
    which falls to the second formula, the logarithm is not a number and no
    calculation with real values is returned. *)
Theorem formula_by_depth (CALC_TYPE : Z) (n i h a : R) (c : Calculation) :
  Calculation_init CALC_TYPE n i h a = Ok (Some c) ->
  ((0 <= h <= 3)%R /\ type__ c = Pavlovskij)
  \/ ((3 < h)%R /\ type__ c = PavlovskijZheleznjakov).
Proof.
  unfold Calculation_init. intros H.
  destruct (Req_dec_T n 0); [discriminate |].
  destruct (Rle_dec 0 h) as [H0 | H0]; [destruct (Rle_dec h 3) as [H3 | H3] |].
  - left. split; [lra |].
    destruct (__shezi_pavlovskij n h) as [C |]; peel H;
      [destruct a0; [injection H as <-; reflexivity | discriminate] | discriminate].
  - right. split; [lra |].
    destruct (__shezi_pavlovskij_zheleznjakov n h) as [C |]; peel H;
      [destruct a0; [injection H as <-; reflexivity | discriminate] | discriminate].
  - exfalso. unfold __shezi_pavlovskij_zheleznjakov, np_log10 in H.
    destruct (Rlt_dec 0 h); [lra |]. peel H. discriminate.
Qed.

Lemma formula_by_depth_witness :
  exists c, Calculation_init 1 0.03 2 1.75 17.5 = Ok (Some c)
            /\ type__ c = Pavlovskij.
Proof.
  destruct (@Calculation_water 0.03 2 1.75 17.5) as [c [p [Hc _]]];
    [lra | lra | lra | left; lra |].
  exists c. split; [exact Hc |].
  destruct (formula_by_depth _ _ _ _ _ Hc) as [[_ Ht] | [Hh _]]; [exact Ht | lra].
Defined.

(** In the two debris-flow regimes the velocity and the discharge do not
    depend on the roughness: two calculations that differ in the roughness
    only return the same [v] and [q]. *)
Theorem debris_flow_velocity_ignores_roughness
        (CALC_TYPE : Z) (n1 n2 i h a : R) (c1 c2 : Calculation) :
  CALC_TYPE = 2%Z \/ CALC_TYPE = 3%Z ->
  Calculation_init CALC_TYPE n1 i h a = Ok (Some c1) ->
  Calculation_init CALC_TYPE n2 i h a = Ok (Some c2) ->
  v c1 = v c2 /\ q c1 = q c2.
Proof.
  intros HCT H1 H2.
  assert (Hq1 := Calculation_q _ _ _ _ _ H1).
  assert (Hq2 := Calculation_q _ _ _ _ _ H2).
  assert (Hv : forall n c, Calculation_init CALC_TYPE n i h a = Ok (Some c) ->
                           velocity CALC_TYPE i h 0 = Ok (Some (v c))).
  { clear - HCT. intros n c H. unfold Calculation_init in H.
    destruct (Req_dec_T n 0); [discriminate |].
    destruct (if if Rle_dec 0 h then if Rle_dec h 3 then true else false else false
              then __shezi_pavlovskij n h else __shezi_pavlovskij_zheleznjakov n h)
      as [C |]; [| peel H; discriminate].
    assert (E : velocity CALC_TYPE i h C = velocity CALC_TYPE i h 0).
    { unfold velocity. destruct HCT as [-> | ->]; reflexivity. }
    rewrite E in H. destruct (velocity CALC_TYPE i h 0) as [[v_ |] | | |];
      cbn [bind] in H; try discriminate.
    injection H as <-. reflexivity. }
  pose proof (Hv _ _ H1) as E1. pose proof (Hv _ _ H2) as E2.
  rewrite E1 in E2. injection E2 as E.
  split; [exact E |]. rewrite Hq1, Hq2, E. reflexivity.
Qed.

Lemma Calculation_sediment (n i h a : R) :
  (0 < n)%R -> (0 < h <= 3)%R -> (0 < i)%R ->
  exists c, Calculation_init 2 n i h a = Ok (Some c).
Proof.
  intros Hn [Hh0 Hh3] Hi. unfold Calculation_init.
  destruct (Req_dec_T n 0); [lra |].
  destruct (Rle_dec 0 h); [| lra]. destruct (Rle_dec h 3); [| lra].
  unfold __shezi_pavlovskij, np_sqrt.
  destruct (Rlt_dec n 0); [lra |]. destruct (Rlt_dec h 0); [lra |].
  unfold velocity, np_pow. cbn [Z.eqb Pos.eqb].
  destruct (Rlt_dec 0 h); [| lra].
  destruct (Rlt_dec 0 (i / 1000)); [| lra].
  cbn [bind]. eauto.
Qed.

Lemma debris_flow_velocity_ignores_roughness_witness :
  exists c1 c2,
    Calculation_init 2 0.03 2 1 10 = Ok (Some c1)
    /\ Calculation_init 2 0.05 2 1 10 = Ok (Some c2)
    /\ v c1 = v c2 /\ q c1 = q c2.
Proof.
  destruct (@Calculation_sediment 0.03 2 1 10) as [c1 H1]; [lra | lra | lra |].
  destruct (@Calculation_sediment 0.05 2 1 10) as [c2 H2]; [lra | lra | lra |].
  exists c1, c2. split; [exact H1 |]. split; [exact H2 |].
  exact (@debris_flow_velocity_ignores_roughness 2 0.03 0.05 2 1 10 c1 c2
           (or_introl eq_refl) H1 H2).
Defined.


(** ** [get_q_max] and [get_min_sector] *)

Lemma q_max_fold (l : list (string * Q)) (q0 : Q) :
  let r := fold_left (fun q_max p => if Qle_bool q_max (snd p) then snd p else q_max)
                     l q0 in
  q0 <= r /\ (forall p, In p l -> snd p <= r)
  /\ (r = q0 \/ exists p, In p l /\ snd p = r).
Proof.
  revert q0. induction l as [| p l IH]; intros q0; cbn.
  - split; [Lqa.lra |]. split; [tauto | now left].
  - destruct (Qle_bool q0 (snd p)) eqn:E.
    + apply Qle_bool_iff in E. destruct (IH (snd p)) as [H1 [H2 H3]].
      split; [Lqa.lra |]. split.
      * intros p' [<- | Hp']; [exact H1 | apply H2; exact Hp'].
      * right. destruct H3 as [-> | [p' [Hp' <-]]]; eauto.
    + assert (Hlt : snd p < q0).
      { apply Qnot_le_lt. intros Hle. apply Qle_bool_iff in Hle. congruence. }
      destruct (IH q0) as [H1 [H2 H3]].
      split; [exact H1 |]. split.
      * intros p' [<- | Hp']; [Lqa.lra | apply H2; exact Hp'].
      * destruct H3 as [-> | [p' [Hp' <-]]]; [now left | right; eauto].
Qed.

(** [get_q_max] returns the largest discharge of the list of probabilities,
    which is the discharge of one of its entries. *)
Theorem get_q_max_is_the_largest (self : Morfostvor.t) (q_max : Q) :
  get_q_max self = Ok q_max ->
  (exists p, In p (Morfostvor.probability self) /\ snd p = q_max)
  /\ forall p, In p (Morfostvor.probability self) -> snd p <= q_max.
Proof.
  unfold get_q_max. intros H.
  destruct (Morfostvor.probability self) as [| p0 l] eqn:E; [discriminate |].
  change (Py.get (p0 :: l) 0%Z) with (Ok p0) in H. cbn [bind] in H.
  injection H as H.
  destruct (q_max_fold (p0 :: l) (snd p0)) as [H1 [H2 H3]].
  cbn [fold_left] in H, H1, H2, H3. rewrite H in H1, H2, H3.
  split; [| exact H2].
  destruct H3 as [-> | H3]; [exists p0; split; [now left | reflexivity] | exact H3].
Qed.

Lemma get_q_max_is_the_largest_witness :
  get_q_max three_probabilities = Ok 50
  /\ (exists p, In p (Morfostvor.probability three_probabilities) /\ snd p = 50)
  /\ forall p, In p (Morfostvor.probability three_probabilities) -> snd p <= 50.
Proof.
  split; [reflexivity |].
  apply (@get_q_max_is_the_largest three_probabilities 50). reflexivity.
Defined.

(** The state of the loop of [get_min_sector] after the sectors [pre]: the
    best sector so far is a sector of the list at the position recorded, no
    sector of [pre] lies lower and the sectors before it lie higher. *)
Lemma get_min_sector_from_spec (all : list ProfileSector.t) :
  forall (l pre : list ProfileSector.t) (kb : nat) (sb : ProfileSector.t) k s,
    all = pre ++ l ->
    nth_error all kb = Some sb ->
    (pre = [] \/ exists mb, Py.min (snd (ProfileSector.coord sb)) = Ok mb) ->
    (forall mb s' m', Py.min (snd (ProfileSector.coord sb)) = Ok mb ->
                      In s' pre -> Py.min (snd (ProfileSector.coord s')) = Ok m' ->
                      mb <= m') ->
    (forall mb j s' m', Py.min (snd (ProfileSector.coord sb)) = Ok mb ->
                        (j < kb)%nat -> nth_error all j = Some s' ->
                        Py.min (snd (ProfileSector.coord s')) = Ok m' -> mb < m') ->
    get_min_sector_from l (Z.of_nat (List.length pre)) (Z.of_nat kb, sb) = Ok (k, s) ->
    exists kn, k = Z.of_nat kn /\ nth_error all kn = Some s
      /\ (all = [] \/ exists m, Py.min (snd (ProfileSector.coord s)) = Ok m)
      /\ (forall m s' m', Py.min (snd (ProfileSector.coord s)) = Ok m ->
                          In s' all -> Py.min (snd (ProfileSector.coord s')) = Ok m' ->
                          m <= m')
      /\ (forall m j s' m', Py.min (snd (ProfileSector.coord s)) = Ok m ->
                            (j < kn)%nat -> nth_error all j = Some s' ->
                            Py.min (snd (ProfileSector.coord s')) = Ok m' -> m < m').
Proof.
  induction l as [| s1 l IH]; intros pre kb sb k s Hall Hnth Hex Hle Hlt H.
  - cbn in H. injection H as <- <-. rewrite app_nil_r in Hall. subst pre.
    exists kb. split; [reflexivity |]. split; [exact Hnth |].
    split; [destruct Hex; auto |]. split; assumption.
  - cbn [get_min_sector_from snd] in H.
    destruct (Py.min (snd (ProfileSector.coord s1))) as [m1 | | |] eqn:E1;
      cbn [bind] in H; try discriminate.
    destruct (Py.min (snd (ProfileSector.coord sb))) as [mb | | |] eqn:Eb;
      cbn [bind] in H; try discriminate.
    assert (Hnth1 : nth_error all (List.length pre) = Some s1).
    { rewrite Hall, nth_error_app2, Nat.sub_diag by lia. reflexivity. }
    assert (Hall' : all = (pre ++ [s1]) ++ l) by (rewrite <- app_assoc; exact Hall).
    replace (Z.of_nat (List.length pre) + 1)%Z
      with (Z.of_nat (List.length (pre ++ [s1]))) in H
      by (rewrite length_app; cbn; lia).
    destruct (Qlt_le_dec m1 mb) as [Hnew | Hold].
    + apply (IH (pre ++ [s1]) (List.length pre) s1 k s Hall' Hnth1); [| | | exact H].
      * right. eauto.
      * intros m s' m' Hm Hs' Hm'. rewrite E1 in Hm. injection Hm as <-.
        apply in_app_iff in Hs'. destruct Hs' as [Hs' | [<- | []]].
        -- pose proof (Hle mb s' m' eq_refl Hs' Hm'). Lqa.lra.
        -- rewrite E1 in Hm'. injection Hm' as <-. Lqa.lra.
      * intros m j s' m' Hm Hj Hs' Hm'. rewrite E1 in Hm. injection Hm as <-.
        assert (Hin : In s' pre).
        { rewrite Hall, nth_error_app1 in Hs' by exact Hj.
          eapply nth_error_In; eassumption. }
        pose proof (Hle mb s' m' eq_refl Hin Hm'). Lqa.lra.
    + apply (IH (pre ++ [s1]) kb sb k s Hall' Hnth); [| | | exact H].
      * right. eauto.
      * intros m s' m' Hm Hs' Hm'. rewrite Eb in Hm. injection Hm as <-.
        apply in_app_iff in Hs'. destruct Hs' as [Hs' | [<- | []]].
        -- apply (Hle mb s' m' eq_refl Hs' Hm').
        -- rewrite E1 in Hm'. injection Hm' as <-. exact Hold.
      * intros m j s' m' Hm. rewrite Eb in Hm. apply Hlt. exact Hm.
Qed.

(** [get_min_sector] returns, with its position in the list, the first of
    the sectors whose bottom is the lowest: no sector has a lower vertex and
    every sector before it lies strictly higher. *)
Theorem get_min_sector_is_first_lowest (self : Morfostvor.t) k s :
  get_min_sector self = Ok (k, s) ->
  exists kn m,
    k = Z.of_nat kn /\ nth_error (Morfostvor.sectors self) kn = Some s
    /\ Py.min (snd (ProfileSector.coord s)) = Ok m
    /\ (forall s' m', In s' (Morfostvor.sectors self) ->
                      Py.min (snd (ProfileSector.coord s')) = Ok m' -> m <= m')
    /\ (forall j s' m', (j < kn)%nat ->
                        nth_error (Morfostvor.sectors self) j = Some s' ->
                        Py.min (snd (ProfileSector.coord s')) = Ok m' -> m < m').
Proof.
  unfold get_min_sector. intros H.
  destruct (Morfostvor.sectors self) as [| s0 l] eqn:E; [discriminate |].
  change (Py.get (s0 :: l) 0%Z) with (Ok s0) in H. cbn [bind] in H.
  destruct (@get_min_sector_from_spec (s0 :: l) (s0 :: l) [] 0%nat s0 k s)
    as [kn [Hk [Hn [Hm [Hle Hlt]]]]]; try reflexivity; try exact H.
  - now left.
  - intros mb s' m' _ [].
  - intros mb j s' m' _ Hj. lia.
  - destruct Hm as [Hm | [m Hm]]; [discriminate |].
    exists kn, m. split; [exact Hk |]. split; [exact Hn |]. split; [exact Hm |].
    split.
    + intros s' m'. apply Hle. exact Hm.
    + intros j s' m'. apply Hlt. exact Hm.
Qed.

Lemma get_min_sector_is_first_lowest_witness :
  get_min_sector two_sectors = Ok (0%Z, ruslo)
  /\ exists kn m,
       0%Z = Z.of_nat kn /\ nth_error (Morfostvor.sectors two_sectors) kn = Some ruslo
       /\ Py.min (snd (ProfileSector.coord ruslo)) = Ok m
       /\ (forall s' m', In s' (Morfostvor.sectors two_sectors) ->
                         Py.min (snd (ProfileSector.coord s')) = Ok m' -> m <= m')
       /\ (forall j s' m', (j < kn)%nat ->
                           nth_error (Morfostvor.sectors two_sectors) j = Some s' ->
                           Py.min (snd (ProfileSector.coord s')) = Ok m' -> m < m').
Proof.
  split; [reflexivity |].
  apply (@get_min_sector_is_first_lowest two_sectors 0%Z ruslo). reflexivity.
Defined.
(** ** [WaterSection.boundary]: the two searches *)

(** The interpolation of [boundary] returns a point of the segment. *)
Lemma interp1d_between (a1 a2 b1 b2 v lo hi : Q) :
  (a1 <= v <= a2 \/ a2 <= v <= a1) ->
  lo <= b1 <= hi -> lo <= b2 <= hi ->
  exists f, interp1d a1 a2 b1 b2 v = Ok f /\ lo <= f <= hi.
Proof.
  intros Hv H1 H2. unfold interp1d.
  assert (G : forall xa ya xb yb, xa <= v <= xb -> lo <= ya <= hi -> lo <= yb <= hi ->
            exists f,
              (if Qlt_le_dec v xa then Raise ValueError
               else if Qlt_le_dec xb v then Raise ValueError
               else if Qle_bool xb v then Ok yb
               else if Qeq_bool xa v then Ok ya
               else Ok ((yb - ya) / (xb - xa) * (v - xa) + ya)) = Ok f
              /\ lo <= f <= hi).
  { clear. intros xa ya xb yb Hv Ha Hb.
    destruct (Qlt_le_dec v xa); [Lqa.lra |].
    destruct (Qlt_le_dec xb v); [Lqa.lra |].
    destruct (Qle_bool xb v) eqn:E1; [eauto |].
    destruct (Qeq_bool xa v) eqn:E2; [eauto |].
    assert (Hxb : v < xb).
    { apply Qnot_le_lt. intros H. apply Qle_bool_iff in H. congruence. }
    assert (Hxa : xa < v).
    { apply Qeq_bool_neq in E2. destruct Hv as [Hv _].
      apply Qle_lteq in Hv. destruct Hv as [Hv | Hv]; [exact Hv | contradiction]. }
    eexists. split; [reflexivity |].
    set (t := (v - xa) / (xb - xa)).
    assert (Ht0 : 0 <= t).
    { unfold t. apply Qle_shift_div_l; Lqa.lra. }
    assert (Ht1 : t <= 1).
    { unfold t. apply Qle_shift_div_r; Lqa.lra. }
    assert (E : (yb - ya) / (xb - xa) * (v - xa) + ya == (1 - t) * ya + t * yb).
    { unfold t. field. Lqa.lra. }
    rewrite E.
    assert (P1 : 0 <= (1 - t) * (ya - lo)) by (apply Qmult_le_0_compat; Lqa.lra).
    assert (P2 : 0 <= t * (yb - lo)) by (apply Qmult_le_0_compat; Lqa.lra).
    assert (P3 : 0 <= (1 - t) * (hi - ya)) by (apply Qmult_le_0_compat; Lqa.lra).
    assert (P4 : 0 <= t * (hi - yb)) by (apply Qmult_le_0_compat; Lqa.lra).
    split; Lqa.lra. }
  destruct (Qle_bool a1 a2) eqn:E.
  - apply Qle_bool_iff in E. apply G; auto. destruct Hv; Lqa.lra.
  - assert (a2 < a1).
    { apply Qnot_le_lt. intros H. apply Qle_bool_iff in H. congruence. }
    apply G; auto. destruct Hv; Lqa.lra.
Qed.

Lemma range_down_S (k : nat) :
  Py.range_down (Z.of_nat (S k)) = Z.of_nat (S k) :: Py.range_down (Z.of_nat k).
Proof.
  unfold Py.range_down.
  replace (Z.to_nat (Z.of_nat (S k) + 1)) with (S (Z.to_nat (Z.of_nat k + 1))) by lia.
  cbn [seq map]. rewrite Z.sub_0_r. f_equal.
  rewrite <- seq_shift, map_map. apply map_ext. intros a. lia.
Qed.

Lemma range_down_0 : Py.range_down 0 = [0%Z].
Proof. reflexivity. Qed.

Lemma range_cons (s e : Z) :
  (s < e)%Z -> Py.range s e = s :: Py.range (s + 1) e.
Proof.
  intros H. unfold Py.range.
  replace (Z.to_nat (e - s)) with (S (Z.to_nat (e - (s + 1)))) by lia.
  cbn [seq map]. rewrite Z.add_0_r. f_equal.
  rewrite <- seq_shift, map_map. apply map_ext. intros a. lia.
Qed.

Lemma interp1d_defined (a1 a2 b1 b2 v : Q) :
  (a1 <= v <= a2 \/ a2 <= v <= a1) -> exists f, interp1d a1 a2 b1 b2 v = Ok f.
Proof.
  intros Hv. destruct (Qlt_le_dec b1 b2) as [H | H].
  - destruct (@interp1d_between a1 a2 b1 b2 v b1 b2 Hv) as [f [Hf _]];
      [split; Lqa.lra | split; Lqa.lra | eauto].
  - destruct (@interp1d_between a1 a2 b1 b2 v b2 b1 Hv) as [f [Hf _]];
      [split; Lqa.lra | split; Lqa.lra | eauto].
Qed.

Lemma Qle_bool_false (a b : Q) : b < a -> Qle_bool a b = false.
Proof.
  intros H. destruct (Qle_bool a b) eqn:E; [| reflexivity].
  apply Qle_bool_iff in E. Lqa.lra.
Qed.

Lemma nth_y (y : list Q) (j : nat) :
  (j < List.length y)%nat -> exists v, nth_error y j = Some v.
Proof.
  intros H. destruct (nth_error y j) as [v |] eqn:E; [eauto |].
  apply nth_error_None in E. lia.
Qed.

Section Searches.

Variables (x y : list Q) (water_level : Q).

Hypothesis Hlen : List.length x = List.length y.

Lemma nth_x (j : nat) (v : Q) :
  nth_error y j = Some v -> exists a, nth_error x j = Some a.
Proof.
  intros H. destruct (nth_error x j) as [a |] eqn:E; [eauto |].
  apply nth_error_None in E.
  assert (j < List.length y)%nat by (apply nth_error_Some; congruence). lia.
Qed.

(** The search to the left from the first vertex. *)
Lemma left_search_0 (ys : Q) :
  nth_error y 0 = Some ys -> ys <= water_level ->
  exists bx,
    search (left_step x y water_level 0%Z) (Py.range_down 0%Z)
      = Ok (Some (bx, water_level, 0%Z))
    /\ nth_error x 0 = Some bx.
Proof.
  intros Hy Hle. destruct (nth_x _ Hy) as [x0 Hx]. exists x0.
  split; [| exact Hx].
  rewrite range_down_0. cbn [search]. unfold left_step, py_and.
  pose proof (get_nat _ _ Hy) as Gy. pose proof (get_nat _ _ Hx) as Gx.
  cbn [Z.of_nat] in Gy, Gx.
  cbn [Z.eqb bind]. rewrite Gy. cbn [bind].
  rewrite Qle_bool_true by exact Hle. rewrite Gx. reflexivity.
Qed.

(** The search to the left from a later vertex [s], when it has come to
    the wet vertex [i]: it stops at a vertex before [i], and every vertex
    passed is wet. *)
Lemma left_search_S (s : nat) :
  (1 <= s)%nat ->
  forall (i : nat) (yi : Q),
    (1 <= i)%nat -> nth_error y i = Some yi -> yi <= water_level ->
    exists p bx,
      search (left_step x y water_level (Z.of_nat s)) (Py.range_down (Z.of_nat i))
        = Ok (Some (bx, water_level, Z.of_nat p))
      /\ (p < i)%nat /\ left_found x y water_level p bx
      /\ forall j v, (p < j <= i)%nat -> nth_error y j = Some v -> v <= water_level.
Proof.
  intros Hs. induction i as [| k IH]; intros yi Hi Hy Hle; [lia |].
  assert (Hk : (k < List.length y)%nat).
  { assert (S k < List.length y)%nat by (apply nth_error_Some; congruence). lia. }
  destruct (@nth_y y k Hk) as [yk Hyk].
  destruct (nth_x _ Hy) as [xi Hxi]. destruct (nth_x _ Hyk) as [xk Hxk].
  rewrite range_down_S. cbn [search]. unfold left_step at 1. unfold py_and.
  replace (Z.of_nat (S k) - 1)%Z with (Z.of_nat k) by lia.
  destruct (Z.of_nat s =? 0)%Z eqn:E0; [apply Z.eqb_eq in E0; lia |].
  cbn [bind].
  rewrite (get_nat _ _ Hyk), (get_nat _ _ Hy), (get_nat _ _ Hxk), (get_nat _ _ Hxi).
  cbn [bind].
  destruct (Qlt_le_dec yk water_level) as [Hlow | Hhigh].
  - rewrite (Qle_bool_false Hlow). cbn [bind].
    destruct k as [| k'].
    + cbn [Z.of_nat Z.eqb bind]. rewrite Qle_bool_true by Lqa.lra. cbn [bind].
      exists 0%nat, xk. split; [reflexivity |]. split; [lia |].
      split; [left; auto |].
      intros j v Hj Hv. assert (j = 1%nat) by lia. subst j.
      rewrite Hy in Hv. injection Hv as <-. exact Hle.
    + destruct (Z.of_nat (S k') =? 0)%Z eqn:E1; [apply Z.eqb_eq in E1; lia |].
      cbn [bind].
      destruct (IH yk ltac:(lia) Hyk ltac:(Lqa.lra)) as [p [bx [H1 [H2 [H3 H4]]]]].
      exists p, bx. split; [exact H1 |]. split; [lia |]. split; [exact H3 |].
      intros j v Hj Hv. destruct (Nat.eq_dec j (S (S k'))) as [-> | Hne].
      * rewrite Hy in Hv. injection Hv as <-. exact Hle.
      * apply (H4 j v); [lia | exact Hv].
  - rewrite Qle_bool_true by exact Hhigh. cbn [bind].
    rewrite Qle_bool_true by exact Hle.
    destruct (@interp1d_defined yk yi xk xi water_level) as [f Hf];
      [right; split; assumption |].
    rewrite Hf. cbn [bind].
    exists k, f. split; [reflexivity |]. split; [lia |]. split.
    + right. exists yk, yi, xk, xi. repeat split; assumption.
    + intros j v Hj Hv. assert (j = S k) by lia. subst j.
      rewrite Hy in Hv. injection Hv as <-. exact Hle.
Qed.

(** The search to the right when it has come to the wet vertex [i], [d]
    segments before the last vertex [n]. *)
Lemma right_search (n : nat) :
  List.length y = S n ->
  forall (d i : nat) (yi : Q),
    (i + d = n)%nat -> (1 <= d)%nat ->
    nth_error y i = Some yi -> yi <= water_level ->
    exists p bx,
      search (right_step x y water_level) (Py.range (Z.of_nat i) (Py.len y - 1)%Z)
        = Ok (Some (bx, water_level, Z.of_nat p))
      /\ (i <= p <= n)%nat /\ right_found x y water_level p bx
      /\ forall j v, (i <= j <= p)%nat -> nth_error y j = Some v -> v <= water_level.
Proof.
  intros Hn. induction d as [| d' IH]; intros i yi Hid Hd Hy Hle; [lia |].
  assert (Hi1 : (S i < List.length y)%nat) by lia.
  destruct (@nth_y y (S i) Hi1) as [y1 Hy1].
  destruct (nth_x _ Hy) as [xi Hxi]. destruct (nth_x _ Hy1) as [x1 Hx1].
  rewrite range_cons by (unfold Py.len; lia).
  cbn [search]. unfold right_step at 1. unfold py_and.
  replace (Z.of_nat i + 1)%Z with (Z.of_nat (S i)) by lia.
  rewrite (get_nat _ _ Hy), (get_nat _ _ Hy1), (get_nat _ _ Hxi), (get_nat _ _ Hx1).
  cbn [bind]. rewrite Qle_bool_true by exact Hle.
  destruct (Qlt_le_dec y1 water_level) as [Hlow | Hhigh].
  - rewrite (Qle_bool_false Hlow). cbn [bind].
    destruct d' as [| d''].
    + assert (Hl : (Py.len y - 1)%Z = Z.of_nat (S i)) by (unfold Py.len; lia).
      assert (Hlx : (Py.len x - 1)%Z = Z.of_nat (S i)) by (unfold Py.len; lia).
      rewrite Hl, Hlx, Z.eqb_refl. cbn [bind].
      rewrite (get_nat _ _ Hy1), (get_nat _ _ Hx1). cbn [bind].
      rewrite Qle_bool_true by Lqa.lra. cbn [bind].
      exists (S i), x1. split; [reflexivity |]. split; [lia |]. split.
      * left. split; [lia | exact Hx1].
      * intros j v Hj Hv. destruct (Nat.eq_dec j i) as [-> | Hne].
        -- rewrite Hy in Hv. injection Hv as <-. exact Hle.
        -- assert (j = S i) by lia. subst j.
           rewrite Hy1 in Hv. injection Hv as <-. Lqa.lra.
    + destruct (Z.of_nat (S i) =? Py.len y - 1)%Z eqn:E;
        [apply Z.eqb_eq in E; unfold Py.len in E; lia |].
      cbn [bind].
      destruct (IH (S i) y1 ltac:(lia) ltac:(lia) Hy1 ltac:(Lqa.lra))
        as [p [bx [H1 [H2 [H3 H4]]]]].
      exists p, bx. split; [exact H1 |]. split; [lia |]. split; [exact H3 |].
      intros j v Hj Hv. destruct (Nat.eq_dec j i) as [-> | Hne].
      * rewrite Hy in Hv. injection Hv as <-. exact Hle.
      * apply (H4 j v); [lia | exact Hv].
  - rewrite Qle_bool_true by exact Hhigh. cbn [bind].
    destruct (@interp1d_defined yi y1 xi x1 water_level) as [f Hf];
      [left; split; assumption |].
    rewrite Hf. cbn [bind].
    exists i, f. split; [reflexivity |]. split; [lia |]. split.
    + right. exists yi, y1, xi, x1. repeat split; assumption.
    + intros j v Hj Hv. assert (j = i) by lia. subst j.
      rewrite Hy in Hv. injection Hv as <-. exact Hle.
Qed.

End Searches.

Section BoundaryFound.

Variables (x y : list Q) (water_level : Q).

Hypothesis Hlen : List.length x = List.length y.

(** From a start vertex [s] that is wet, [boundary] records two points: one
    at or left of [s], one at or right of it, and every vertex between the
    two recorded positions is wet. *)
Lemma boundary_found (start_point : option (Z * Q)) (s : nat) (ys : Q) :
  nth_error y s = Some ys -> ys <= water_level ->
  match start_point with
  | Some p => fst p = Z.of_nat s
  | None => exists m, Py.min y = Ok m /\ Py.index y m = Ok (Z.of_nat s)
  end ->
  exists pl pr bl br,
    boundary x y water_level start_point
      = Ok [mk_water_boundary [bl; br] [water_level; water_level]
                              [Z.of_nat pl; Z.of_nat pr] 0%Z]
    /\ (pl <= s <= pr)%nat /\ (pr < List.length y)%nat
    /\ left_found x y water_level pl bl /\ right_found x y water_level pr br
    /\ (forall j v, (pl < j <= pr)%nat -> nth_error y j = Some v -> v <= water_level)
    /\ ((pl < s)%nat \/ (s = 0%nat /\ nth_error x 0 = Some bl)).
Proof.
  intros Hy Hle Hstart.
  assert (Hs : (s < List.length y)%nat) by (apply nth_error_Some; congruence).
  destruct (Py.min y) as [m | | |] eqn:Em;
    try (destruct y; [cbn in Hs; lia | discriminate]).
  assert (Hm : m <= ys) by (apply (min_le _ Em), (nth_error_In _ _ Hy)).
  assert (Hsp : (sp <- match start_point with
                       | Some p => Ok p
                       | None => m0 <- Ok m ;; k <- Py.index y m0 ;; Ok (k, m0)
                       end ;; Ok (fst sp)) = Ok (Z.of_nat s)).
  { destruct start_point as [p |]; cbn [bind].
    - rewrite Hstart. reflexivity.
    - destruct Hstart as [m' [Hm' Hidx]]. injection Hm' as <-.
      rewrite Hidx. reflexivity. }
  unfold boundary. rewrite Em.
  destruct (match start_point with
            | Some p => Ok p
            | None => m0 <- Ok m ;; k <- Py.index y m0 ;; Ok (k, m0)
            end) as [sp | | |]; cbn [bind] in Hsp |- *; try discriminate.
  injection Hsp as Hsp. rewrite Hsp.
  destruct (Qlt_le_dec water_level m) as [Habs | _]; [Lqa.lra |].
  (* the search to the left *)
  assert (Hleft : exists pl bl,
             search (left_step x y water_level (Z.of_nat s)) (Py.range_down (Z.of_nat s))
               = Ok (Some (bl, water_level, Z.of_nat pl))
             /\ (pl <= s)%nat /\ left_found x y water_level pl bl
             /\ (forall j v, (pl < j <= s)%nat -> nth_error y j = Some v ->
                             v <= water_level)
             /\ ((pl < s)%nat \/ (s = 0%nat /\ nth_error x 0 = Some bl))).
  { destruct s as [| s'].
    - destruct (@left_search_0 x y water_level Hlen ys Hy Hle) as [bl [H1 H2]].
      exists 0%nat, bl. split; [exact H1 |]. split; [lia |].
      split; [left; auto |]. split; [intros j v Hj; lia | right; auto].
    - destruct (@left_search_S x y water_level Hlen (S s') ltac:(lia)
                  (S s') ys ltac:(lia) Hy Hle) as [p [bx [H1 [H2 [H3 H4]]]]].
      exists p, bx. split; [exact H1 |]. split; [lia |]. split; [exact H3 |].
      split; [exact H4 | left; exact H2]. }
  destruct Hleft as [pl [bl [Hl1 [Hl2 [Hl3 [Hl4 Hl5]]]]]].
  rewrite Hl1. cbn [bind add_found append_boundary water_boundary_x
                    water_boundary_y water_boundary_points water_boundary_tag app].
  unfold py_and.
  destruct (Nat.eq_dec (S s) (List.length y)) as [Hlast | Hmid].
  - (* the start vertex is the last one *)
    assert (Hl : (Py.len y - 1)%Z = Z.of_nat s) by (unfold Py.len; lia).
    destruct (@nth_x x y Hlen s ys Hy) as [xs Hxs].
    rewrite Hl, range_nil, Z.eqb_refl. cbn [search bind add_found].
    rewrite (get_nat _ _ Hy), (get_nat _ _ Hxs). cbn [bind].
    rewrite Qle_bool_true by exact Hle. cbn [bind append_boundary water_boundary_x
      water_boundary_y water_boundary_points water_boundary_tag app].
    exists pl, s, bl, xs. split; [reflexivity |]. split; [lia |]. split; [lia |].
    split; [exact Hl3 |]. split; [left; auto |]. split; [exact Hl4 | exact Hl5].
  - assert (En : exists n, List.length y = S n)
      by (exists (Nat.pred (List.length y)); lia).
    destruct En as [n En].
    destruct (@right_search x y water_level Hlen n En (n - s)%nat s ys
                ltac:(lia) ltac:(lia) Hy Hle) as [pr [br [Hr1 [Hr2 [Hr3 Hr4]]]]].
    rewrite Hr1. cbn [bind add_found append_boundary water_boundary_x
      water_boundary_y water_boundary_points water_boundary_tag app].
    destruct (Z.of_nat s =? Py.len y - 1)%Z eqn:E;
      [apply Z.eqb_eq in E; unfold Py.len in E; lia |].
    cbn [bind app].
    exists pl, pr, bl, br. split; [reflexivity |]. split; [lia |]. split; [lia |].
    split; [exact Hl3 |]. split; [exact Hr3 |]. split; [| exact Hl5].
    intros j v Hj Hv. destruct (le_lt_dec j s) as [Hjs | Hjs].
    + apply (Hl4 j v); [lia | exact Hv].
    + apply (Hr4 j v); [lia | exact Hv].
Qed.

End BoundaryFound.

Lemma insert_1 {A} (a : A) (l : list A) (v : A) :
  Py.insert (a :: l) 1%Z v = a :: v :: l.
Proof.
  unfold Py.insert.
  assert (E : Py.clamp (a :: l) 1%Z = 1%nat).
  { unfold Py.clamp, Py.len. cbn [Z.ltb Z.compare List.length]. lia. }
  rewrite E. reflexivity.
Qed.

Lemma max_ge (l : list Q) (m : Q) :
  Py.max l = Ok m -> forall v, In v l -> v <= m.
Proof.
  destruct l as [| a t]; cbn [Py.max]; intros H; [discriminate |].
  injection H as <-.
  assert (G : forall t a, a <= fold_left (fun m v => if Qlt_le_dec m v then v else m) t a
                          /\ forall v, In v t ->
                               v <= fold_left (fun m v => if Qlt_le_dec m v then v else m) t a).
  { clear. induction t as [| b t IH]; intros a; cbn [fold_left].
    - split; [Lqa.lra | intros v []].
    - destruct (Qlt_le_dec a b) as [H | H].
      + destruct (IH b) as [H1 H2]. split; [Lqa.lra |].
        intros v [<- | Hv]; [exact H1 | apply H2; exact Hv].
      + destruct (IH a) as [H1 H2]. split; [exact H1 |].
        intros v [<- | Hv]; [Lqa.lra | apply H2; exact Hv]. }
  destruct (G t a) as [H1 H2].
  intros v [<- | Hv]; [exact H1 | apply H2; exact Hv].
Qed.

(** The fields that [_calculate_parameters] derives from the boundary and
    from the wetted polyline it stores. *)
Lemma _calculate_parameters_depths (OVERFLOW : bool) (x y : list Q) (water_level : Q)
      self b w :
  _calculate_parameters OVERFLOW x y water_level self b = Ok w ->
  Py.max (map (fun yi => water_level - yi) (water_section_y w)) = Ok (max_depth w)
  /\ average_depth w =
       (let avg := if Qlt_le_dec 0 (area w) then
                     if Qlt_le_dec 0 (width w) then area w / width w else 0
                   else 0 in
        if Qeq_bool avg 0 then epsilon else avg).
Proof.
  unfold _calculate_parameters. intros H. peel H; subst w; cbn; auto.
Qed.

Section SectionFound.

Variables (OVERFLOW : bool) (x y : list Q) (water_level : Q).

Hypothesis Hlen : List.length x = List.length y.

(** [_calculate_parameters] on a boundary of two points at the positions
    [pl <= pr]: the section is built, between the two points, with the first
    vertex put in after the left point when the bank tested lies under the
    level. *)
Lemma calculate_parameters_found self (pl pr : nat) (bl br y0 bank : Q) :
  (pl <= pr)%nat -> (pr < List.length y)%nat ->
  nth_error y 0 = Some y0 ->
  nth_error y (if OVERFLOW then pl else 0%nat) = Some bank ->
  exists w,
    _calculate_parameters OVERFLOW x y water_level self
      (mk_water_boundary [bl; br] [water_level; water_level]
                         [Z.of_nat pl; Z.of_nat pr] 0%Z) = Ok w
    /\ width w = br - bl
    /\ water_section_y w
       = water_level
           :: (if Qlt_le_dec bank water_level then [y0] else [])
           ++ Py.slice y (Z.of_nat pl + 1)%Z (Z.of_nat pr + 1)%Z ++ [water_level].
Proof.
  intros Hp Hpr Hy0 Hbank.
  destruct (@nth_x x y Hlen 0%nat y0 Hy0) as [x0 Hx0].
  pose proof (get_nat _ _ Hy0) as Gy0. pose proof (get_nat _ _ Hx0) as Gx0.
  cbn [Z.of_nat] in Gy0, Gx0.
  assert (Gbank : (if OVERFLOW then Py.get y (Z.of_nat pl) else Py.get y 0%Z) = Ok bank).
  { destruct OVERFLOW; [apply get_nat; exact Hbank | rewrite Gy0; congruence]. }
  unfold _calculate_parameters.
  cbn [water_boundary_x water_boundary_y water_boundary_points water_boundary_tag].
  change (Py.get [bl; br] 0%Z) with (Ok bl).
  change (Py.get [bl; br] 1%Z) with (Ok br).
  change (Py.get [water_level; water_level] 0%Z) with (Ok water_level).
  change (Py.get [water_level; water_level] 1%Z) with (Ok water_level).
  change (Py.get [Z.of_nat pl; Z.of_nat pr] 0%Z) with (Ok (Z.of_nat pl)).
  change (Py.get [Z.of_nat pl; Z.of_nat pr] 1%Z) with (Ok (Z.of_nat pr)).
  cbn [bind]. rewrite !insert_0, !insert_len. cbn [app]. rewrite Gbank. cbn [bind].
  change (1 <? 0)%Z with false. unfold py_and. cbn [bind].
  destruct (Qlt_le_dec bank water_level) as [Hb | Hb].
  - rewrite Gx0, Gy0. cbn [bind]. rewrite !insert_1. cbn [bind fst snd map Py.max].
    eexists. split; [reflexivity |]. cbn [width water_section_y]. split; reflexivity.
  - cbn [bind fst snd map Py.max app].
    eexists. split; [reflexivity |]. cbn [width water_section_y]. split; reflexivity.
Qed.

End SectionFound.

(** The elements of [l[a + 1 : b + 1]] are the elements at the positions
    after [a] up to [b]. *)
Lemma slice_nth {A} (l : list A) (a b : nat) (v : A) :
  (b < List.length l)%nat ->
  In v (Py.slice l (Z.of_nat a + 1)%Z (Z.of_nat b + 1)%Z)
  <-> exists j, (a < j <= b)%nat /\ nth_error l j = Some v.
Proof.
  intros Hb. unfold Py.slice.
  replace (Z.of_nat a + 1)%Z with (Z.of_nat (S a)) by lia.
  replace (Z.of_nat b + 1)%Z with (Z.of_nat (S b)) by lia.
  rewrite (@clamp_nat _ l (S b)) by lia.
  split.
  - intros Hin. apply In_nth_error in Hin. destruct Hin as [k Hk].
    assert (Hkb : (k < S b - Py.clamp l (Z.of_nat (S a)))%nat).
    { assert (Hlt : (k < List.length (firstn (S b - Py.clamp l (Z.of_nat (S a)))
                                        (skipn (Py.clamp l (Z.of_nat (S a))) l)))%nat)
        by (apply nth_error_Some; congruence).
      rewrite length_firstn in Hlt. lia. }
    assert (Ha : (S a <= List.length l)%nat).
    { destruct (le_lt_dec (S a) (List.length l)) as [H | H]; [exact H |].
      exfalso. unfold Py.clamp, Py.len in Hkb.
      destruct (Z.of_nat (S a) <? 0)%Z; lia. }
    rewrite (@clamp_nat _ l (S a) Ha) in Hk, Hkb.
    rewrite nth_error_firstn in Hk.
    destruct (Nat.ltb_spec k (S b - S a)) as [_ | Hge]; [| lia].
    rewrite nth_error_skipn in Hk.
    exists (S a + k)%nat. split; [lia | exact Hk].
  - intros [j [Hj Hv]].
    assert (Ha : (S a <= List.length l)%nat) by lia.
    rewrite (@clamp_nat _ l (S a) Ha).
    apply (nth_error_In _ (j - S a)).
    rewrite nth_error_firstn.
    destruct (Nat.ltb_spec (j - S a) (S b - S a)) as [_ | Hge]; [| lia].
    rewrite nth_error_skipn. replace (S a + (j - S a))%nat with j by lia. exact Hv.
Qed.

Section WetStart.

Variables (OVERFLOW : bool) (x y : list Q) (water_level : Q).

Hypothesis Hlen : List.length x = List.length y.

(** The section built from a wet start vertex. *)
Lemma section_found (start_point : option (Z * Q)) (s : nat) (ys : Q) :
  nth_error y s = Some ys -> ys <= water_level ->
  match start_point with
  | Some p => fst p = Z.of_nat s
  | None => exists m, Py.min y = Ok m /\ Py.index y m = Ok (Z.of_nat s)
  end ->
  exists w pl pr bl br y0 bank,
    WaterSection_init OVERFLOW x y water_level start_point = Ok w
    /\ (pl <= s <= pr)%nat /\ (pr < List.length y)%nat
    /\ left_found x y water_level pl bl /\ right_found x y water_level pr br
    /\ (forall j v, (pl < j <= pr)%nat -> nth_error y j = Some v -> v <= water_level)
    /\ ((pl < s)%nat \/ (s = 0%nat /\ nth_error x 0 = Some bl))
    /\ width w = br - bl
    /\ nth_error y 0 = Some y0
    /\ nth_error y (if OVERFLOW then pl else 0%nat) = Some bank
    /\ water_section_y w
       = water_level
           :: (if Qlt_le_dec bank water_level then [y0] else [])
           ++ Py.slice y (Z.of_nat pl + 1)%Z (Z.of_nat pr + 1)%Z ++ [water_level].
Proof.
  intros Hy Hle Hstart.
  destruct (@boundary_found x y water_level Hlen start_point s ys Hy Hle Hstart)
    as [pl [pr [bl [br [Hb [Hp [Hpr [Hl [Hr [Hwet Hls]]]]]]]]]].
  assert (H0 : (0 < List.length y)%nat) by lia.
  destruct (@nth_y y 0%nat H0) as [y0 Hy0].
  assert (Hbk : ((if OVERFLOW then pl else 0%nat) < List.length y)%nat)
    by (destruct OVERFLOW; lia).
  destruct (@nth_y y _ Hbk) as [bank Hbank].
  destruct (@calculate_parameters_found OVERFLOW x y water_level Hlen
              WaterSection_defaults pl pr bl br y0 bank ltac:(lia) Hpr Hy0 Hbank)
    as [w [Hw [Hwidth Hwsy]]].
  exists w, pl, pr, bl, br, y0, bank.
  split; [| repeat (split; [assumption |]); assumption].
  unfold WaterSection_init. rewrite Hb. cbn [bind].
  change (1 <? Py.len [_])%Z with false. cbv iota.
  change (Py.get [?b] 0%Z) with (Ok b). cbn [bind]. rewrite Hw. reflexivity.
Qed.

(** Every vertex of such a section lies at or under the level, and is the
    level itself or a vertex of the polyline. *)
Lemma section_found_wet (pl pr : nat) (bl y0 bank : Q) (wsy : list Q) :
  (pr < List.length y)%nat ->
  left_found x y water_level pl bl ->
  (forall j v, (pl < j <= pr)%nat -> nth_error y j = Some v -> v <= water_level) ->
  nth_error y 0 = Some y0 ->
  nth_error y (if OVERFLOW then pl else 0%nat) = Some bank ->
  wsy = water_level
          :: (if Qlt_le_dec bank water_level then [y0] else [])
          ++ Py.slice y (Z.of_nat pl + 1)%Z (Z.of_nat pr + 1)%Z ++ [water_level] ->
  forall v, In v wsy -> v <= water_level /\ (v = water_level \/ In v y).
Proof.
  intros Hpr Hl Hwet Hy0 Hbank -> v Hin.
  destruct Hin as [<- | Hin]; [split; [Lqa.lra | now left] |].
  apply in_app_iff in Hin. destruct Hin as [Hin | Hin].
  - destruct (Qlt_le_dec bank water_level) as [Hb | Hb]; [| destruct Hin].
    destruct Hin as [<- | []].
    split; [| right; eapply nth_error_In; exact Hy0].
    destruct OVERFLOW; [| rewrite Hy0 in Hbank; injection Hbank as ->; Lqa.lra].
    destruct Hl as [[-> Hx0] | [y1 [y2 [x1 [x2 [H1 [_ [_ [_ [Hhigh _]]]]]]]]]].
    + rewrite Hy0 in Hbank. injection Hbank as ->. Lqa.lra.
    + rewrite H1 in Hbank. injection Hbank as ->. Lqa.lra.
  - apply in_app_iff in Hin. destruct Hin as [Hin | [<- | []]];
      [| split; [Lqa.lra | now left]].
    apply (slice_nth y pl v Hpr) in Hin. destruct Hin as [j [Hj Hv]].
    split; [apply (Hwet j v Hj Hv) | right; eapply nth_error_In; exact Hv].
Qed.

End WetStart.

(** ** [WaterSection]: the section of a well-formed polyline *)

(** With as many abscissas as elevations and a level that is not below the
    lowest vertex, the construction from the default start point always
    returns a section: the two searches of [boundary] each find a point, and
    no [IndexError] ends the program with code 2.  The section lies between
    the bottom and the level, and its greatest depth is the depth over the
    lowest vertex. *)
Theorem section_built_above_the_bottom
        (OVERFLOW : bool) (x y : list Q) (water_level m : Q) :
  List.length x = List.length y -> Py.min y = Ok m -> m <= water_level ->
  exists w,
    WaterSection_init OVERFLOW x y water_level None = Ok w
    /\ max_depth w == water_level - m
    /\ Forall (fun v => m <= v <= water_level) (water_section_y w).
Proof.
  intros Hlen Hm Hle.
  destruct (index_min _ Hm) as [s [ys [Hidx [Hys [Heq _]]]]].
  assert (Hys_le : ys <= water_level) by Lqa.lra.
  destruct (@section_found OVERFLOW x y water_level Hlen None s ys Hys Hys_le
              (ex_intro _ m (conj Hm Hidx)))
    as [w [pl [pr [bl [br [y0 [bank
         [Hw [Hp [Hpr [Hl [Hr [Hwet [Hls [Hwidth [Hy0 [Hbank Hwsy]]]]]]]]]]]]]]]]].
  pose proof (@section_found_wet OVERFLOW x y water_level pl pr bl y0 bank
                (water_section_y w) Hpr Hl Hwet Hy0 Hbank Hwsy) as Hall.
  exists w. split; [exact Hw |].
  assert (Hbetween : forall v, In v (water_section_y w) -> m <= v <= water_level).
  { intros v Hv. destruct (Hall v Hv) as [H1 [-> | H2]]; [Lqa.lra |].
    split; [apply (min_le _ Hm v H2) | exact H1]. }
  split; [| apply Forall_forall; exact Hbetween].
  destruct (WaterSection_init_inv _ _ _ _ _ Hw) as [b [_ Hcalc]].
  destruct (_calculate_parameters_depths _ _ _ _ _ _ Hcalc) as [Hmax _].
  (* no depth exceeds the depth over the lowest vertex *)
  assert (Hup : max_depth w <= water_level - m).
  { apply max_In in Hmax. apply in_map_iff in Hmax.
    destruct Hmax as [v [<- Hv]]. destruct (Hbetween v Hv). Lqa.lra. }
  (* and a vertex at the lowest elevation belongs to the section *)
  assert (Hlow : exists v, In v (water_section_y w) /\ v == m).
  { destruct Hls as [Hlt | [-> Hx0]].
    - exists ys. split; [| exact Heq]. rewrite Hwsy. right.
      apply in_or_app. right. apply in_or_app. left.
      apply (slice_nth y pl ys Hpr). exists s. split; [lia | exact Hys].
    - rewrite Hy0 in Hys. injection Hys as ->.
      assert (Hpl0 : (pl = 0)%nat) by lia. subst pl.
      assert (Hbk : bank = ys) by (destruct OVERFLOW; congruence). subst bank.
      destruct (Qlt_le_dec ys water_level) as [Hb | Hb].
      + exists ys. split; [| exact Heq]. rewrite Hwsy. right. now left.
      + exists water_level. split; [rewrite Hwsy; now left | Lqa.lra]. }
  destruct Hlow as [v [Hv Hvm]].
  assert (Hge : water_level - v <= max_depth w).
  { apply (max_ge _ Hmax). apply in_map_iff. exists v. auto. }
  Lqa.lra.
Qed.

Lemma section_built_above_the_bottom_witness :
  exists w,
    WaterSection_init false trapezoid_x trapezoid_y 9 None = Ok w
    /\ max_depth w == 9 - 8
    /\ Forall (fun v => 8 <= v <= 9) (water_section_y w).
Proof.
  apply (@section_built_above_the_bottom false trapezoid_x trapezoid_y 9 8).
  - reflexivity.
  - reflexivity.
  - Lqa.lra.
Defined.

(** A level above every vertex wets the whole polyline: the two boundary
    points are the first and the last vertex, and the width is the distance
    between them. *)
Theorem level_above_every_vertex_spans_the_polyline
        (OVERFLOW : bool) (x y : list Q) (water_level x0 xn : Q) :
  List.length x = List.length y ->
  nth_error x 0 = Some x0 -> nth_error x (Nat.pred (List.length x)) = Some xn ->
  (forall v, In v y -> v < water_level) ->
  exists w,
    WaterSection_init OVERFLOW x y water_level None = Ok w
    /\ width w = xn - x0.
Proof.
  intros Hlen Hx0 Hxn Hall.
  destruct (Py.min y) as [m | | |] eqn:Hm;
    try (destruct y; [destruct x; discriminate | discriminate]).
  destruct (index_min _ Hm) as [s [ys [Hidx [Hys [Heq _]]]]].
  assert (Hys_le : ys <= water_level).
  { pose proof (Hall ys (nth_error_In _ _ Hys)). Lqa.lra. }
  destruct (@section_found OVERFLOW x y water_level Hlen None s ys Hys Hys_le
              (ex_intro _ m (conj Hm Hidx)))
    as [w [pl [pr [bl [br [y0 [bank
         [Hw [Hp [Hpr [Hl [Hr [Hwet [Hls [Hwidth [Hy0 [Hbank Hwsy]]]]]]]]]]]]]]]]].
  exists w. split; [exact Hw |]. rewrite Hwidth.
  assert (Hbl : bl = x0).
  { destruct Hl as [[_ Hb] | [y1 [y2 [x1 [x2 [H1 [_ [_ [_ [Hhigh _]]]]]]]]]].
    - congruence.
    - pose proof (Hall y1 (nth_error_In _ _ H1)). Lqa.lra. }
  assert (Hbr : br = xn).
  { destruct Hr as [[Hlast Hb] | [y1 [y2 [x1 [x2 [_ [H2 [_ [_ [_ [Hhigh _]]]]]]]]]]].
    - replace (Nat.pred (List.length x)) with pr in Hxn by lia. congruence.
    - pose proof (Hall y2 (nth_error_In _ _ H2)). Lqa.lra. }
  rewrite Hbl, Hbr. reflexivity.
Qed.

Lemma level_above_every_vertex_spans_the_polyline_witness :
  exists w,
    WaterSection_init false trapezoid_x trapezoid_y 11 None = Ok w
    /\ width w = 15 - 0.
Proof.
  apply (@level_above_every_vertex_spans_the_polyline
           false trapezoid_x trapezoid_y 11 0 15).
  - reflexivity.
  - reflexivity.
  - reflexivity.
  - intros v Hv. cbn in Hv.
    destruct Hv as [<- | [<- | [<- | [<- | []]]]]; Lqa.lra.
Defined.

(** The level that [boundary] accepts: not below the lowest vertex. *)
Lemma boundary_Ok_level (x y : list Q) (water_level : Q) start_point bs :
  boundary x y water_level start_point = Ok bs ->
  exists m, Py.min y = Ok m /\ m <= water_level.
Proof.
  unfold boundary. intros H.
  destruct (match start_point with
            | Some p => Ok p
            | None => m <- Py.min y ;; k <- Py.index y m ;; Ok (k, m)
            end); cbn [bind] in H; try discriminate.
  destruct (Py.min y) as [m | | |]; cbn [bind] in H; try discriminate.
  destruct (Qlt_le_dec water_level m); [discriminate |]. eauto.
Qed.

(** On a polyline whose abscissas do not decrease, the width of the section
    is not negative and does not exceed the distance from the first vertex
    to the last. *)
Theorem width_within_the_span
        (OVERFLOW : bool) (x y : list Q) (water_level x0 xn : Q) (w : WaterSection) :
  List.length x = List.length y ->
  (forall i j a b, (i <= j)%nat ->
                   nth_error x i = Some a -> nth_error x j = Some b -> a <= b) ->
  nth_error x 0 = Some x0 -> nth_error x (Nat.pred (List.length x)) = Some xn ->
  WaterSection_init OVERFLOW x y water_level None = Ok w ->
  0 <= width w <= xn - x0.
Proof.
  intros Hlen Hsorted Hx0 Hxn Hinit.
  destruct (WaterSection_init_inv _ _ _ _ _ Hinit) as [b [Hb _]].
  destruct (boundary_Ok_level _ _ _ _ Hb) as [m [Hm Hle]].
  destruct (index_min _ Hm) as [s [ys [Hidx [Hys [Heq _]]]]].
  assert (Hys_le : ys <= water_level) by Lqa.lra.
  destruct (@section_found OVERFLOW x y water_level Hlen None s ys Hys Hys_le
              (ex_intro _ m (conj Hm Hidx)))
    as [w' [pl [pr [bl [br [y0 [bank
         [Hw [Hp [Hpr [Hl [Hr [Hwet [Hls [Hwidth [Hy0 [Hbank Hwsy]]]]]]]]]]]]]]]]].
  rewrite Hinit in Hw. injection Hw as <-. rewrite Hwidth.
  destruct (@nth_x x y Hlen s ys Hys) as [xs Hxs].
  (* the left point lies between the first vertex and the start vertex *)
  assert (Hleft : x0 <= bl <= xs).
  { destruct Hls as [Hlt | [-> Hb0]].
    - destruct Hl as [[_ Hb0] | [y1 [y2 [x1 [x2 [H1 [H2 [H3 [H4 [Hh [Hl Hi]]]]]]]]]]].
      + assert (bl = x0) by congruence. subst bl.
        split; [Lqa.lra | apply (Hsorted 0%nat s); [lia | assumption | assumption]].
      + pose proof (Hsorted pl (S pl) x1 x2 ltac:(lia) H3 H4) as H12.
        destruct (@interp1d_between y1 y2 x1 x2 water_level x1 x2) as [f [Hf Hbd]];
          [right; split; assumption | split; Lqa.lra | split; Lqa.lra |].
        rewrite Hi in Hf. injection Hf as <-.
        pose proof (Hsorted 0%nat pl x0 x1 ltac:(lia) Hx0 H3).
        pose proof (Hsorted (S pl) s x2 xs ltac:(lia) H4 Hxs).
        split; Lqa.lra.
    - assert (bl = x0) by congruence. assert (xs = x0) by congruence.
      subst bl xs. split; Lqa.lra. }
  (* the right point lies between the start vertex and the last vertex *)
  assert (Hright : xs <= br <= xn).
  { destruct Hr as [[Hlast Hbn] | [y1 [y2 [x1 [x2 [H1 [H2 [H3 [H4 [Hl' [Hh Hi]]]]]]]]]]].
    - replace (Nat.pred (List.length x)) with pr in Hxn by lia.
      assert (br = xn) by congruence. subst br.
      split; [apply (Hsorted s pr); [lia | assumption | assumption] | Lqa.lra].
    - pose proof (Hsorted pr (S pr) x1 x2 ltac:(lia) H3 H4) as H12.
      destruct (@interp1d_between y1 y2 x1 x2 water_level x1 x2) as [f [Hf Hbd]];
        [left; split; assumption | split; Lqa.lra | split; Lqa.lra |].
      rewrite Hi in Hf. injection Hf as <-.
      assert (HSpr : (S pr < List.length x)%nat) by (apply nth_error_Some; congruence).
      pose proof (Hsorted s pr xs x1 ltac:(lia) Hxs H3).
      pose proof (Hsorted (S pr) (Nat.pred (List.length x)) x2 xn ltac:(lia) H4 Hxn).
      split; Lqa.lra. }
  split; Lqa.lra.
Qed.

Lemma width_within_the_span_witness :
  exists w,
    WaterSection_init false trapezoid_x trapezoid_y 9 None = Ok w
    /\ 0 <= width w <= 15 - 0.
Proof.
  eexists. split; [eval_section |].
  apply (@width_within_the_span false trapezoid_x trapezoid_y 9 0 15).
  - reflexivity.
  - intros i j a b Hij Hi Hj.
    destruct i as [| [| [| [| i]]]]; cbn in Hi;
      try (destruct i; discriminate); injection Hi as <-;
      destruct j as [| [| [| [| j]]]]; cbn in Hj;
      try (destruct j; discriminate); injection Hj as <-;
      try lia; Lqa.lra.
  - reflexivity.
  - reflexivity.
  - eval_section.
Defined.

(** ** [WaterSection]: what every constructed section satisfies *)

Lemma left_step_level (x y : list Q) (water_level : Q) (s i : Z) bx by_ pt :
  left_step x y water_level s i = Ok (Some (bx, by_, pt)) -> by_ = water_level.
Proof.
  unfold left_step. intros H. peel H; congruence.
Qed.

Lemma right_step_level (x y : list Q) (water_level : Q) (i : Z) bx by_ pt :
  right_step x y water_level i = Ok (Some (bx, by_, pt)) -> by_ = water_level.
Proof.
  unfold right_step. intros H. peel H; congruence.
Qed.

Lemma search_level (water_level : Q) (step : Z -> outcome (option (Q * Q * Z))) :
  (forall i bx by_ pt, step i = Ok (Some (bx, by_, pt)) -> by_ = water_level) ->
  forall idx bx by_ pt,
    search step idx = Ok (Some (bx, by_, pt)) -> by_ = water_level.
Proof.
  intros Hstep. induction idx as [| i rest IH]; intros bx by_ pt H; cbn [search] in H.
  - discriminate.
  - destruct (step i) as [[[[bx' by'] pt'] |] | | |] eqn:E; cbn [bind] in H;
      try discriminate.
    + injection H as -> -> ->. apply (Hstep _ _ _ _ E).
    + apply (IH _ _ _ H).
Qed.

Lemma add_found_level (water_level : Q) (b : water_boundary) r :
  Forall (eq water_level) (water_boundary_y b) ->
  (forall bx by_ pt, r = Some (bx, by_, pt) -> by_ = water_level) ->
  Forall (eq water_level) (water_boundary_y (add_found b r))
  /\ water_boundary_tag (add_found b r) = water_boundary_tag b.
Proof.
  intros Hb Hr. destruct r as [[[bx by_] pt] |]; cbn; [| auto].
  split; [| reflexivity].
  apply Forall_app. split; [exact Hb |].
  constructor; [symmetry; apply (Hr bx by_ pt eq_refl) | constructor].
Qed.

(** Every point that [boundary] records lies at the water level, and the
    last element of the group is 0. *)
Lemma boundary_level (x y : list Q) (water_level : Q) start_point b :
  boundary x y water_level start_point = Ok [b] ->
  Forall (eq water_level) (water_boundary_y b) /\ water_boundary_tag b = 0%Z.
Proof.
  unfold boundary. intros H.
  destruct (match start_point with
            | Some p => Ok p
            | None => m <- Py.min y ;; k <- Py.index y m ;; Ok (k, m)
            end) as [sp | | |]; cbn [bind] in H; try discriminate.
  destruct (Py.min y) as [m | | |]; cbn [bind] in H; try discriminate.
  destruct (Qlt_le_dec water_level m); [discriminate |].
  destruct (search (left_step x y water_level (fst sp)) (Py.range_down (fst sp)))
    as [l | | |] eqn:El; cbn [bind] in H; try discriminate.
  destruct (search (right_step x y water_level) (Py.range (fst sp) (Py.len y - 1)%Z))
    as [r | | |] eqn:Er; cbn [bind] in H; try discriminate.
  destruct (@add_found_level water_level (mk_water_boundary [] [] [] 0%Z) l)
    as [Hl1 Hl2]; [constructor | |].
  { intros bx by_ pt ->.
    apply (@search_level water_level _ (@left_step_level x y water_level (fst sp))
             _ _ _ _ El). }
  destruct (@add_found_level water_level
              (add_found (mk_water_boundary [] [] [] 0%Z) l) r Hl1)
    as [Hr1 Hr2].
  { intros bx by_ pt ->.
    apply (@search_level water_level _ (@right_step_level x y water_level)
             _ _ _ _ Er). }
  cbn [water_boundary_tag] in Hl2. rewrite Hl2 in Hr2.
  destruct (py_and (Ok (fst sp =? Py.len y - 1)%Z)
                   (ys <- Py.get y (fst sp) ;; Ok (Qle_bool ys water_level)))
    as [c | | |]; cbn [bind] in H; try discriminate.
  destruct c.
  - destruct (Py.get x (Py.len y - 1)%Z) as [xl | | |]; cbn [bind app] in H;
      try discriminate.
    injection H as <-. cbn [append_boundary water_boundary_y water_boundary_tag].
    split; [| exact Hr2].
    apply Forall_app. split; [exact Hr1 | constructor; [reflexivity | constructor]].
  - cbn [bind app] in H. injection H as <-. split; assumption.
Qed.

(** The first vertex of the section polyline is the first point of the
    boundary. *)
Lemma _calculate_parameters_first (OVERFLOW : bool) (x y : list Q) (water_level : Q)
      self b w :
  _calculate_parameters OVERFLOW x y water_level self b = Ok w ->
  water_boundary_tag b = 0%Z ->
  exists y1, Py.get (water_boundary_y b) 0%Z = Ok y1 /\ In y1 (water_section_y w).
Proof.
  unfold _calculate_parameters. intros H Ht. rewrite Ht in H.
  change (1 <? 0)%Z with false in H. unfold py_and in H.
  peel H.
  all: subst w; cbn [water_section_y].
  exists a1. split; [reflexivity |].
  rewrite !insert_0, !insert_len in E6. cbn [app] in E6.
  destruct (Qlt_le_dec a5 water_level).
  - destruct (Py.get x 0%Z) as [x0 | | |]; cbn [bind] in E6; try discriminate.
    destruct (Py.get y 0%Z) as [y0 | | |]; cbn [bind] in E6; try discriminate.
    rewrite !insert_1 in E6. injection E6 as _ <-. now left.
  - injection E6 as _ <-. now left.
Qed.

(** The section that a construction returns, whatever the start point: the
    mean depth and the hydraulic radius are positive, never zero, so the
    depth that [Calculation] receives is positive; the greatest depth is
    not negative; the perimeter computed is not negative. *)
Theorem section_depths_are_positive
        (OVERFLOW : bool) (x y : list Q) (water_level : Q)
        (start_point : option (Z * Q)) (w : WaterSection) :
  WaterSection_init OVERFLOW x y water_level start_point = Ok w ->
  0 < average_depth w /\ (0 < r_hydraulic w)%R
  /\ 0 <= max_depth w /\ (0 <= w_perimeter w)%R.
Proof.
  intros H. destruct (WaterSection_init_inv _ _ _ _ _ H) as [b [Hb Hcalc]].
  destruct (_calculate_parameters_fields _ _ _ _ _ _ Hcalc) as [_ [Hwp [_ Hrh]]].
  destruct (_calculate_parameters_depths _ _ _ _ _ _ Hcalc) as [Hmax Havg].
  destruct (boundary_level _ _ _ _ Hb) as [Hlevel Htag].
  assert (Heps : 0 < epsilon) by reflexivity.
  split; [| split; [| split]].
  - rewrite Havg. cbv zeta.
    destruct (Qlt_le_dec 0 (area w)) as [Ha | Ha];
      [destruct (Qlt_le_dec 0 (width w)) as [Hw | Hw] |];
      try (change (Qeq_bool 0 0) with true; cbv iota; exact Heps).
    assert (Hpos : 0 < area w / width w) by (apply Qlt_shift_div_l; Lqa.lra).
    destruct (Qeq_bool (area w / width w) 0); [exact Heps | exact Hpos].
  - rewrite Hrh. cbv zeta.
    assert (Heps' : (0 < Q2R epsilon)%R).
    { replace 0%R with (Q2R 0) by (unfold Q2R; cbn; lra). apply Qlt_Rlt. exact Heps. }
    destruct (Qlt_le_dec 0 (area w)) as [Ha | Ha];
      [destruct (Rlt_dec 0 (w_perimeter w)) as [Hp | Hp] |].
    + assert (Hpos : (0 < Q2R (area w) / w_perimeter w)%R).
      { apply Rdiv_lt_0_compat; [| exact Hp].
        replace 0%R with (Q2R 0) by (unfold Q2R; cbn; lra). apply Qlt_Rlt. exact Ha. }
      destruct (Req_dec_T (Q2R (area w) / w_perimeter w) 0); [exact Heps' | exact Hpos].
    + destruct (Req_dec_T 0 0); [exact Heps' | lra].
    + destruct (Req_dec_T 0 0); [exact Heps' | lra].
  - destruct (_calculate_parameters_first _ _ _ _ _ _ Hcalc Htag) as [y1 [Hy1 Hin]].
    apply get_In in Hy1.
    assert (y1 = water_level).
    { symmetry. apply (proj1 (Forall_forall _ _) Hlevel y1 Hy1). }
    subst y1.
    assert (Hge : water_level - water_level <= max_depth w).
    { apply (max_ge _ Hmax). apply in_map_iff. exists water_level. auto. }
    Lqa.lra.
  - rewrite Hwp. apply sqrt_pos.
Qed.

Lemma section_depths_are_positive_witness :
  exists w,
    WaterSection_init false island_x island_y 9 None = Ok w
    /\ 0 < average_depth w /\ (0 < r_hydraulic w)%R
    /\ 0 <= max_depth w /\ (0 <= w_perimeter w)%R.
Proof.
  eexists. split; [eval_section |].
  apply (@section_depths_are_positive false island_x island_y 9 None).
  eval_section.
Defined.

(** ** [calculate]: the turn in overflow mode ends *)

(** A list of positions without repetition, all of them positions of a list
    of [n] elements, has at most [n] elements. *)
Lemma NoDup_range_length (n : nat) (cs : list Z) :
  NoDup cs -> (forall i, In i cs -> (0 <= i < Z.of_nat n)%Z) ->
  (List.length cs <= n)%nat.
Proof.
  intros Hnd Hr.
  assert (Hnd' : NoDup (map Z.to_nat cs)).
  { clear - Hnd Hr. induction Hnd as [| a l Ha Hl IH]; cbn; constructor.
    - intros Hin. apply in_map_iff in Hin. destruct Hin as [b [Hb Hin]].
      assert (a = b).
      { pose proof (Hr a (or_introl eq_refl)). pose proof (Hr b (or_intror Hin)). lia. }
      subst b. contradiction.
    - apply IH. intros i Hi. apply Hr. now right. }
  assert (Hincl : incl (map Z.to_nat cs) (seq 0 n)).
  { intros k Hk. apply in_map_iff in Hk. destruct Hk as [i [<- Hi]].
    apply in_seq. pose proof (Hr i Hi). lia. }
  pose proof (NoDup_incl_length Hnd' Hincl) as H.
  rewrite length_map, length_seq in H. exact H.
Qed.

Section OverflowEnds.

Variables (OVERFLOW : bool) (CALC_TYPE : Z).
Variable chunk_list : list Q -> Z -> list (list Q).
Variable self : Morfostvor.t.
Variables (min_sector : Z * ProfileSector.t) (water_level : Q).

Local Abbreviation in_range cs :=
  (forall i, In i cs -> (0 <= i < Py.len (Morfostvor.sectors self))%Z).

(** The body of the loop appends positions of the profile that the list does
    not hold yet. *)
Lemma overflow_body_NoDup (cs : list Z) (i : Z) cs1 r q_ :
  NoDup cs -> in_range cs -> In i cs ->
  overflow_body OVERFLOW CALC_TYPE chunk_list self min_sector water_level cs i
    = Ok (cs1, r, q_) ->
  NoDup cs1 /\ in_range cs1 /\ exists added, cs1 = cs ++ added.
Proof.
  intros Hnd Hr Hi. unfold overflow_body. intros H.
  destruct (Py.get (Morfostvor.sectors self) i) as [sector | | |];
    cbn [bind] in H; try discriminate.
  destruct (ProfileSector.coord sector) as [x y].
  destruct (Py.get (chunk_list y 2%Z) 0%Z) as [lh | | |];
    cbn [bind] in H; try discriminate.
  destruct (Py.max lh) as [pe | | |]; cbn [bind] in H; try discriminate.
  destruct (Py.get (chunk_list y 2%Z) 1%Z) as [rh | | |];
    cbn [bind] in H; try discriminate.
  destruct (Py.max rh) as [ne | | |]; cbn [bind] in H; try discriminate.
  match type of H with
  | bind ?sp _ = _ => destruct sp as [sp_ | | |]; cbn [bind] in H; try discriminate
  end.
  match type of H with
  | bind ?sr _ = _ => destruct sr as [[r' q'] | | |];
                      cbn [bind fst snd] in H; try discriminate
  end.
  injection H as <- <- <-.
  pose proof (Hr i Hi) as Hi_range.
  (* the neighbour on the left *)
  set (cs_l := if Qle_bool pe water_level && negb (mem (i - 1)%Z cs) && (0 <=? i - 1)%Z
               then cs ++ [(i - 1)%Z] else cs).
  assert (Hl : NoDup cs_l /\ in_range cs_l /\ exists added, cs_l = cs ++ added).
  { unfold cs_l.
    destruct (Qle_bool pe water_level && negb (mem (i - 1)%Z cs) && (0 <=? i - 1)%Z)
      eqn:C; [| split; [exact Hnd | split; [exact Hr | exists []; symmetry; apply app_nil_r]]].
    apply andb_prop in C. destruct C as [C C3]. apply andb_prop in C.
    destruct C as [_ C2]. apply Z.leb_le in C3. apply negb_true_iff in C2.
    assert (Hnot : ~ In (i - 1)%Z cs).
    { intros Hin. apply mem_In in Hin. congruence. }
    split; [| split; [| eauto]].
    - apply NoDup_app; [exact Hnd | repeat constructor; intros [] | ].
      intros a Ha [<- | []]. contradiction.
    - intros j Hj. apply in_app_iff in Hj. destruct Hj as [Hj | [<- | []]];
        [apply Hr; exact Hj | lia]. }
  destruct Hl as [Hnd_l [Hr_l [added_l Hl]]].
  fold cs_l.
  (* the neighbour on the right *)
  destruct (Qle_bool ne water_level && negb (mem (i + 1)%Z cs_l)
            && (i + 1 <=? Py.len (Morfostvor.sectors self) - 1)%Z) eqn:C;
    [| split; [exact Hnd_l | split; [exact Hr_l | eauto]]].
  apply andb_prop in C. destruct C as [C C3]. apply andb_prop in C.
  destruct C as [_ C2]. apply Z.leb_le in C3. apply negb_true_iff in C2.
  assert (Hnot : ~ In (i + 1)%Z cs_l).
  { intros Hin. apply mem_In in Hin. congruence. }
  split; [| split].
  - apply NoDup_app; [exact Hnd_l | repeat constructor; intros [] | ].
    intros a Ha [<- | []]. contradiction.
  - intros j Hj. apply in_app_iff in Hj. destruct Hj as [Hj | [<- | []]];
      [apply Hr_l; exact Hj | lia].
  - exists (added_l ++ [(i + 1)%Z]). rewrite Hl, app_assoc. reflexivity.
Qed.

(** The loop from the position [k] on, with fuel for the positions that a
    list without repetition can still reach. *)
Lemma overflow_for_ends (fuel : nat) :
  forall (cs : list Z) (k : nat) (rows : list row) (wc : list R),
    NoDup cs -> in_range cs ->
    (List.length (Morfostvor.sectors self) - k <= fuel)%nat ->
    exists res,
      overflow_for OVERFLOW CALC_TYPE chunk_list self fuel min_sector water_level
                   cs k rows wc = Some res
      /\ forall cs' rows' wc',
           res = Ok (cs', rows', wc') ->
           NoDup cs' /\ in_range cs' /\ (exists added, cs' = cs ++ added)
           /\ (k <= List.length cs ->
               List.length rows' + k = List.length rows + List.length cs')%nat.
Proof.
  induction fuel as [| fuel IH]; intros cs k rows wc Hnd Hr Hfuel.
  - assert (Hlen : (List.length cs <= List.length (Morfostvor.sectors self))%nat)
      by (apply NoDup_range_length; assumption).
    cbn [overflow_for].
    destruct (nth_error cs k) as [i |] eqn:E.
    + assert (k < List.length cs)%nat by (apply nth_error_Some; congruence). lia.
    + eexists. split; [reflexivity |].
      intros cs' rows' wc' Hres. injection Hres as <- <- <-.
      apply nth_error_None in E.
      split; [exact Hnd |]. split; [exact Hr |].
      split; [exists []; symmetry; apply app_nil_r | lia].
  - cbn [overflow_for].
    destruct (nth_error cs k) as [i |] eqn:E.
    + assert (Hk : (k < List.length cs)%nat) by (apply nth_error_Some; congruence).
      assert (Hi : In i cs) by (eapply nth_error_In; exact E).
      destruct (overflow_body OVERFLOW CALC_TYPE chunk_list self min_sector
                              water_level cs i) as [[[cs1 r] q_] | c | e |] eqn:Eb.
      * destruct (@overflow_body_NoDup cs i cs1 r q_ Hnd Hr Hi Eb) as [Hnd1 [Hr1 [added1 Hcs1]]].
        destruct (IH cs1 (S k) (rows ++ [r]) (wc ++ [q_]) Hnd1 Hr1 ltac:(lia))
          as [res [Hres Hspec]].
        exists res. split; [exact Hres |].
        intros cs' rows' wc' Hok.
        destruct (Hspec cs' rows' wc' Hok) as [H1 [H2 [[added H3] H4]]].
        split; [exact H1 |]. split; [exact H2 |]. split.
        -- exists (added1 ++ added). rewrite H3, Hcs1, app_assoc. reflexivity.
        -- intros _. rewrite length_app in H4. cbn [List.length] in H4.
           assert (S k <= List.length cs1)%nat
             by (rewrite Hcs1, length_app; lia).
           lia.
      * eexists. split; [reflexivity |]. intros ? ? ? Hres. discriminate.
      * eexists. split; [reflexivity |]. intros ? ? ? Hres. discriminate.
      * eexists. split; [reflexivity |]. intros ? ? ? Hres. discriminate.
    + eexists. split; [reflexivity |].
      intros cs' rows' wc' Hres. injection Hres as <- <- <-.
      apply nth_error_None in E.
      split; [exact Hnd |]. split; [exact Hr |].
      split; [exists []; symmetry; apply app_nil_r | lia].
Qed.

End OverflowEnds.

(** In overflow mode the turn of a level ends: the loop over the growing
    list [calc_sectors] computes each listed sector once and stops within as
    many steps as the profile has sectors.  A list without repetition whose
    entries are positions of the profile stays so, the turn only appends to
    it, and the turn returns one row for each entry of the final list and
    the aggregate row. *)
Theorem overflow_turn_ends
        (CALC_TYPE : Z) (chunk_list : list Q -> Z -> list (list Q))
        (self : Morfostvor.t) (min_sector : Z * ProfileSector.t)
        (water_level : Q) (calc_sectors : list Z) :
  NoDup calc_sectors ->
  (forall i, In i calc_sectors -> (0 <= i < Py.len (Morfostvor.sectors self))%Z) ->
  exists res,
    level_pass true CALC_TYPE chunk_list self min_sector water_level calc_sectors
      = Some res
    /\ forall cs' rows total,
         res = Ok (cs', rows, total) ->
         NoDup cs'
         /\ (forall i, In i cs' -> (0 <= i < Py.len (Morfostvor.sectors self))%Z)
         /\ (exists added, cs' = calc_sectors ++ added)
         /\ List.length rows = S (List.length cs').
Proof.
  intros Hnd Hr. unfold level_pass.
  destruct (@overflow_for_ends true CALC_TYPE chunk_list self min_sector water_level
              (S (List.length (Morfostvor.sectors self))) calc_sectors 0%nat [] []
              Hnd Hr ltac:(lia)) as [res [Hres Hspec]].
  rewrite Hres. destruct res as [[[cs rows] wc] | c | e |].
  - eexists. split; [reflexivity |].
    intros cs' rows' total Hok. injection Hok as <- <- _.
    destruct (Hspec cs rows wc eq_refl) as [H1 [H2 [H3 H4]]].
    split; [exact H1 |]. split; [exact H2 |]. split; [exact H3 |].
    rewrite length_app. specialize (H4 ltac:(lia)). cbn [List.length] in H4 |- *. lia.
  - eexists. split; [reflexivity |]. intros ? ? ? Hok. discriminate.
  - eexists. split; [reflexivity |]. intros ? ? ? Hok. discriminate.
  - eexists. split; [reflexivity |]. intros ? ? ? Hok. discriminate.
Qed.

Lemma overflow_turn_ends_witness :
  exists res,
    level_pass true 1 chunk_halves two_sectors (0%Z, ruslo) 9 [0%Z] = Some res
    /\ forall cs' rows total,
         res = Ok (cs', rows, total) ->
         NoDup cs'
         /\ (forall i, In i cs' ->
                       (0 <= i < Py.len (Morfostvor.sectors two_sectors))%Z)
         /\ (exists added, cs' = [0%Z] ++ added)
         /\ List.length rows = S (List.length cs').
Proof.
  apply (@overflow_turn_ends 1 chunk_halves two_sectors (0%Z, ruslo) 9 [0%Z]).
  - constructor; [intros [] | constructor].
  - intros i [<- | []]. unfold Py.len. cbn. lia.
Defined.

(** ** [calculate]: the turn when every sector fills on its own *)

Lemma per_sector_for_reached (OVERFLOW : bool) (CALC_TYPE : Z) (water_level : Q)
      (l : list ProfileSector.t) :
  forall rows wc rows' wc',
    per_sector_for OVERFLOW CALC_TYPE l water_level rows wc = Ok (rows', wc') ->
    exists rs,
      rows' = rows ++ rs
      /\ map Uchastok rs = map ProfileSector.name (filter (reached water_level) l)
      /\ Forall (fun r => UV r = round2 water_level) rs.
Proof.
  induction l as [| sector rest IH]; intros rows wc rows' wc' H;
    cbn [per_sector_for] in H.
  - injection H as <- <-. exists []. rewrite app_nil_r. repeat split; constructor.
  - cbn [filter]. unfold reached at 1.
    destruct (Py.min (snd (ProfileSector.coord sector))) as [m | | |];
      cbn [bind] in H; try discriminate.
    destruct (Qlt_le_dec m water_level).
    + destruct (sector_row OVERFLOW CALC_TYPE sector water_level None)
        as [[r q_] | | |] eqn:Er; cbn [bind fst snd] in H; try discriminate.
      destruct (sector_row_name _ _ _ _ _ Er) as [Hname Huv].
      destruct (IH _ _ _ _ H) as [rs [-> [Hnames Hall]]].
      exists (r :: rs). rewrite <- app_assoc. split; [reflexivity |].
      split; [cbn [map]; rewrite Hname, Hnames; reflexivity |].
      constructor; assumption.
    + apply (IH _ _ _ _ H).
Qed.

(** When [config.OVERFLOW] is off, the turn of a level returns one row for
    each sector whose lowest vertex lies strictly under the level, in the
    order of the profile, and the aggregate row after them, all at the
    rounded level; a sector whose lowest vertex is at the level has no row,
    and the list [calc_sectors] is left as it was. *)
Theorem per_sector_turn
        (CALC_TYPE : Z) (chunk_list : list Q -> Z -> list (list Q))
        (self : Morfostvor.t) (min_sector : Z * ProfileSector.t)
        (water_level : Q) (calc_sectors cs' : list Z) (rows : list row) (total : R) :
  level_pass false CALC_TYPE chunk_list self min_sector water_level calc_sectors
    = Some (Ok (cs', rows, total)) ->
  cs' = calc_sectors
  /\ map Uchastok rows
     = map ProfileSector.name (filter (reached water_level) (Morfostvor.sectors self))
       ++ [Summa]
  /\ Forall (fun r => UV r = round2 water_level) rows.
Proof.
  unfold level_pass. intros H.
  destruct (per_sector_for false CALC_TYPE (Morfostvor.sectors self) water_level [] [])
    as [[rs wc] | | |] eqn:E; try discriminate.
  injection H as <- <- _.
  destruct (per_sector_for_reached _ _ _ _ _ _ E) as [rs' [Hrs [Hnames Hall]]].
  cbn [app] in Hrs. subst rs'.
  split; [reflexivity |]. split.
  - rewrite map_app, Hnames. reflexivity.
  - apply Forall_app. split; [exact Hall | repeat constructor].
Qed.

Lemma ruslo_section_half :
  exists w, WaterSection_init false [0; 0; 10; 10] [10; 8; 8; 9] (17 # 2) None = Ok w
            /\ average_depth w == 1 # 2 /\ area w == 5.
Proof.
  eexists. split; [eval_section |]. split; vm_compute; reflexivity.
Qed.

Lemma per_sector_turn_witness :
  exists r0 total,
    level_pass false 1 chunk_halves two_sectors (0%Z, ruslo) (17 # 2) [0%Z]
      = Some (Ok ([0%Z], [r0; zero_row (round2 (17 # 2))], total))
    /\ [0%Z] = [0%Z]
    /\ map Uchastok [r0; zero_row (round2 (17 # 2))]
       = map ProfileSector.name
             (filter (reached (17 # 2)) (Morfostvor.sectors two_sectors)) ++ [Summa]
    /\ Forall (fun r => UV r = round2 (17 # 2)) [r0; zero_row (round2 (17 # 2))].
Proof.
  destruct ruslo_section_half as [w0 [Hw0 [Havg0 Harea0]]].
  apply Qeq_eqR in Havg0, Harea0.
  destruct (@Calculation_water_q_nonneg (Q2R (5 # 100)) (Q2R 250)
              (Q2R (average_depth w0)) (Q2R (area w0)))
    as [c0 [Hc0 _]]; [lra | rewrite Havg0; lra | lra | rewrite Harea0; lra |].
  pose proof (@sector_row_Ok false 1 ruslo (17 # 2) None w0 c0 Hw0 Hc0) as Hr0.
  assert (Hpass : level_pass false 1 chunk_halves two_sectors (0%Z, ruslo) (17 # 2) [0%Z]
                  = Some (Ok ([0%Z],
                              [mk_row (ProfileSector.name ruslo) (round2 (17 # 2))
                                      (Q2R (area w0)) (Q2R (width w0))
                                      (Q2R (average_depth w0)) (Q2R (max_depth w0))
                                      (v c0) (q c0) (shezi c0);
                               zero_row (round2 (17 # 2))],
                              (0 + sum_R [q c0])%R))).
  { unfold level_pass.
    change (Morfostvor.sectors two_sectors) with [ruslo; pojma].
    cbn [per_sector_for].
    change (Py.min (snd (ProfileSector.coord ruslo))) with (Ok 8).
    change (Py.min (snd (ProfileSector.coord pojma))) with (Ok (17 # 2)).
    cbn [bind].
    destruct (Qlt_le_dec 8 (17 # 2)) as [_ | Habs]; [| exfalso; Lqa.lra].
    rewrite Hr0. cbn [bind fst snd app].
    destruct (Qlt_le_dec (17 # 2) (17 # 2)) as [Habs | _]; [exfalso; Lqa.lra |].
    reflexivity. }
  eexists. eexists. split; [exact Hpass |].
  exact (@per_sector_turn 1 chunk_halves two_sectors (0%Z, ruslo) (17 # 2)
           [0%Z] _ _ _ Hpass).
Defined.

(** ** [calculate]: a profile without slope *)

(** On a slope of zero the velocity is zero in each of the three regimes. *)
Lemma velocity_zero_slope (CALC_TYPE : Z) (h C vel : R) :
  velocity CALC_TYPE 0 h C = Ok (Some vel) -> vel = 0%R.
Proof.
  unfold velocity. intros H.
  assert (E0 : (0 / 1000 = 0)%R) by lra.
  assert (Ep : np_pow (0 / 1000) 0.17 = Some 0%R).
  { rewrite E0. unfold np_pow.
    destruct (Rlt_dec 0 0); [lra |].
    destruct (Rlt_dec 0 0.17); [reflexivity | lra]. }
  destruct (CALC_TYPE =? 1)%Z.
  - replace (h * (0 / 1000))%R with 0%R in H by lra.
    unfold np_sqrt in H. destruct (Rlt_dec 0 0); [lra |].
    injection H as <-. rewrite sqrt_0. lra.
  - destruct (CALC_TYPE =? 2)%Z; [| destruct (CALC_TYPE =? 3)%Z; [| discriminate]].
    + rewrite Ep in H. destruct (np_pow h 0.67); [| discriminate].
      injection H as <-. lra.
    + rewrite Ep in H. destruct (np_pow h 0.50); [| discriminate].
      injection H as <-. lra.
Qed.

Lemma Calculation_zero_slope (CALC_TYPE : Z) (n h a : R) (c : Calculation) :
  Calculation_init CALC_TYPE n 0 h a = Ok (Some c) -> q c = 0%R.
Proof.
  intros H. rewrite (@Calculation_q CALC_TYPE n 0 h a c H).
  unfold Calculation_init in H.
  destruct (Req_dec_T n 0); [discriminate |].
  destruct (if if Rle_dec 0 h then if Rle_dec h 3 then true else false else false
            then __shezi_pavlovskij n h else __shezi_pavlovskij_zheleznjakov n h)
    as [C |].
  - destruct (velocity CALC_TYPE 0 h C) as [[vel |] | | |] eqn:Ev;
      cbn [bind] in H; try discriminate.
    injection H as <-. cbn [v].
    assert (vel = 0%R) by (eapply velocity_zero_slope; exact Ev). subst vel. lra.
  - destruct (velocity CALC_TYPE 0 h 0); cbn [bind] in H; discriminate.
Qed.

Section ZeroSlope.

Variable CALC_TYPE : Z.
Variable chunk_list : list Q -> Z -> list (list Q).
Variable self : Morfostvor.t.

Hypothesis Hslope :
  forall s, In s (Morfostvor.sectors self) -> ProfileSector.slope s == 0.

Lemma sector_row_zero_slope (OVERFLOW : bool) sector water_level start_point r q_ :
  In sector (Morfostvor.sectors self) ->
  sector_row OVERFLOW CALC_TYPE sector water_level start_point = Ok (r, q_) ->
  q_ = 0%R.
Proof.
  intros Hin. unfold sector_row. destruct (ProfileSector.coord sector) as [x y].
  intros H.
  destruct (WaterSection_init OVERFLOW x y water_level start_point) as [w | | |];
    cbn [bind] in H; try discriminate.
  assert (E : Q2R (ProfileSector.slope sector) = 0%R).
  { rewrite (Qeq_eqR _ _ (Hslope _ Hin)). unfold Q2R. cbn. lra. }
  rewrite E in H.
  destruct (Calculation_init CALC_TYPE (Q2R (ProfileSector.roughness sector)) 0
                             (Q2R (average_depth w)) (Q2R (area w)))
    as [[c |] | | |] eqn:Ec; cbn [bind] in H; try discriminate.
  injection H as _ <-. eapply Calculation_zero_slope; exact Ec.
Qed.

Lemma per_sector_for_zero_slope (OVERFLOW : bool) (water_level : Q) (l : list ProfileSector.t) :
  (forall s, In s l -> In s (Morfostvor.sectors self)) ->
  forall rows wc rows' wc',
    per_sector_for OVERFLOW CALC_TYPE l water_level rows wc = Ok (rows', wc') ->
    sum_R wc = 0%R -> sum_R wc' = 0%R.
Proof.
  induction l as [| sector rest IH]; intros Hl rows wc rows' wc' H Hwc;
    cbn [per_sector_for] in H.
  - injection H as _ <-. exact Hwc.
  - destruct (Py.min (snd (ProfileSector.coord sector))) as [m | | |];
      cbn [bind] in H; try discriminate.
    assert (Hrest : forall s, In s rest -> In s (Morfostvor.sectors self))
      by (intros s Hs; apply Hl; now right).
    destruct (Qlt_le_dec m water_level).
    + destruct (sector_row OVERFLOW CALC_TYPE sector water_level None)
        as [[r q_] | | |] eqn:Er; cbn [bind fst snd] in H; try discriminate.
      eapply IH; [exact Hrest | exact H |].
      assert (q_ = 0%R)
        by (eapply sector_row_zero_slope; [apply Hl; now left | exact Er]).
      subst q_.
      unfold sum_R. rewrite fold_right_app. cbn [fold_right].
      rewrite Rplus_0_r. exact Hwc.
    + eapply IH; [exact Hrest | exact H | exact Hwc].
Qed.

Lemma overflow_body_zero_slope (OVERFLOW : bool) min_sector water_level cs i cs1 r q_ :
  overflow_body OVERFLOW CALC_TYPE chunk_list self min_sector water_level cs i
    = Ok (cs1, r, q_) ->
  q_ = 0%R.
Proof.
  unfold overflow_body. intros H.
  destruct (Py.get (Morfostvor.sectors self) i) as [sector | | |] eqn:Es;
    cbn [bind] in H; try discriminate.
  apply get_In in Es.
  destruct (ProfileSector.coord sector) as [x y].
  destruct (Py.get (chunk_list y 2%Z) 0%Z) as [lh | | |];
    cbn [bind] in H; try discriminate.
  destruct (Py.max lh) as [pe | | |]; cbn [bind] in H; try discriminate.
  destruct (Py.get (chunk_list y 2%Z) 1%Z) as [rh | | |];
    cbn [bind] in H; try discriminate.
  destruct (Py.max rh) as [ne | | |]; cbn [bind] in H; try discriminate.
  match type of H with
  | bind ?sp _ = _ => destruct sp as [sp_ | | |]; cbn [bind] in H; try discriminate
  end.
  match type of H with
  | bind ?sr _ = _ => destruct sr as [[r' q'] | | |] eqn:Er;
                      cbn [bind fst snd] in H; try discriminate
  end.
  injection H as _ _ <-. eapply sector_row_zero_slope; [exact Es | exact Er].
Qed.

Lemma overflow_for_zero_slope (OVERFLOW : bool) (fuel : nat) min_sector water_level :
  forall cs k rows wc cs' rows' wc',
    overflow_for OVERFLOW CALC_TYPE chunk_list self fuel min_sector water_level
                 cs k rows wc = Some (Ok (cs', rows', wc')) ->
    sum_R wc = 0%R -> sum_R wc' = 0%R.
Proof.
  induction fuel as [| fuel IH]; intros cs k rows wc cs' rows' wc' H Hwc;
    cbn [overflow_for] in H.
  - destruct (nth_error cs k); [discriminate |]. injection H as _ _ <-. exact Hwc.
  - destruct (nth_error cs k) as [i |]; [| injection H as _ _ <-; exact Hwc].
    destruct (overflow_body OVERFLOW CALC_TYPE chunk_list self min_sector
                            water_level cs i) as [[[cs1 r] q_] | | |] eqn:Eb;
      try discriminate.
    eapply IH; [exact H |].
    assert (q_ = 0%R) by (eapply overflow_body_zero_slope; exact Eb).
    subst q_.
    unfold sum_R. rewrite fold_right_app. cbn [fold_right].
    rewrite Rplus_0_r. exact Hwc.
Qed.

Lemma level_pass_zero_slope (OVERFLOW : bool) min_sector water_level cs cs' rows total :
  level_pass OVERFLOW CALC_TYPE chunk_list self min_sector water_level cs
    = Some (Ok (cs', rows, total)) ->
  total = 0%R.
Proof.
  unfold level_pass. intros H. destruct OVERFLOW.
  - destruct (overflow_for true CALC_TYPE chunk_list self
                (S (List.length (Morfostvor.sectors self))) min_sector water_level
                cs 0 [] []) as [[[[cs1 rs] wc] | | |] |] eqn:E; try discriminate.
    injection H as _ _ <-.
    assert (sum_R wc = 0%R)
      by (eapply overflow_for_zero_slope; [exact E | reflexivity]).
    lra.
  - destruct (per_sector_for false CALC_TYPE (Morfostvor.sectors self) water_level
                             [] []) as [[rs wc] | | |] eqn:E; try discriminate.
    injection H as _ _ <-.
    assert (sum_R wc = 0%R)
      by (eapply per_sector_for_zero_slope; [| exact E | reflexivity]; auto).
    lra.
Qed.

Lemma sweep_zero_slope (OVERFLOW : bool) (fuel : nat) :
  forall check dH min_sector water_level cs df df',
    (0 < check)%R ->
    sweep OVERFLOW CALC_TYPE chunk_list self fuel check dH min_sector
          water_level cs df 0 <> Some (Ok df').
Proof.
  induction fuel as [| fuel IH]; intros check dH min_sector water_level cs df df' Hc;
    cbn [sweep]; destruct (Rlt_dec 0 check); try lra; try discriminate.
  destruct (level_pass OVERFLOW CALC_TYPE chunk_list self min_sector water_level cs)
    as [[[[cs1 rows] total] | | |] |] eqn:E; try discriminate.
  assert (total = 0%R) by (eapply level_pass_zero_slope; exact E).
  subst total. apply IH. exact Hc.
Qed.

End ZeroSlope.

(** When the slope of every sector is zero and the largest discharge of the
    probabilities is positive, [calculate] never returns a table.  The
    discharge of every sector is zero at every level, so the total of a turn
    never reaches the ceiling and the loop goes on level after level: a run
    stops only with an exit or an exception, or at a value that is not a
    real number. *)
Theorem zero_slope_never_returns
        (OVERFLOW : bool) (CALC_TYPE : Z) (chunk_list : list Q -> Z -> list (list Q))
        (self : Morfostvor.t) (q_max : Q) :
  (forall s, In s (Morfostvor.sectors self) -> ProfileSector.slope s == 0) ->
  get_q_max self = Ok q_max -> 0 < q_max ->
  ~ exists fuel table,
      hydraulic_table OVERFLOW CALC_TYPE chunk_list self fuel = Some (Ok table).
Proof.
  intros Hslope Hq Hpos [fuel [table H]].
  unfold hydraulic_table in H.
  destruct (calculate_rows OVERFLOW CALC_TYPE chunk_list self fuel)
    as [[df | | |] |] eqn:E; try discriminate.
  unfold calculate_rows in E. rewrite Hq in E. cbn [bind] in E.
  destruct (get_min_sector self) as [ms | | |]; cbn [bind] in E; try discriminate.
  destruct (Py.min (Morfostvor.y self)) as [m | | |]; cbn [bind] in E;
    try discriminate.
  revert E. apply sweep_zero_slope; [exact Hslope |].
  replace 0%R with (Q2R 0) by (unfold Q2R; cbn; lra).
  apply Qlt_Rlt.
  assert (0 <= q_max * (20 # 100)) by (apply Qmult_le_0_compat; Lqa.lra).
  Lqa.lra.
Qed.

Lemma zero_slope_never_returns_witness :
  ~ exists fuel table,
      hydraulic_table false 1 chunk_halves level_channel fuel = Some (Ok table).
Proof.
  apply (@zero_slope_never_returns false 1 chunk_halves level_channel 50).
  - intros s [<- | []]. reflexivity.
  - reflexivity.
  - reflexivity.
Defined.

(** ** [calculate]: nothing to reach *)

Lemma fill_Summa_zero_row (e : Q) :
  fill_Summa [zero_row e]
  = [mk_hydraulic_row Summa e 0 0 (Num 0) 0 (Num 0) 0 (Num 0)].
Proof.
  assert (He : Qeq_bool e e = true) by (apply Qeq_bool_iff; reflexivity).
  assert (E0 : (0 + 0 = 0)%R) by lra.
  assert (Hs : String.eqb Summa Summa = true) by reflexivity.
  assert (HF : frame_F [zero_row e] = [zero_row e]).
  { unfold frame_F, assign, transform_sum, group, is_Summa, zero_row, set_F.
    cbn [map filter UV Uchastok]. rewrite Hs, He.
    cbn [map sum_R fold_right filter UV Uchastok
         col_F col_B col_Hsr col_Hmaks col_V col_Q col_Shezi].
    rewrite E0. reflexivity. }
  assert (HB : frame_B [zero_row e] = [zero_row e]).
  { unfold frame_B. rewrite HF.
    unfold assign, transform_sum, group, is_Summa, zero_row, set_B.
    cbn [map filter UV Uchastok]. rewrite Hs, He.
    cbn [map sum_R fold_right filter UV Uchastok
         col_F col_B col_Hsr col_Hmaks col_V col_Q col_Shezi].
    rewrite E0. reflexivity. }
  assert (HH : frame_Hmaks [zero_row e] = [zero_row e]).
  { unfold frame_Hmaks. rewrite HB.
    unfold assign, transform_max, group, is_Summa, zero_row, set_Hmaks.
    cbn [map filter UV Uchastok]. rewrite Hs, He.
    cbn [map fold_left filter UV Uchastok
         col_F col_B col_Hsr col_Hmaks col_V col_Q col_Shezi].
    reflexivity. }
  assert (HQ : frame_Q [zero_row e] = [zero_row e]).
  { unfold frame_Q. rewrite HH.
    unfold assign, transform_sum, group, is_Summa, zero_row, set_Q.
    cbn [map filter UV Uchastok]. rewrite Hs, He.
    cbn [map sum_R fold_right filter UV Uchastok
         col_F col_B col_Hsr col_Hmaks col_V col_Q col_Shezi].
    rewrite E0. reflexivity. }
  unfold fill_Summa, value_Hsr, value_V, value_Shezi. rewrite HQ, HB.
  unfold transform_sum, transform_count, group, is_Summa, zero_row.
  cbn [map filter UV Uchastok]. rewrite Hs, He.
  cbn [map sum_R fold_right filter UV Uchastok List.length INR
       col_F col_B col_Hsr col_Hmaks col_V col_Q col_Shezi].
  rewrite E0. replace (1 - 1)%R with 0%R by lra.
  rewrite pd_div_0_0. reflexivity.
Qed.

(** When the largest discharge of the probabilities is not positive, the
    loop over the levels is never entered: whatever the profile, the frame
    that [calculate] has built and filled, when it comes to interpolate the
    probabilities, is the single aggregate row at [ele_min], with zeros in
    every column (the three quotients are 0/0, filled with 0). *)
Theorem no_discharge_no_levels
        (OVERFLOW : bool) (CALC_TYPE : Z) (chunk_list : list Q -> Z -> list (list Q))
        (self : Morfostvor.t) (q_max m : Q) (min_sector : Z * ProfileSector.t)
        (fuel : nat) :
  get_q_max self = Ok q_max -> q_max <= 0 ->
  get_min_sector self = Ok min_sector -> Py.min (Morfostvor.y self) = Ok m ->
  hydraulic_table OVERFLOW CALC_TYPE chunk_list self fuel
  = Some (Ok [mk_hydraulic_row Summa (Morfostvor.ele_min self)
                               0 0 (Num 0) 0 (Num 0) 0 (Num 0)]).
Proof.
  intros Hq Hle Hms Hm.
  unfold hydraulic_table, calculate_rows. rewrite Hq, Hms, Hm. cbn [bind].
  assert (Hc : ~ (0 < Q2R (q_max + q_max * (20 # 100)))%R).
  { assert (H : q_max + q_max * (20 # 100) <= 0).
    { assert (q_max * (20 # 100) <= 0).
      { setoid_replace (q_max * (20 # 100)) with (- ((- q_max) * (20 # 100))) by ring.
        assert (0 <= (- q_max) * (20 # 100)) by (apply Qmult_le_0_compat; Lqa.lra).
        Lqa.lra. }
      Lqa.lra. }
    apply Qle_Rle in H. replace (Q2R 0) with 0%R in H by (unfold Q2R; cbn; lra).
    lra. }
  assert (Hsw : forall f dH ws cs df,
             sweep OVERFLOW CALC_TYPE chunk_list self f
                   (Q2R (q_max + q_max * (20 # 100))) dH min_sector ws cs df 0
             = Some (Ok df)).
  { intros f dH ws cs df. destruct f; cbn [sweep];
      destruct (Rlt_dec 0 (Q2R (q_max + q_max * (20 # 100)))); try contradiction;
      reflexivity. }
  rewrite Hsw, fill_Summa_zero_row. reflexivity.
Qed.

Lemma no_discharge_no_levels_witness :
  hydraulic_table false 1 chunk_halves
                  (Morfostvor.mk [10; 8; 8; 9] [ruslo] 8 (dH_float 1) [("1"%string, 0)])
                  0
  = Some (Ok [mk_hydraulic_row Summa 8 0 0 (Num 0) 0 (Num 0) 0 (Num 0)]).
Proof.
  apply (@no_discharge_no_levels false 1 chunk_halves
           (Morfostvor.mk [10; 8; 8; 9] [ruslo] 8 (dH_float 1) [("1"%string, 0)])
           0 8 (0%Z, ruslo) 0).
  - reflexivity.
  - Lqa.lra.
  - reflexivity.
  - reflexivity.
Defined.

(** [calculate] reads the first probability and the first sector: without
    probabilities, or without sectors, it raises [IndexError] before any
    level is computed. *)
Theorem calculate_without_probabilities_or_sectors
        (OVERFLOW : bool) (CALC_TYPE : Z) (chunk_list : list Q -> Z -> list (list Q))
        (self : Morfostvor.t) (fuel : nat) :
  Morfostvor.probability self = [] \/ Morfostvor.sectors self = [] ->
  hydraulic_table OVERFLOW CALC_TYPE chunk_list self fuel = Some (Raise IndexError).
Proof.
  intros H. unfold hydraulic_table, calculate_rows.
  destruct (Morfostvor.probability self) as [| p0 l] eqn:Ep.
  - unfold get_q_max. rewrite Ep. reflexivity.
  - destruct H as [H | Hs]; [discriminate |].
    unfold get_q_max. rewrite Ep.
    change (Py.get (p0 :: l) 0%Z) with (Ok p0). cbn [bind].
    unfold get_min_sector. rewrite Hs. reflexivity.
Qed.

Lemma calculate_without_probabilities_or_sectors_witness :
  hydraulic_table false 1 chunk_halves three_probabilities 5 = Some (Raise IndexError).
Proof.
  apply calculate_without_probabilities_or_sectors. right. reflexivity.
Defined.

(** ** The aggregate rows: the greatest depth *)

Lemma fold_Rmax_spec (t : list R) (a : R) :
  (forall v, In v (a :: t) -> (v <= fold_left Rmax t a)%R)
  /\ In (fold_left Rmax t a) (a :: t).
Proof.
  revert a. induction t as [| b t IH]; intros a; cbn [fold_left].
  - split; [intros v [<- | []]; lra | now left].
  - destruct (IH (Rmax a b)) as [H1 H2]. split.
    + intros v [<- | [<- | Hv]].
      * pose proof (H1 (Rmax a b) (or_introl eq_refl)).
        pose proof (Rmax_l a b). lra.
      * pose proof (H1 (Rmax a b) (or_introl eq_refl)).
        pose proof (Rmax_r a b). lra.
      * apply H1. now right.
    + destruct H2 as [H2 | H2]; [| right; right; exact H2].
      rewrite <- H2. unfold Rmax. destruct (Rle_dec a b); [right; now left | now left].
Qed.

Lemma nth_error_map_inv {A B} (f : A -> B) (l : list A) (k : nat) (b : B) :
  nth_error (map f l) k = Some b -> exists a, nth_error l k = Some a /\ f a = b.
Proof.
  rewrite nth_error_map. destruct (nth_error l k) as [a |]; cbn; [| discriminate].
  intros H. injection H as <-. eauto.
Qed.

(** The column [Hмакс] of the rows of a level is not touched by an
    assignment to another column. *)
Lemma Hmaks_assign (set : row -> R -> row) (vals : Q -> R) (D : list row) (l : Q) :
  (forall r a, UV (set r a) = UV r) ->
  (forall r a, col_Hmaks (set r a) = col_Hmaks r) ->
  map col_Hmaks (group (assign set vals D) l) = map col_Hmaks (group D l).
Proof.
  intros HU HH. unfold assign. rewrite group_map
    by (intros r; destruct (is_Summa r); [apply HU | reflexivity]).
  rewrite map_map. apply map_ext. intros r.
  destruct (is_Summa r); [apply HH | reflexivity].
Qed.

Lemma transform_max_frame_B (df : list row) (l : Q) :
  transform_max col_Hmaks (frame_B df) l = transform_max col_Hmaks df l.
Proof.
  unfold transform_max, frame_B, frame_F.
  rewrite !Hmaks_assign by (intros; reflexivity). reflexivity.
Qed.

(** The aggregate row of the table at the position of an aggregate row of
    the frame. *)
Lemma fill_Summa_Hmaks (df : list row) (a : hydraulic_row) :
  In a (fill_Summa df) -> h_Uchastok a = Summa ->
  exists r, In r df /\ is_Summa r = true /\ h_UV a = UV r
            /\ h_Hmaks a = transform_max col_Hmaks df (UV r).
Proof.
  intros Ha Hn. apply In_nth_error in Ha. destruct Ha as [k Hk].
  unfold fill_Summa in Hk. apply nth_error_map_inv in Hk.
  destruct Hk as [r4 [H4 Ea]].
  unfold frame_Q, assign in H4. apply nth_error_map_inv in H4.
  destruct H4 as [r3 [H3 E4]].
  unfold frame_Hmaks, assign in H3. apply nth_error_map_inv in H3.
  destruct H3 as [r2 [H2 E3]].
  unfold frame_B, assign in H2. apply nth_error_map_inv in H2.
  destruct H2 as [r1 [H1 E2]].
  unfold frame_F, assign in H1. apply nth_error_map_inv in H1.
  destruct H1 as [r [H0 E1]].
  fold (frame_F df) in E2, E3. fold (assign set_B (transform_sum col_B (frame_F df))
                                            (frame_F df)) in E3.
  fold (frame_B df) in E3.
  exists r. split; [eapply nth_error_In; exact H0 |].
  assert (HS : forall x y : row, Uchastok x = Uchastok y -> is_Summa x = is_Summa y)
    by (intros x y E; unfold is_Summa; rewrite E; reflexivity).
  assert (N1 : Uchastok r1 = Uchastok r /\ UV r1 = UV r /\ col_Hmaks r1 = col_Hmaks r)
    by (rewrite <- E1; destruct (is_Summa r); repeat split; reflexivity).
  assert (N2 : Uchastok r2 = Uchastok r1 /\ UV r2 = UV r1 /\ col_Hmaks r2 = col_Hmaks r1)
    by (rewrite <- E2; destruct (is_Summa r1); repeat split; reflexivity).
  assert (N3 : Uchastok r3 = Uchastok r2 /\ UV r3 = UV r2)
    by (rewrite <- E3; destruct (is_Summa r2); repeat split; reflexivity).
  assert (N4 : Uchastok r4 = Uchastok r3 /\ UV r4 = UV r3 /\ col_Hmaks r4 = col_Hmaks r3)
    by (rewrite <- E4; destruct (is_Summa r3); repeat split; reflexivity).
  destruct N1 as [N1 [U1 M1]]. destruct N2 as [N2 [U2 M2]].
  destruct N3 as [N3 U3]. destruct N4 as [N4 [U4 M4]].
  assert (Na : h_Uchastok a = Uchastok r4 /\ h_UV a = UV r4 /\ h_Hmaks a = col_Hmaks r4)
    by (rewrite <- Ea; destruct (is_Summa r4); repeat split; reflexivity).
  destruct Na as [Na [Ua Ma]].
  assert (Hr : is_Summa r = true).
  { unfold is_Summa. replace (Uchastok r) with Summa by congruence.
    apply String.eqb_refl. }
  assert (Hr2 : is_Summa r2 = true).
  { rewrite (HS r2 r) by congruence. exact Hr. }
  split; [exact Hr |]. split; [congruence |].
  rewrite Ma, M4, <- E3, Hr2. cbn [set_Hmaks col_Hmaks].
  rewrite transform_max_frame_B, U2, U1. reflexivity.
Qed.

(** In a built rating table whose sectors do not bear the name of the
    aggregate row, the column [Hмакс] of the aggregate row of a level holds
    the greatest value among the rows of the level, the aggregate row's own
    initial 0 among them: it is not negative, no sector row of the level
    exceeds it, and it is 0 or the [Hмакс] of one of these sector rows. *)
Theorem aggregate_Hmaks_of_built_table
        (OVERFLOW : bool) (CALC_TYPE : Z) (chunk_list : list Q -> Z -> list (list Q))
        (self : Morfostvor.t) (fuel : nat) (table : list hydraulic_row) :
  hydraulic_table OVERFLOW CALC_TYPE chunk_list self fuel = Some (Ok table) ->
  (forall s, In s (Morfostvor.sectors self) -> ProfileSector.name s <> Summa) ->
  exists df,
    calculate_rows OVERFLOW CALC_TYPE chunk_list self fuel = Some (Ok df)
    /\ table = fill_Summa df
    /\ forall a, In a table -> h_Uchastok a = Summa ->
         (0 <= h_Hmaks a)%R
         /\ (forall r, In r (sector_rows df (h_UV a)) -> (col_Hmaks r <= h_Hmaks a)%R)
         /\ (h_Hmaks a = 0%R
             \/ exists r, In r (sector_rows df (h_UV a)) /\ col_Hmaks r = h_Hmaks a).
Proof.
  unfold hydraulic_table. intros Ht Hnames.
  destruct (calculate_rows OVERFLOW CALC_TYPE chunk_list self fuel)
    as [[df | | |] |] eqn:E; try discriminate.
  injection Ht as <-. exists df. split; [reflexivity |]. split; [reflexivity |].
  intros a Ha Hn.
  assert (Hz : forall r, In r df -> is_Summa r = true -> r = zero_row (UV r)).
  { intros r Hr Hs. apply (@built_row_Summa self r Hnames); [| exact Hs].
    pose proof (calculate_rows_built _ _ _ _ _ E) as Hall.
    apply (proj1 (Forall_forall _ _) Hall r Hr). }
  destruct (fill_Summa_Hmaks _ _ Ha Hn) as [r [Hr [Hs [Hu Hm]]]].
  rewrite Hu, Hm. unfold transform_max.
  assert (Hin : In r (group df (UV r))).
  { unfold group. apply filter_In. split; [exact Hr |].
    apply Qeq_bool_iff. reflexivity. }
  assert (H0 : col_Hmaks r = 0%R) by (rewrite (Hz r Hr Hs); reflexivity).
  destruct (map col_Hmaks (group df (UV r))) as [| v t] eqn:Eg.
  { apply (in_map col_Hmaks) in Hin. rewrite Eg in Hin. destruct Hin. }
  destruct (fold_Rmax_spec t v) as [Hge Hmem]. rewrite <- Eg in Hge, Hmem.
  split; [| split].
  - rewrite <- H0. apply Hge. apply in_map. exact Hin.
  - intros r' Hr'. apply Hge. apply in_map.
    unfold sector_rows in Hr'. apply filter_In in Hr'. tauto.
  - apply in_map_iff in Hmem. destruct Hmem as [r' [Hv Hr']].
    destruct (is_Summa r') eqn:Es.
    + left. rewrite <- Hv.
      rewrite (Hz r' (proj1 (group_In _ _ _ Hr')) Es). reflexivity.
    + right. exists r'. split; [| exact Hv].
      unfold sector_rows. apply filter_In. split; [exact Hr' |].
      rewrite Es. reflexivity.
Qed.

Lemma aggregate_Hmaks_of_built_table_witness :
  exists table df,
    hydraulic_table true 1 chunk_halves two_sectors 1 = Some (Ok table)
    /\ table = fill_Summa df
    /\ forall a, In a table -> h_Uchastok a = Summa ->
         (0 <= h_Hmaks a)%R
         /\ (forall r, In r (sector_rows df (h_UV a)) -> (col_Hmaks r <= h_Hmaks a)%R).
Proof.
  destruct two_sectors_rows as [r0 [r1 [Hrows _]]].
  assert (Ht : hydraulic_table true 1 chunk_halves two_sectors 1
               = Some (Ok (fill_Summa [zero_row 8; r0; r1;
                                       zero_row (round2 (900 # 100))]))).
  { unfold hydraulic_table. rewrite Hrows. reflexivity. }
  destruct (@aggregate_Hmaks_of_built_table true 1 chunk_halves two_sectors 1 _
              Ht two_sectors_names) as [df [_ [Et H]]].
  eexists _, df. split; [exact Ht |]. split; [exact Et |].
  intros a Ha Hn. destruct (H a Ha Hn) as [H1 [H2 _]]. split; assumption.
Defined.

(** ** [WaterSection]: a start vertex above the water *)

Lemma get_total {A} (l : list A) (i : Z) :
  (- Py.len l <= i < Py.len l)%Z -> exists a, Py.get l i = Ok a.
Proof.
  intros H. unfold Py.get, Py.len in *.
  destruct (i <? 0)%Z eqn:E; cbv iota.
  - apply Z.ltb_lt in E.
    destruct (i + Z.of_nat (List.length l) <? 0)%Z eqn:E'; [apply Z.ltb_lt in E'; lia |].
    destruct (nth_error l (Z.to_nat (i + Z.of_nat (List.length l)))) as [a |] eqn:En;
      [eauto |].
    apply nth_error_None in En. lia.
  - rewrite E. apply Z.ltb_ge in E.
    destruct (nth_error l (Z.to_nat i)) as [a |] eqn:En; [eauto |].
    apply nth_error_None in En. lia.
Qed.

Section Steps.

Variables (x y : list Q) (water_level : Q).

Hypothesis Hlen : List.length x = List.length y.

(** A step of either search, at a position of the polyline, returns. *)
Lemma left_step_Ok (s i : Z) :
  (0 <= s < Py.len y)%Z -> (0 <= i < Py.len y)%Z ->
  exists r, left_step x y water_level s i = Ok r.
Proof.
  intros Hs Hi.
  assert (Hlx : Py.len x = Py.len y) by (unfold Py.len; rewrite Hlen; reflexivity).
  destruct (@get_total _ y s ltac:(lia)) as [ys Eys].
  destruct (@get_total _ y i ltac:(lia)) as [yi Eyi].
  destruct (@get_total _ y (i - 1)%Z ltac:(lia)) as [yp Eyp].
  destruct (@get_total _ x 0%Z ltac:(lia)) as [x0 Ex0].
  destruct (@get_total _ x i ltac:(lia)) as [xi Exi].
  destruct (@get_total _ x (i - 1)%Z ltac:(lia)) as [xp Exp].
  unfold left_step, py_and. rewrite Eys, Eyi, Eyp, Ex0, Exi, Exp. cbn [bind].
  destruct (s =? 0)%Z; cbn [bind].
  - destruct (Qle_bool ys water_level); [eauto |].
    destruct (Qle_bool water_level yp) eqn:E1; cbn [bind].
    + destruct (Qle_bool yi water_level) eqn:E2.
      * apply Qle_bool_iff in E1, E2.
        destruct (@interp1d_defined yp yi xp xi water_level) as [f Hf];
          [right; split; assumption |].
        rewrite Hf. cbn [bind]. eauto.
      * destruct (i - 1 =? 0)%Z; cbn [bind]; [| eauto].
        destruct (Qle_bool yp water_level); eauto.
    + destruct (i - 1 =? 0)%Z; cbn [bind]; [| eauto].
      destruct (Qle_bool yp water_level); eauto.
  - destruct (Qle_bool water_level yp) eqn:E1; cbn [bind].
    + destruct (Qle_bool yi water_level) eqn:E2.
      * apply Qle_bool_iff in E1, E2.
        destruct (@interp1d_defined yp yi xp xi water_level) as [f Hf];
          [right; split; assumption |].
        rewrite Hf. cbn [bind]. eauto.
      * destruct (i - 1 =? 0)%Z; cbn [bind]; [| eauto].
        destruct (Qle_bool yp water_level); eauto.
    + destruct (i - 1 =? 0)%Z; cbn [bind]; [| eauto].
      destruct (Qle_bool yp water_level); eauto.
Qed.

Lemma right_step_Ok (i : Z) :
  (0 <= i < Py.len y - 1)%Z ->
  exists r, right_step x y water_level i = Ok r.
Proof.
  intros Hi.
  assert (Hlx : Py.len x = Py.len y) by (unfold Py.len; rewrite Hlen; reflexivity).
  destruct (@get_total _ y i ltac:(lia)) as [yi Eyi].
  destruct (@get_total _ y (i + 1)%Z ltac:(lia)) as [yn Eyn].
  destruct (@get_total _ y (Py.len y - 1)%Z ltac:(lia)) as [yl Eyl].
  destruct (@get_total _ x i ltac:(lia)) as [xi Exi].
  destruct (@get_total _ x (i + 1)%Z ltac:(lia)) as [xn Exn].
  destruct (@get_total _ x (Py.len x - 1)%Z ltac:(lia)) as [xl Exl].
  unfold right_step, py_and. rewrite Eyi, Eyn, Eyl, Exi, Exn, Exl. cbn [bind].
  destruct (Qle_bool yi water_level) eqn:E1; cbn [bind].
  - destruct (Qle_bool water_level yn) eqn:E2.
    + apply Qle_bool_iff in E1, E2.
      destruct (@interp1d_defined yi yn xi xn water_level) as [f Hf];
        [left; split; assumption |].
      rewrite Hf. cbn [bind]. eauto.
    + destruct (i + 1 =? Py.len y - 1)%Z; cbn [bind]; [| eauto].
      destruct (Qle_bool yl water_level); eauto.
  - destruct (i + 1 =? Py.len y - 1)%Z; cbn [bind]; [| eauto].
    destruct (Qle_bool yl water_level); eauto.
Qed.

Lemma search_Ok (step : Z -> outcome (option (Q * Q * Z))) (idx : list Z) :
  (forall i, In i idx -> exists r, step i = Ok r) ->
  exists r, search step idx = Ok r.
Proof.
  induction idx as [| i rest IH]; intros H; cbn [search]; [eauto |].
  destruct (H i (or_introl eq_refl)) as [r Hr]. rewrite Hr. cbn [bind].
  destruct r as [b |]; [eauto |]. apply IH. intros j Hj. apply H. now right.
Qed.

Lemma left_search_Ok (s : Z) :
  (0 <= s < Py.len y)%Z ->
  exists r, search (left_step x y water_level s) (Py.range_down s) = Ok r.
Proof.
  intros Hs. apply search_Ok. intros i Hi. apply left_step_Ok; [exact Hs |].
  unfold Py.range_down in Hi. apply in_map_iff in Hi.
  destruct Hi as [k [<- Hk]]. apply in_seq in Hk. lia.
Qed.

Lemma right_search_Ok (s : Z) :
  (0 <= s)%Z ->
  exists r, search (right_step x y water_level) (Py.range s (Py.len y - 1)%Z) = Ok r.
Proof.
  intros Hs. apply search_Ok. intros i Hi. apply right_step_Ok.
  unfold Py.range in Hi. apply in_map_iff in Hi.
  destruct Hi as [k [<- Hk]]. apply in_seq in Hk. lia.
Qed.

(** The step at a dry start vertex that is the first one finds nothing. *)
Lemma left_step_dry_first (y0 : Q) :
  nth_error y 0 = Some y0 -> water_level < y0 ->
  left_step x y water_level 0%Z 0%Z = Ok None.
Proof.
  intros Hy0 Hdry.
  pose proof (get_nat _ _ Hy0) as Gy0. cbn [Z.of_nat] in Gy0.
  assert (H0 : (0 < List.length y)%nat) by (apply nth_error_Some; congruence).
  destruct (@get_total _ y (0 - 1)%Z ltac:(unfold Py.len; lia)) as [yp Eyp].
  unfold left_step, py_and. cbn [Z.eqb bind]. rewrite Gy0, Eyp. cbn [bind].
  rewrite (Qle_bool_false Hdry). cbn [bind].
  destruct (Qle_bool water_level yp); cbn [bind]; reflexivity.
Qed.

End Steps.

Lemma calculate_parameters_short (OVERFLOW : bool) (x y : list Q) (water_level : Q)
      self (b : water_boundary) :
  (List.length (water_boundary_x b) <= 1)%nat ->
  _calculate_parameters OVERFLOW x y water_level self b = Raise IndexError.
Proof.
  intros H. unfold _calculate_parameters.
  destruct (water_boundary_x b) as [| a [| c t]]; [reflexivity | reflexivity |].
  cbn [List.length] in H. lia.
Qed.

(** A construction that starts at the first or at the last vertex, as the
    overflow mode starts the neighbours of the lowest sector, ends the
    program with code 2 when that vertex lies above the water: the search
    away from the polyline finds nothing, the boundary holds one point at
    most, and [_calculate_parameters] runs into the [IndexError] that
    [__post_init__] turns into [sys.exit(2)]. *)
Theorem dry_end_vertex_start_exits_2
        (OVERFLOW : bool) (x y : list Q) (water_level m e ys : Q) (s : nat) :
  List.length x = List.length y ->
  nth_error y s = Some ys -> s = 0%nat \/ S s = List.length y ->
  water_level < ys -> Py.min y = Ok m -> m <= water_level ->
  WaterSection_init OVERFLOW x y water_level (Some (Z.of_nat s, e)) = SysExit 2.
Proof.
  intros Hlen Hys Hend Hdry Hm Hle.
  assert (Hs : (s < List.length y)%nat) by (apply nth_error_Some; congruence).
  assert (Hb : exists b, boundary x y water_level (Some (Z.of_nat s, e)) = Ok [b]
                         /\ (List.length (water_boundary_x b) <= 1)%nat).
  { unfold boundary. cbn [bind fst]. rewrite Hm. cbn [bind].
    destruct (Qlt_le_dec water_level m) as [Habs | _]; [Lqa.lra |].
    assert (Hc : py_and (Ok (Z.of_nat s =? Py.len y - 1)%Z)
                        (ys0 <- Py.get y (Z.of_nat s) ;; Ok (Qle_bool ys0 water_level))
                 = Ok false).
    { unfold py_and. cbn [bind]. rewrite (get_nat _ _ Hys). cbn [bind].
      rewrite (Qle_bool_false Hdry). destruct (Z.of_nat s =? Py.len y - 1)%Z; reflexivity. }
    rewrite Hc.
    destruct (Nat.eq_dec s 0) as [-> | Hs0].
    - (* the first vertex: nothing to the left *)
      cbn [Z.of_nat]. rewrite range_down_0. cbn [search].
      rewrite (@left_step_dry_first x y water_level Hlen ys Hys Hdry). cbn [bind add_found].
      destruct (@right_search_Ok x y water_level Hlen 0%Z ltac:(lia)) as [r Hr].
      rewrite Hr. cbn [bind]. eexists. split; [reflexivity |].
      destruct r as [[[bx by_] pt] |]; cbn; lia.
    - (* the last vertex: nothing to the right *)
      destruct Hend as [-> | Hlast]; [contradiction |].
      destruct (@left_search_Ok x y water_level Hlen (Z.of_nat s)
                  ltac:(unfold Py.len; lia)) as [l Hl].
      rewrite Hl. cbn [bind].
      assert (Hr : (Py.len y - 1)%Z = Z.of_nat s) by (unfold Py.len; lia).
      rewrite Hr, range_nil. cbn [search bind add_found].
      eexists. split; [reflexivity |].
      destruct l as [[[bx by_] pt] |]; cbn; lia. }
  destruct Hb as [b [Hb Hshort]].
  unfold WaterSection_init. rewrite Hb. cbn [bind].
  change (1 <? Py.len [b])%Z with false. cbv iota.
  change (Py.get [b] 0%Z) with (Ok b). cbn [bind].
  rewrite (calculate_parameters_short _ _ _ _ _ _ Hshort). reflexivity.
Qed.

Lemma dry_end_vertex_start_exits_2_witness :
  WaterSection_init true [10; 15; 20; 25] [9; 17 # 2; 17 # 2; 11] (87 # 10)
                    (Some (Z.of_nat 0, 9)) = SysExit 2.
Proof.
  apply (@dry_end_vertex_start_exits_2 true [10; 15; 20; 25] [9; 17 # 2; 17 # 2; 11]
           (87 # 10) (17 # 2) 9 9 0).
  - reflexivity.
  - reflexivity.
  - left. reflexivity.
  - reflexivity.
  - reflexivity.
  - Lqa.lra.
Defined.

(** ** [Calculation]: a negative slope *)

(** On a positive depth, a negative slope gives no real velocity in any of
    the three regimes: the square root or the power 0.17 of a negative
    number is not a real number, and the calculation returns no real
    values. *)
Theorem negative_slope_gives_no_real_velocity (CALC_TYPE : Z) (n i h a : R) :
  CALC_TYPE = 1%Z \/ CALC_TYPE = 2%Z \/ CALC_TYPE = 3%Z ->
  n <> 0%R -> (0 < h)%R -> (i < 0)%R ->
  Calculation_init CALC_TYPE n i h a = Ok None.
Proof.
  intros HCT Hn Hh Hi.
  assert (Hv : forall C, velocity CALC_TYPE i h C = Ok None).
  { intros C. unfold velocity.
    assert (Hp : np_pow (i / 1000) 0.17 = None).
    { unfold np_pow. destruct (Rlt_dec 0 (i / 1000)); [lra |].
      destruct (Rlt_dec (i / 1000) 0); [reflexivity | lra]. }
    destruct HCT as [-> | [-> | ->]]; cbn [Z.eqb Pos.eqb].
    - unfold np_sqrt. destruct (Rlt_dec (h * (i / 1000)) 0) as [_ | Hge];
        [reflexivity |].
      exfalso. apply Hge. assert (0 < h * (- i / 1000))%R
        by (apply Rmult_lt_0_compat; lra). lra.
    - rewrite Hp. destruct (np_pow h 0.67); reflexivity.
    - rewrite Hp. destruct (np_pow h 0.50); reflexivity. }
  unfold Calculation_init. destruct (Req_dec_T n 0); [contradiction |].
  destruct (if if Rle_dec 0 h then if Rle_dec h 3 then true else false else false
            then __shezi_pavlovskij n h else __shezi_pavlovskij_zheleznjakov n h);
    rewrite Hv; reflexivity.
Qed.

Lemma negative_slope_gives_no_real_velocity_witness :
  Calculation_init 1 0.03 (-2) 1.75 17.5 = Ok None.
Proof.
  apply negative_slope_gives_no_real_velocity; [left; reflexivity | lra | lra | lra].
Defined.

(** ** [WaterSection]: the first vertex put into the polyline *)

Lemma calculate_parameters_x (OVERFLOW : bool) (x y : list Q) (water_level : Q)
      self (pl pr : nat) (bl br x0 bank : Q) (w : WaterSection) :
  nth_error x 0 = Some x0 ->
  nth_error y (if OVERFLOW then pl else 0%nat) = Some bank ->
  _calculate_parameters OVERFLOW x y water_level self
    (mk_water_boundary [bl; br] [water_level; water_level]
                       [Z.of_nat pl; Z.of_nat pr] 0%Z) = Ok w ->
  water_section_x w
  = bl :: (if Qlt_le_dec bank water_level then [x0] else [])
       ++ Py.slice x (Z.of_nat pl + 1)%Z (Z.of_nat pr + 1)%Z ++ [br].
Proof.
  intros Hx0 Hbank.
  pose proof (get_nat _ _ Hx0) as Gx0. cbn [Z.of_nat] in Gx0.
  assert (Gbank : (if OVERFLOW then Py.get y (Z.of_nat pl) else Py.get y 0%Z) = Ok bank).
  { destruct OVERFLOW; apply get_nat in Hbank; exact Hbank. }
  unfold _calculate_parameters.
  cbn [water_boundary_x water_boundary_y water_boundary_points water_boundary_tag].
  change (Py.get [bl; br] 0%Z) with (Ok bl).
  change (Py.get [bl; br] 1%Z) with (Ok br).
  change (Py.get [water_level; water_level] 0%Z) with (Ok water_level).
  change (Py.get [water_level; water_level] 1%Z) with (Ok water_level).
  change (Py.get [Z.of_nat pl; Z.of_nat pr] 0%Z) with (Ok (Z.of_nat pl)).
  change (Py.get [Z.of_nat pl; Z.of_nat pr] 1%Z) with (Ok (Z.of_nat pr)).
  cbn [bind]. rewrite !insert_0, !insert_len. cbn [app]. rewrite Gbank. cbn [bind].
  change (1 <? 0)%Z with false. unfold py_and. cbn [bind].
  destruct (Qlt_le_dec bank water_level) as [Hb | Hb].
  - rewrite Gx0. cbn [bind].
    destruct (Py.get y 0%Z) as [y0 | | |]; cbn [bind]; try discriminate.
    rewrite !insert_1. cbn [bind fst snd map].
    destruct (Py.max _); cbn [bind]; try discriminate.
    intros H. injection H as <-. reflexivity.
  - cbn [bind fst snd map].
    destruct (Py.max _); cbn [bind]; try discriminate.
    intros H. injection H as <-. reflexivity.
Qed.

(** When every sector fills on its own ([config.OVERFLOW] off) and the first
    vertex of the polyline lies under the level, that vertex is the second
    point of the section polyline, right after the left boundary point,
    wherever the search has found the left boundary: also when a ridge
    stands between the first vertex and the pool. *)
Theorem first_vertex_joins_the_section
        (x y : list Q) (water_level m x0 y0 : Q) :
  List.length x = List.length y -> Py.min y = Ok m -> m <= water_level ->
  nth_error x 0 = Some x0 -> nth_error y 0 = Some y0 -> y0 < water_level ->
  exists w,
    WaterSection_init false x y water_level None = Ok w
    /\ nth_error (water_section_x w) 1 = Some x0
    /\ nth_error (water_section_y w) 1 = Some y0.
Proof.
  intros Hlen Hm Hle Hx0 Hy0 Hlow.
  destruct (index_min _ Hm) as [s [ys [Hidx [Hys [Heq _]]]]].
  assert (Hys_le : ys <= water_level) by Lqa.lra.
  destruct (@boundary_found x y water_level Hlen None s ys Hys Hys_le
              (ex_intro _ m (conj Hm Hidx)))
    as [pl [pr [bl [br [Hb [Hp [Hpr _]]]]]]].
  destruct (@calculate_parameters_found false x y water_level Hlen
              WaterSection_defaults pl pr bl br y0 y0 ltac:(lia) Hpr Hy0 Hy0)
    as [w [Hw [_ Hwsy]]].
  pose proof (@calculate_parameters_x false x y water_level WaterSection_defaults
                pl pr bl br x0 y0 w Hx0 Hy0 Hw) as Hwsx.
  exists w. split.
  - unfold WaterSection_init. rewrite Hb. cbn [bind].
    change (1 <? Py.len [_])%Z with false. cbv iota.
    change (Py.get [?b] 0%Z) with (Ok b). cbn [bind]. rewrite Hw. reflexivity.
  - rewrite Hwsx, Hwsy.
    destruct (Qlt_le_dec y0 water_level) as [_ | Habs]; [| exfalso; Lqa.lra].
    split; reflexivity.
Qed.

Lemma first_vertex_joins_the_section_witness :
  exists w,
    WaterSection_init false ridge_x ridge_y 9 None = Ok w
    /\ nth_error (water_section_x w) 0 = Some (3 # 2)
    /\ nth_error (water_section_x w) 1 = Some 0
    /\ nth_error (water_section_y w) 1 = Some (17 # 2).
Proof.
  destruct (@first_vertex_joins_the_section ridge_x ridge_y 9 8 0 (17 # 2))
    as [w [Hw [H1 H2]]];
    [reflexivity | reflexivity | Lqa.lra | reflexivity | reflexivity | Lqa.lra |].
  exists w. split; [exact Hw |]. split; [| split; assumption].
  eassert (E : WaterSection_init false ridge_x ridge_y 9 None = Ok _)
    by eval_section.
  rewrite Hw in E. injection E as ->. reflexivity.
Defined.
